(** * Approval workflow of the expense-management backend

    A shallow embedding of the three request handlers that drive the
    approval workflow:

    - [submit]  : [router.post('/')]            in [routes/expenses.js]
    - [approve] : [router.post('/:id/approve')] in [routes/approvals.js]
    - [reject]  : [router.post('/:id/reject')]  in [routes/approvals.js]

    The MongoDB collections are finite maps from [_id] to document, the
    handlers are functions from a request and a store to a response and a
    store.  JavaScript [Number]s that take part in a floating-point
    computation (the percentage rule, the monetary fields) are IEEE 754
    binary64 values ([PrimFloat.float]); approval levels, which the code only
    ever creates as [1] and [level + 1], are integers.

    A request is taken as it reaches the handler function: the middleware in
    front of it ([auth], [authorize]) has run and [req.user] is the
    authenticated user.  The [createdAt] and [updatedAt] stamps that Mongoose
    maintains are not part of the documents modelled here. *)

From Stdlib Require Import Floats ZArith String Ascii.
From stdpp Require Import base decidable option list gmap.

Local Open Scope Z_scope.

(** ** Data model *)

(** A MongoDB [ObjectId].  Only equality of ids is ever observed. *)
Abbreviation ObjectId := nat.

(** A JavaScript [Date], as milliseconds since the epoch. *)
Abbreviation Date := Z.

(** [role] of a user: [enum: admin, manager, employee]. *)
Inductive Role := admin | manager | employee.

(** [status] of an approval task ([models/Approval.js]). *)
Inductive ApprovalStatus := t_pending | t_approved | t_rejected.

(** [status] of an expense ([models/Expense.js]). *)
Inductive ExpenseStatus := pending | approved | rejected | partially_approved.

(** [settings.approvalRules] of a company ([models/Company.js]). *)
Inductive ApprovalRules := percentage | specific | hybrid.

#[global] Instance Role_eq_dec : EqDecision Role.
Proof. solve_decision. Defined.
#[global] Instance ApprovalStatus_eq_dec : EqDecision ApprovalStatus.
Proof. solve_decision. Defined.
#[global] Instance ExpenseStatus_eq_dec : EqDecision ExpenseStatus.
Proof. solve_decision. Defined.
#[global] Instance ApprovalRules_eq_dec : EqDecision ApprovalRules.
Proof. solve_decision. Defined.

(** The approval schema of [models/Approval.js]; the key of the collection
    holds [_id]. *)
Record Approval := mkApproval {
  a_expense : ObjectId;
  a_approver : ObjectId;
  a_level : Z;
  a_status : ApprovalStatus;
  a_comments : option string;
  a_rejectionReason : option string;
  a_approvedAt : option Date;
  a_dueDate : option Date;
  a_isOverdue : bool;
  a_reminderSent : bool;
  a_lastReminderSent : option Date
}.

(** Entries of [approvedBy] and [rejectedBy] in the expense schema. *)
Record ApprovedEvent := mkApprovedEvent {
  ab_user : ObjectId;
  ab_level : Z;
  ab_approvedAt : Date;
  ab_comments : option string
}.

Record RejectedEvent := mkRejectedEvent {
  rb_user : ObjectId;
  rb_level : Z;
  rb_rejectedAt : Date;
  rb_reason : string
}.

(** The expense schema of [models/Expense.js].  [receipt] and [ocrData] are
    written by the upload routes only and are left out. *)
Record Expense := mkExpense {
  e_employee : ObjectId;
  e_company : ObjectId;
  e_amount : float;
  e_currency : string;
  e_convertedAmount : float;
  e_companyCurrency : string;
  e_exchangeRate : float;
  e_category : string;
  e_description : string;
  e_expenseDate : Date;
  e_status : ExpenseStatus;
  e_currentApprover : option ObjectId;
  e_approvalLevel : Z;
  e_totalApprovalLevels : Z;
  e_tags : list string;
  e_isReimbursable : bool;
  e_rejectionReason : option string;
  e_approvedBy : list ApprovedEvent;
  e_rejectedBy : list RejectedEvent
}.

(** [settings] of the company schema ([models/Company.js]), the part the
    workflow reads, and the company's [currency]. *)
Record Settings := mkSettings {
  approvalRules : ApprovalRules;
  percentageThreshold : float;
  specificApprovers : list ObjectId
}.

Record Company := mkCompany {
  c_currency : string;
  settings : Settings
}.

(** A user document.  [models/User.js] is not among the sources; these are
    the fields the routes and the [auth] middleware read. *)
Record User := mkUser {
  u_id : ObjectId;
  u_company : ObjectId;
  u_role : Role;
  u_manager : option ObjectId;
  u_isActive : bool
}.

(** The database: three collections keyed by [_id], and the user collection
    in its natural order ([User.findOne] returns the first match). *)
Record Store := mkStore {
  approvals : gmap nat Approval;
  expenses : gmap nat Expense;
  companies : gmap nat Company;
  users : list User
}.

(** [res.status(code).json({ message })]. *)
Record Response := Res {
  code : nat;
  message : string
}.

(** *** Field updates *)

Definition set_approvals (m : gmap nat Approval) (st : Store) : Store :=
  mkStore m (expenses st) (companies st) (users st).

Definition set_expenses (m : gmap nat Expense) (st : Store) : Store :=
  mkStore (approvals st) m (companies st) (users st).

(** [approval.status = s; approval.rejectionReason = r (when given);
    approval.comments = c; approval.approvedAt = d]. *)
Definition decide_approval (s : ApprovalStatus) (r : option string)
    (c : option string) (d : Date) (a : Approval) : Approval :=
  mkApproval (a_expense a) (a_approver a) (a_level a) s c
    (match r with Some _ => r | None => a_rejectionReason a end)
    (Some d) (a_dueDate a) (a_isOverdue a) (a_reminderSent a)
    (a_lastReminderSent a).

(** The workflow fields of an expense and its two histories are the only
    ones the decision handlers assign. *)
Definition with_workflow (s : ExpenseStatus) (cur : option ObjectId)
    (lvl : Z) (e : Expense) : Expense :=
  mkExpense (e_employee e) (e_company e) (e_amount e) (e_currency e)
    (e_convertedAmount e) (e_companyCurrency e) (e_exchangeRate e)
    (e_category e) (e_description e) (e_expenseDate e)
    s cur lvl
    (e_totalApprovalLevels e) (e_tags e) (e_isReimbursable e)
    (e_rejectionReason e) (e_approvedBy e) (e_rejectedBy e).

(** [expense.approvedBy.push(ev)]. *)
Definition push_approvedBy (ev : ApprovedEvent) (e : Expense) : Expense :=
  mkExpense (e_employee e) (e_company e) (e_amount e) (e_currency e)
    (e_convertedAmount e) (e_companyCurrency e) (e_exchangeRate e)
    (e_category e) (e_description e) (e_expenseDate e)
    (e_status e) (e_currentApprover e) (e_approvalLevel e)
    (e_totalApprovalLevels e) (e_tags e) (e_isReimbursable e)
    (e_rejectionReason e) (e_approvedBy e ++ [ev]) (e_rejectedBy e).

(** [expense.rejectionReason = reason; expense.rejectedBy.push(ev)]. *)
Definition push_rejectedBy (reason : string) (ev : RejectedEvent)
    (e : Expense) : Expense :=
  mkExpense (e_employee e) (e_company e) (e_amount e) (e_currency e)
    (e_convertedAmount e) (e_companyCurrency e) (e_exchangeRate e)
    (e_category e) (e_description e) (e_expenseDate e)
    (e_status e) (e_currentApprover e) (e_approvalLevel e)
    (e_totalApprovalLevels e) (e_tags e) (e_isReimbursable e)
    (Some reason) (e_approvedBy e) (e_rejectedBy e ++ [ev]).

(** [e] with its [approvedBy] history replaced. *)
Definition push_approvedBy_all (h : list ApprovedEvent) (e : Expense) : Expense :=
  mkExpense (e_employee e) (e_company e) (e_amount e) (e_currency e)
    (e_convertedAmount e) (e_companyCurrency e) (e_exchangeRate e)
    (e_category e) (e_description e) (e_expenseDate e)
    (e_status e) (e_currentApprover e) (e_approvalLevel e)
    (e_totalApprovalLevels e) (e_tags e) (e_isReimbursable e)
    (e_rejectionReason e) h (e_rejectedBy e).

(** [e] with its [rejectionReason] and [rejectedBy] history replaced. *)
Definition set_rejection (r : option string) (h : list RejectedEvent)
    (e : Expense) : Expense :=
  mkExpense (e_employee e) (e_company e) (e_amount e) (e_currency e)
    (e_convertedAmount e) (e_companyCurrency e) (e_exchangeRate e)
    (e_category e) (e_description e) (e_expenseDate e)
    (e_status e) (e_currentApprover e) (e_approvalLevel e)
    (e_totalApprovalLevels e) (e_tags e) (e_isReimbursable e)
    r (e_approvedBy e) h.

(** [expense.status = 'approved'; expense.currentApprover = null]. *)
Definition finalize_approved (e : Expense) : Expense :=
  with_workflow approved None (e_approvalLevel e) e.

(** [expense.status = 'rejected'; expense.currentApprover = null]. *)
Definition finalize_rejected (e : Expense) : Expense :=
  with_workflow rejected None (e_approvalLevel e) e.

(** [expense.currentApprover = next; expense.approvalLevel = nextLevel];
    the status is not assigned on this path. *)
Definition advance_to (next : ObjectId) (nextLevel : Z) (e : Expense) : Expense :=
  with_workflow (e_status e) (Some next) nextLevel e.

(** ** JavaScript helpers *)

(** [x || null] on an optional string: the empty string is falsy. *)
Definition or_null (c : option string) : option string :=
  match c with
  | Some EmptyString => None
  | _ => c
  end.

(** A non-negative integer (an array length) as a [Number]; exact below
    2^53, and array lengths are below 2^32. *)
Definition number_of_nat (n : nat) : float :=
  PrimFloat.of_uint63 (Uint63.of_Z (Z.of_nat n)).

(** Truthiness of a [Number]: [0], [-0] and [NaN] are falsy. *)
Definition falsy (x : float) : bool :=
  (PrimFloat.eqb x 0%float || negb (PrimFloat.eqb x x))%bool.

(** [arr[k]] for an integer [k]: [undefined] out of range. *)
Definition js_index {A} (l : list A) (k : Z) : option A :=
  if decide (0 <= k) then l !! Z.to_nat k else None.

(** ASCII part of [String.prototype.toUpperCase]. *)
Definition upper_ascii (c : ascii) : ascii :=
  let n := nat_of_ascii c in
  if ((97 <=? n)%nat && (n <=? 122)%nat)%bool then ascii_of_nat (n - 32) else c.

Fixpoint toUpperCase (s : string) : string :=
  match s with
  | EmptyString => EmptyString
  | String c s' => String (upper_ascii c) (toUpperCase s')
  end.

(** ASCII part of [String.prototype.trim]: tab, line feed, vertical tab,
    form feed, carriage return and space are removed at both ends. *)
Definition is_space (c : ascii) : bool :=
  let n := nat_of_ascii c in
  (((9 <=? n)%nat && (n <=? 13)%nat) || (n =? 32)%nat)%bool.

Fixpoint trimStart (s : string) : string :=
  match s with
  | EmptyString => EmptyString
  | String c s' => if is_space c then trimStart s' else s
  end.

Fixpoint trimEnd (s : string) : string :=
  match s with
  | EmptyString => EmptyString
  | String c s' =>
      match trimEnd s' with
      | EmptyString => if is_space c then EmptyString else String c EmptyString
      | t => String c t
      end
  end.

Definition js_trim (s : string) : string := trimEnd (trimStart s).

(** [body('amount').isNumeric()] on a JSON number.  The validator reads
    [String(amount)] and accepts an optional sign, digits and at most one
    decimal point; [String] writes a number that way when it is 0 or its
    magnitude is at least 1e-6 (the double written in hexadecimal below)
    and below 1e21, and with an exponent otherwise. *)
Definition isNumeric (x : float) : bool :=
  (PrimFloat.eqb x 0
   || (PrimFloat.leb 0x1.0c6f7a0b5ed8dp-20 (PrimFloat.abs x)
       && PrimFloat.ltb (PrimFloat.abs x) 1e21))%bool.

(** ** Queries *)

(** [Approval.find({ expense: eid })]. *)
Definition find_approvals (eid : ObjectId) (m : gmap nat Approval) : list Approval :=
  filter (λ a, a_expense a = eid) (map_to_list m).*2.

(** [User.findById(id)]; [findById(null)] finds nothing. *)
Definition User_findById (id : option ObjectId) (us : list User) : option User :=
  match id with
  | Some i => head (filter (λ u, u_id u = i) us)
  | None => None
  end.

(** [User.findOne({ company, role })]: the first match in natural order.
    The query does not mention [isActive]. *)
Definition User_findOne (company : ObjectId) (role : Role) (us : list User)
    : option User :=
  head (filter (λ u, u_company u = company ∧ u_role u = role) us).

(** ** Requests and their environment *)

(** What a handler draws from outside the database while it runs: the
    successive clock readings, the [_id]s Mongoose generates for new
    documents, and the answer of the exchange-rate service. *)
Record Env := mkEnv {
  date1 : Date;
  date2 : Date;
  date_now : Date;
  new_expense_id : ObjectId;
  new_approval_id : ObjectId;
  fx_rate : option float
}.

(** [POST /api/approvals/:id/approve]: [req.user], [req.params.id],
    [req.body.comments]. *)
Record ApproveReq := mkApproveReq {
  ap_user : User;
  ap_id : ObjectId;
  ap_comments : option string
}.

(** [POST /api/approvals/:id/reject]; an absent [reason] validates like the
    empty string. *)
Record RejectReq := mkRejectReq {
  rj_user : User;
  rj_id : ObjectId;
  rj_reason : string;
  rj_comments : option string
}.

(** [POST /api/expenses]: [req.user] and [req.body], with [amount] a JSON
    number and [expenseDate] the date its ISO 8601 string denotes. *)
Record SubmitReq := mkSubmitReq {
  sb_user : User;
  sb_amount : float;
  sb_currency : string;
  sb_category : string;
  sb_description : string;
  sb_expenseDate : Date;
  sb_tags : option (list string)
}.

Definition week : Z := 7 * 24 * 60 * 60 * 1000.

(** [new Approval({ expense, approver, level, dueDate })] with the schema
    defaults. *)
Definition new_Approval (eid approver : ObjectId) (level : Z) (due : Date) : Approval :=
  mkApproval eid approver level t_pending None None None (Some due) false false None.

(** ** The rule evaluation of the approve handler *)

(** [approvals.js] 134-139. *)
Definition specific_rule (s : Settings) (uid : ObjectId) : bool :=
  bool_decide (approvalRules s = specific ∨ approvalRules s = hybrid)
  && bool_decide (uid ∈ specificApprovers s).

(** [company.settings.percentageThreshold || 60]. *)
Definition threshold (s : Settings) : float :=
  if falsy (percentageThreshold s) then 60%float else percentageThreshold s.

(** [(approvedCount / totalApprovers) * 100]. *)
Definition approvalPercentage (approvedCount totalApprovers : nat) : float :=
  (number_of_nat approvedCount / number_of_nat totalApprovers * 100)%float.

(** [approvals.js] 142-148, without the [!shouldApprove] guard. *)
Definition percentage_rule (s : Settings) (approvedCount totalApprovers : nat) : bool :=
  bool_decide (approvalRules s = percentage ∨ approvalRules s = hybrid)
  && (threshold s <=? approvalPercentage approvedCount totalApprovers)%float.

(** The value of [shouldApprove] at line 155. *)
Definition shouldApprove (s : Settings) (uid : ObjectId)
    (approvedCount totalApprovers : nat) : bool :=
  specific_rule s uid || percentage_rule s approvedCount totalApprovers.

(** [approvalRules === 'percentage' ? 3 : 2]. *)
Definition totalLevels (r : ApprovalRules) : Z :=
  if decide (r = percentage) then 3 else 2.

(** [approvals.js] 172-182: the next approver's [_id], if any. *)
Definition find_nextApprover (s : Settings) (company : ObjectId)
    (nextLevel : Z) (us : list User) : option ObjectId :=
  if decide (approvalRules s = specific ∧ (0 < length (specificApprovers s))%nat)
  then js_index (specificApprovers s) (nextLevel - 1)
  else u_id <$> User_findOne company
                  (if decide (nextLevel = 2) then manager else admin) us.

Definition count_approved (l : list Approval) : nat :=
  length (filter (λ a, a_status a = t_approved) l).

(** ** The handlers *)

Definition server_error : Response := Res 500 "Server error".

(** [router.post('/:id/approve')], [approvals.js] 80-214.  The validator of
    [comments] cannot fail on a typed request. *)
Definition approve (env : Env) (req : ApproveReq) (st : Store) : Response * Store :=
  match approvals st !! ap_id req with
  | None => (Res 404 "Approval not found", st)
  | Some approval =>
    if decide (a_approver approval ≠ u_id (ap_user req)) then
      (Res 403 "You are not authorized to approve this expense", st)
    else if decide (a_status approval ≠ t_pending) then
      (Res 400 "This approval has already been processed", st)
    else
      let approval' :=
        decide_approval t_approved None (or_null (ap_comments req)) (date1 env) approval in
      let st1 := set_approvals (<[ap_id req := approval']> (approvals st)) st in
      let eid := a_expense approval in
      match expenses st !! eid with
      | None => (server_error, st1)
      | Some expense0 =>
        let expense :=
          push_approvedBy
            (mkApprovedEvent (u_id (ap_user req)) (a_level approval) (date2 env)
               (or_null (ap_comments req))) expense0 in
        match companies st !! e_company expense with
        | None => (server_error, st1)
        | Some company =>
          let allApprovals := find_approvals eid (approvals st1) in
          let approvedCount := count_approved allApprovals in
          let totalApprovers := length allApprovals in
          let ok := Res 200 "Expense approved successfully" in
          let final :=
            (ok, set_expenses (<[eid := finalize_approved expense]> (expenses st1)) st1) in
          if shouldApprove (settings company) (u_id (ap_user req))
               approvedCount totalApprovers then final
          else if decide (totalLevels (approvalRules (settings company)) <= a_level approval)
          then final
          else
            let nextLevel := a_level approval + 1 in
            match find_nextApprover (settings company) (e_company expense)
                    nextLevel (users st) with
            | Some next =>
              let nextApproval :=
                new_Approval eid next nextLevel (date_now env + week) in
              let st2 :=
                set_approvals (<[new_approval_id env := nextApproval]> (approvals st1)) st1 in
              (ok, set_expenses (<[eid := advance_to next nextLevel expense]> (expenses st2)) st2)
            | None => final
            end
        end
      end
  end.

(** [router.post('/:id/reject')], [approvals.js] 256-314. *)
Definition reject (env : Env) (req : RejectReq) (st : Store) : Response * Store :=
  if decide (rj_reason req = EmptyString) then
    (Res 400 "Rejection reason is required", st)
  else
  match approvals st !! rj_id req with
  | None => (Res 404 "Approval not found", st)
  | Some approval =>
    if decide (a_approver approval ≠ u_id (rj_user req)) then
      (Res 403 "You are not authorized to reject this expense", st)
    else if decide (a_status approval ≠ t_pending) then
      (Res 400 "This approval has already been processed", st)
    else
      let approval' :=
        decide_approval t_rejected (Some (rj_reason req)) (or_null (rj_comments req))
          (date1 env) approval in
      let st1 := set_approvals (<[rj_id req := approval']> (approvals st)) st in
      let eid := a_expense approval in
      match expenses st !! eid with
      | None => (server_error, st1)
      | Some expense0 =>
        let expense :=
          push_rejectedBy (rj_reason req)
            (mkRejectedEvent (u_id (rj_user req)) (a_level approval) (date2 env)
               (rj_reason req))
            (finalize_rejected expense0) in
        (Res 200 "Expense rejected successfully",
         set_expenses (<[eid := expense]> (expenses st1)) st1)
      end
  end.

(** [convertCurrency], [expenses.js] 48-69; [None] when it throws. *)
Definition convertCurrency (amount : float) (fromCurrency toCurrency : string)
    (rate : option float) : option (float * float) :=
  if decide (fromCurrency = toCurrency) then Some (amount, 1%float)
  else match rate with
       | Some r => if falsy r then None else Some ((amount * r)%float, r)
       | None => None
       end.

Definition categories : list string :=
  ["travel"; "meals"; "accommodation"; "transportation"; "office_supplies";
   "entertainment"; "utilities"; "communication"; "training"; "other"]%string.

(** What [save()] checks on an expense ([models/Expense.js]): [amount] is at
    least 0; [convertedAmount] and [exchangeRate] cast to [Number], which a
    NaN does not; the required strings are not empty; [category] is in its
    [enum].  The references, the date and [status] are there by their
    types. *)
Definition expense_valid (e : Expense) : bool :=
  PrimFloat.leb 0 (e_amount e)
  && PrimFloat.eqb (e_convertedAmount e) (e_convertedAmount e)
  && PrimFloat.eqb (e_exchangeRate e) (e_exchangeRate e)
  && bool_decide (e_currency e ≠ EmptyString)
  && bool_decide (e_companyCurrency e ≠ EmptyString)
  && bool_decide (e_category e ∈ categories)
  && bool_decide (e_description e ≠ EmptyString).

(** [new Expense({...})] of a submission: the fields of the request, with
    the [uppercase] and [trim] setters applied, and the schema defaults. *)
Definition submitted_expense (req : SubmitReq) (company : Company)
    (converted rate : float) : Expense :=
  mkExpense (u_id (sb_user req)) (u_company (sb_user req)) (sb_amount req)
    (toUpperCase (sb_currency req)) converted
    (toUpperCase (c_currency company)) rate
    (sb_category req) (js_trim (sb_description req)) (sb_expenseDate req)
    pending None 1 3 (default [] (sb_tags req)) true None [] [].

(** [router.post('/')], [expenses.js] 188-257: the validators of the route,
    the company, the conversion, [expense.save()] with the checks of the
    schema (a failure is caught and answered 500, nothing being written),
    then the first approval task when the submitter's manager is found. *)
Definition submit (env : Env) (req : SubmitReq) (st : Store) : Response * Store :=
  if decide (isNumeric (sb_amount req) = false
             ∨ sb_currency req = EmptyString ∨ sb_category req ∉ categories
             ∨ sb_description req = EmptyString) then
    (Res 400 "Validation failed", st)
  else
  match companies st !! u_company (sb_user req) with
  | None => (Res 400 "Company not found", st)
  | Some company =>
    match convertCurrency (sb_amount req) (sb_currency req) (c_currency company)
            (fx_rate env) with
    | None => (server_error, st)
    | Some (converted, rate) =>
      let expense := submitted_expense req company converted rate in
      if expense_valid expense then
        let eid := new_expense_id env in
        let st1 := set_expenses (<[eid := expense]> (expenses st)) st in
        let created := Res 201 "Expense created successfully" in
        match User_findById (u_manager (sb_user req)) (users st) with
        | Some mgr =>
          let approval := new_Approval eid (u_id mgr) 1 (date_now env + week) in
          let st2 :=
            set_approvals (<[new_approval_id env := approval]> (approvals st1)) st1 in
          (created,
           set_expenses
             (<[eid := with_workflow pending (Some (u_id mgr)) 1 expense]> (expenses st2)) st2)
        | None => (created, st1)
        end
      else (server_error, st)
    end
  end.

(** ** Reachable stores *)

Inductive Action :=
  | Submit (req : SubmitReq)
  | Approve (req : ApproveReq)
  | Reject (req : RejectReq).

Definition run (env : Env) (act : Action) (st : Store) : Response * Store :=
  match act with
  | Submit req => submit env req st
  | Approve req => approve env req st
  | Reject req => reject env req st
  end.

(** Generated [_id]s are new to their collection. *)
Definition fresh_ids (env : Env) (st : Store) : Prop :=
  approvals st !! new_approval_id env = None
  ∧ expenses st !! new_expense_id env = None.

(** A store before any expense has been submitted. *)
Definition initial (st : Store) : Prop :=
  approvals st = ∅ ∧ expenses st = ∅.

Inductive reachable : Store → Prop :=
  | reach_init st : initial st → reachable st
  | reach_step st env act :
      reachable st → fresh_ids env st → reachable (run env act st).2.

(** ** Sample data *)

Module Demo.

Definition staff : list User :=
  [mkUser 1 10 admin None true;
   mkUser 2 10 manager None true;
   mkUser 3 10 employee (Some 2%nat) true].

Definition claim (cur : option ObjectId) (lvl : Z) : Expense :=
  mkExpense 3 10 150%float "USD" 150%float "USD" 1%float "travel"
    "Flight to client meeting" 1705276800000 pending cur lvl 3 [] true None [] [].

Definition task (approver : ObjectId) (lvl : Z) (s : ApprovalStatus) : Approval :=
  mkApproval 100 approver lvl s None None None (Some 1705881600000) false false None.

Definition store (r : ApprovalRules) (thr : float) (sp : list ObjectId)
    (us : list User) (tasks : list (nat * Approval)) (e : Expense) : Store :=
  mkStore (list_to_map tasks) {[100%nat := e]}
    {[10%nat := mkCompany "USD" (mkSettings r thr sp)]} us.

Definition env : Env := mkEnv 1705300000000 1705300000001 1705300000002 101 50 None.

Definition by_user (uid id : ObjectId) : ApproveReq :=
  mkApproveReq (mkUser uid 10 manager None true) id (Some "ok"%string).

Definition refusal (uid id : ObjectId) : RejectReq :=
  mkRejectReq (mkUser uid 10 manager None true) id "No receipt attached" None.

(** Percentage rule, threshold 60: task 1 is decided while task 2 is already
    approved and task 3 rejected, so 2 of 3 end up approved. *)
Definition two_of_three : Store :=
  store percentage 60%float [] staff
    [(1%nat, task 2 1 t_pending); (2%nat, task 1 2 t_approved);
     (3%nat, task 1 3 t_rejected)]
    (claim (Some 2%nat) 1).

(** The same with nobody else having approved: 1 of 3. *)
Definition one_of_three (thr : float) : Store :=
  store percentage thr [] staff
    [(1%nat, task 2 1 t_pending); (2%nat, task 1 2 t_rejected);
     (3%nat, task 1 3 t_rejected)]
    (claim (Some 2%nat) 1).

(** Percentage rule, threshold 60, the decided task at level 3. *)
Definition at_cap : Store :=
  store percentage 60%float [] staff
    [(1%nat, task 2 1 t_rejected); (2%nat, task 2 2 t_rejected);
     (3%nat, task 1 3 t_pending)]
    (claim (Some 1%nat) 3).

(** Hybrid rules, threshold 70, nobody designated, the decided task at
    level 2 with the level-1 task rejected: 1 of 2. *)
Definition hybrid_level_two : Store :=
  store hybrid 70%float [] staff
    [(1%nat, task 2 1 t_rejected); (2%nat, task 1 2 t_pending)]
    (claim (Some 1%nat) 2).

(** Specific rules with user 1 designated. *)
Definition designated : Store :=
  store specific 60%float [1%nat] staff
    [(1%nat, task 1 1 t_pending)] (claim (Some 1%nat) 1).

(** Specific rules with nobody designated, and a deactivated manager. *)
Definition staff_with_inactive_manager : list User :=
  [mkUser 1 10 admin None true;
   mkUser 2 10 manager None false;
   mkUser 3 10 employee (Some 1%nat) true].

Definition nobody_designated : Store :=
  store specific 60%float [] staff_with_inactive_manager
    [(1%nat, task 1 1 t_pending)] (claim (Some 1%nat) 1).

(** A task that user 2 has already approved. *)
Definition already_decided : Store :=
  store percentage 60%float [] staff
    [(1%nat, task 2 1 t_approved)] (claim None 1).

(** A store with users and companies only, and a submission by employee 3
    whose own manager field is empty. *)
Definition empty_store : Store :=
  mkStore ∅ ∅ {[10%nat := mkCompany "USD" (mkSettings percentage 60%float [])]} staff.

Definition submission (mgr : option ObjectId) : SubmitReq :=
  mkSubmitReq (mkUser 3 10 employee mgr true) 150%float "USD" "travel"
    "Flight to client meeting" 1705276800000 None.

End Demo.

(** ** One approve decision *)

(** The request passes the checks of [approvals.js] 93-105 on task [a], and
    the documents the handler then loads exist: the populated expense [e]
    and its company [c]. *)
Definition approve_accepts (req : ApproveReq) (st : Store)
    (a : Approval) (e : Expense) (c : Company) : Prop :=
  approvals st !! ap_id req = Some a
  ∧ a_approver a = u_id (ap_user req)
  ∧ a_status a = t_pending
  ∧ expenses st !! a_expense a = Some e
  ∧ companies st !! e_company e = Some c.

(** The store once [approval.save()] of line 113 has run. *)
Definition recorded (env : Env) (req : ApproveReq) (a : Approval) (st : Store) : Store :=
  set_approvals
    (<[ap_id req :=
         decide_approval t_approved None (or_null (ap_comments req)) (date1 env) a]>
       (approvals st)) st.

(** [allApprovals] of line 129. *)
Definition tasks_after (env : Env) (req : ApproveReq) (a : Approval) (st : Store)
    : list Approval :=
  find_approvals (a_expense a) (approvals (recorded env req a st)).

(** The expense after [approvedBy.push] of lines 116-121. *)
Definition logged (env : Env) (req : ApproveReq) (a : Approval) (e : Expense) : Expense :=
  push_approvedBy
    (mkApprovedEvent (u_id (ap_user req)) (a_level a) (date2 env)
       (or_null (ap_comments req))) e.

Definition approve_ok : Response := Res 200 "Expense approved successfully".

(** The store when the decision finalizes the expense. *)
Definition approved_store (env : Env) (req : ApproveReq) (a : Approval)
    (e : Expense) (st : Store) : Store :=
  set_expenses
    (<[a_expense a := finalize_approved (logged env req a e)]> (expenses st))
    (recorded env req a st).

(** The store when the decision opens level [a_level a + 1] for [next]. *)
Definition advanced_store (env : Env) (req : ApproveReq) (a : Approval)
    (e : Expense) (next : ObjectId) (st : Store) : Store :=
  set_expenses
    (<[a_expense a := advance_to next (a_level a + 1) (logged env req a e)]> (expenses st))
    (set_approvals
       (<[new_approval_id env :=
            new_Approval (a_expense a) next (a_level a + 1) (date_now env + week)]>
          (approvals (recorded env req a st)))
       (recorded env req a st)).

(** Expense [eid] is approved and waits for nobody. *)
Definition is_finalized (eid : ObjectId) (st : Store) : Prop :=
  ∃ e, expenses st !! eid = Some e
       ∧ e_status e = approved ∧ e_currentApprover e = None.

(** After an advance, expense [eid] waits for [next] at level [lvl] and
    keeps status [s]. *)
Definition is_advanced (eid : ObjectId) (s : ExpenseStatus) (next : ObjectId)
    (lvl : Z) (st : Store) : Prop :=
  ∃ e, expenses st !! eid = Some e
       ∧ e_status e = s ∧ e_currentApprover e = Some next ∧ e_approvalLevel e = lvl.

(** ** One reject decision *)

(** The request passes validation and the checks of [approvals.js] 269-281
    on task [a], whose populated expense is [e]. *)
Definition reject_accepts (req : RejectReq) (st : Store)
    (a : Approval) (e : Expense) : Prop :=
  rj_reason req ≠ EmptyString
  ∧ approvals st !! rj_id req = Some a
  ∧ a_approver a = u_id (rj_user req)
  ∧ a_status a = t_pending
  ∧ expenses st !! a_expense a = Some e.

(** The store once [approval.save()] of line 290 has run. *)
Definition recorded_rejection (env : Env) (req : RejectReq) (a : Approval)
    (st : Store) : Store :=
  set_approvals
    (<[rj_id req :=
         decide_approval t_rejected (Some (rj_reason req)) (or_null (rj_comments req))
           (date1 env) a]>
       (approvals st)) st.

Definition rejection_event (env : Env) (req : RejectReq) (a : Approval) : RejectedEvent :=
  mkRejectedEvent (u_id (rj_user req)) (a_level a) (date2 env) (rj_reason req).

Definition rejected_store (env : Env) (req : RejectReq) (a : Approval)
    (e : Expense) (st : Store) : Store :=
  set_expenses
    (<[a_expense a :=
         push_rejectedBy (rj_reason req) (rejection_event env req a)
           (finalize_rejected e)]> (expenses st))
    (recorded_rejection env req a st).

Definition reject_ok : Response := Res 200 "Expense rejected successfully".

(** ** Frames *)

(** [e'] differs from [e] at most in [status], [currentApprover],
    [approvalLevel] and [approvedBy]. *)
Definition approve_frame (e e' : Expense) : Prop :=
  e' = push_approvedBy_all (e_approvedBy e')
         (with_workflow (e_status e') (e_currentApprover e') (e_approvalLevel e') e).

(** [e'] differs from [e] at most in [status], [currentApprover],
    [rejectionReason] and [rejectedBy]. *)
Definition reject_frame (e e' : Expense) : Prop :=
  e' = set_rejection (e_rejectionReason e') (e_rejectedBy e')
         (with_workflow (e_status e') (e_currentApprover e') (e_approvalLevel e) e).

(** The monetary fields. *)
Definition same_money (e e' : Expense) : Prop :=
  e_amount e' = e_amount e ∧ e_currency e' = e_currency e
  ∧ e_convertedAmount e' = e_convertedAmount e
  ∧ e_exchangeRate e' = e_exchangeRate e.

(** [a'] differs from [a] at most in the fields a decision assigns. *)
Definition task_frame (a a' : Approval) : Prop :=
  a_expense a' = a_expense a ∧ a_approver a' = a_approver a
  ∧ a_level a' = a_level a ∧ a_dueDate a' = a_dueDate a
  ∧ a_isOverdue a' = a_isOverdue a ∧ a_reminderSent a' = a_reminderSent a
  ∧ a_lastReminderSent a' = a_lastReminderSent a.

(** ** The possible effects of one request *)

(** The stores an approve request can leave: unchanged when refused; only
    the task written when a later load fails; finalized; advanced. *)
Inductive approve_outcome (env : Env) (req : ApproveReq) (st : Store) : Store → Prop :=
  | ao_refused : approve_outcome env req st st
  | ao_failed a :
      approvals st !! ap_id req = Some a →
      a_status a = t_pending →
      (expenses st !! a_expense a = None
       ∨ ∃ e, expenses st !! a_expense a = Some e
              ∧ companies st !! e_company e = None) →
      approve_outcome env req st (recorded env req a st)
  | ao_final a e :
      approvals st !! ap_id req = Some a →
      a_status a = t_pending →
      expenses st !! a_expense a = Some e →
      approve_outcome env req st (approved_store env req a e st)
  | ao_advance a e next :
      approvals st !! ap_id req = Some a →
      a_status a = t_pending →
      expenses st !! a_expense a = Some e →
      approve_outcome env req st (advanced_store env req a e next st).

Inductive reject_outcome (env : Env) (req : RejectReq) (st : Store) : Store → Prop :=
  | ro_refused : reject_outcome env req st st
  | ro_failed a :
      approvals st !! rj_id req = Some a →
      a_status a = t_pending →
      expenses st !! a_expense a = None →
      reject_outcome env req st (recorded_rejection env req a st)
  | ro_final a e :
      approvals st !! rj_id req = Some a →
      a_status a = t_pending →
      expenses st !! a_expense a = Some e →
      reject_outcome env req st (rejected_store env req a e st).

(** The store a submission is first saved to, and the one it leaves when
    the manager is found. *)
Definition stalled_store (env : Env) (e : Expense) (st : Store) : Store :=
  set_expenses (<[new_expense_id env := e]> (expenses st)) st.

Definition assigned_store (env : Env) (e : Expense) (mgr : ObjectId)
    (st : Store) : Store :=
  mkStore
    (<[new_approval_id env :=
         new_Approval (new_expense_id env) mgr 1 (date_now env + week)]> (approvals st))
    (<[new_expense_id env := with_workflow pending (Some mgr) 1 e]> (expenses st))
    (companies st) (users st).

Inductive submit_outcome (env : Env) (req : SubmitReq) (st : Store) : Store → Prop :=
  | so_refused : submit_outcome env req st st
  | so_stalled e :
      is_Some (companies st !! e_company e) →
      e_status e = pending → e_currentApprover e = None →
      submit_outcome env req st (stalled_store env e st)
  | so_assigned e mgr :
      is_Some (companies st !! e_company e) →
      submit_outcome env req st (assigned_store env e mgr st).

(** ** Statements of the specification that the code does not meet as worded *)

(** The error behaviour of a decision request as worded, for a request that
    carries what it must (a reject request its reason) and the check of the
    designated approver read first: a request by somebody other than the
    task's approver is refused with 403; one by the approver on a task that
    is no longer pending is refused with 409, the status code of a conflict;
    neither changes the store. *)
Definition refusals_as_worded : Prop :=
  (∀ env req st a,
     approvals st !! ap_id req = Some a →
     (a_approver a ≠ u_id (ap_user req) →
        code (approve env req st).1 = 403%nat ∧ (approve env req st).2 = st)
     ∧ (a_approver a = u_id (ap_user req) → a_status a ≠ t_pending →
        code (approve env req st).1 = 409%nat ∧ (approve env req st).2 = st))
  ∧ (∀ env req st a,
     rj_reason req ≠ EmptyString → approvals st !! rj_id req = Some a →
     (a_approver a ≠ u_id (rj_user req) →
        code (reject env req st).1 = 403%nat ∧ (reject env req st).2 = st)
     ∧ (a_approver a = u_id (rj_user req) → a_status a ≠ t_pending →
        code (reject env req st).1 = 409%nat ∧ (reject env req st).2 = st)).

(** The percentage rule as worded: under [percentage] or [hybrid] rules, a
    decision by somebody who does not satisfy the specific-approver rule
    finalizes the expense exactly when the approved fraction, times 100,
    reaches [percentageThreshold]. *)
Definition percentage_as_worded : Prop :=
  ∀ env req st a e c,
    approve_accepts req st a e c →
    approvalRules (settings c) = percentage ∨ approvalRules (settings c) = hybrid →
    specific_rule (settings c) (u_id (ap_user req)) = false →
    (is_finalized (a_expense a) (approve env req st).2
     ↔ (percentageThreshold (settings c)
        <=? approvalPercentage (count_approved (tasks_after env req a st))
                               (length (tasks_after env req a st)))%float = true).

(** The approver resolution as worded: the entry of [specificApprovers] at
    index [n - 1] under [specific] rules, otherwise the first active user of
    the company with role manager for level 2 and admin above. *)
Definition resolve_next_as_worded (s : Settings) (company : ObjectId) (n : Z)
    (us : list User) : option ObjectId :=
  if decide (approvalRules s = specific) then js_index (specificApprovers s) (n - 1)
  else u_id <$> head (filter (λ u, u_company u = company
                                   ∧ u_role u = (if decide (n = 2) then manager else admin)
                                   ∧ u_isActive u = true) us).

Definition advance_as_worded : Prop :=
  ∀ env req st a e c,
    approve_accepts req st a e c →
    shouldApprove (settings c) (u_id (ap_user req))
      (count_approved (tasks_after env req a st))
      (length (tasks_after env req a st)) = false →
    a_level a < totalLevels (approvalRules (settings c)) →
    approve env req st =
      match resolve_next_as_worded (settings c) (e_company e) (a_level a + 1) (users st) with
      | Some next => (approve_ok, advanced_store env req a e next st)
      | None => (approve_ok, approved_store env req a e st)
      end.

(** ** Workflow invariants *)

(** The invariant of the expense record as worded: an open status with a
    current approver, or a terminal status without one. *)
Definition workflow_consistent (e : Expense) : Prop :=
  ((e_status e = pending ∨ e_status e = partially_approved)
   ∧ e_currentApprover e ≠ None)
  ∨ ((e_status e = approved ∨ e_status e = rejected)
     ∧ e_currentApprover e = None).

Definition workflow_as_worded : Prop :=
  ∀ st, reachable st →
    ∀ k e, expenses st !! k = Some e → workflow_consistent e.

(** An expense submitted when no manager was found ([expenses.js] 231-243):
    pending, nobody to approve it, no task. *)
Definition stalled (st : Store) (k : ObjectId) (e : Expense) : Prop :=
  e_status e = pending ∧ e_currentApprover e = None
  ∧ ∀ i a, approvals st !! i = Some a → a_expense a ≠ k.

(** What every reachable store satisfies. *)
Record Inv (st : Store) : Prop := mkInv {
  inv_company : ∀ k e,
    expenses st !! k = Some e → is_Some (companies st !! e_company e);
  inv_expense : ∀ i a,
    approvals st !! i = Some a → is_Some (expenses st !! a_expense a);
  inv_pending : ∀ i a,
    approvals st !! i = Some a → a_status a = t_pending →
    ∃ e, expenses st !! a_expense a = Some e
         ∧ e_status e = pending ∧ e_currentApprover e = Some (a_approver a);
  inv_latest : ∀ i j a b,
    approvals st !! i = Some a → approvals st !! j = Some b →
    a_expense a = a_expense b → a_status a = t_pending → i ≠ j →
    a_level b < a_level a ∧ a_status b = t_approved;
  inv_levels : ∀ i j a b,
    approvals st !! i = Some a → approvals st !! j = Some b →
    a_expense a = a_expense b → a_level a = a_level b → i = j;
  inv_workflow : ∀ k e,
    expenses st !! k = Some e → workflow_consistent e ∨ stalled st k e
}.

(** ** Accepted requests, with what the handler found *)

(** The effect of one request on a consistent store: nothing, or one of the
    five writes, each with the facts the handler established on the way. *)
Inductive transition (env : Env) (st : Store) : Store → Prop :=
  | tr_none : transition env st st
  | tr_stalled e :
      expenses st !! new_expense_id env = None →
      is_Some (companies st !! e_company e) →
      e_status e = pending → e_currentApprover e = None →
      e_approvalLevel e = 1 → e_approvedBy e = [] → e_rejectedBy e = [] →
      transition env st (stalled_store env e st)
  | tr_assigned e mgr :
      expenses st !! new_expense_id env = None →
      approvals st !! new_approval_id env = None →
      is_Some (companies st !! e_company e) →
      e_approvedBy e = [] → e_rejectedBy e = [] →
      transition env st (assigned_store env e mgr st)
  | tr_approved req a e c :
      approve_accepts req st a e c →
      shouldApprove (settings c) (u_id (ap_user req))
        (count_approved (tasks_after env req a st))
        (length (tasks_after env req a st)) = true
      ∨ totalLevels (approvalRules (settings c)) <= a_level a
      ∨ find_nextApprover (settings c) (e_company e) (a_level a + 1) (users st) = None →
      transition env st (approved_store env req a e st)
  | tr_advanced req a e c next :
      approve_accepts req st a e c →
      shouldApprove (settings c) (u_id (ap_user req))
        (count_approved (tasks_after env req a st))
        (length (tasks_after env req a st)) = false →
      a_level a < totalLevels (approvalRules (settings c)) →
      find_nextApprover (settings c) (e_company e) (a_level a + 1) (users st) = Some next →
      approvals st !! new_approval_id env = None →
      transition env st (advanced_store env req a e next st)
  | tr_rejected req a e :
      reject_accepts req st a e →
      transition env st (rejected_store env req a e st).

(** ** Further invariants of the reachable stores *)

(** Levels start at 1, have no gaps, stay within 3, and the expense records
    the level of its pending task. *)
Record levels_wf (st : Store) : Prop := mkLevelsWf {
  lv_range : ∀ i a, approvals st !! i = Some a → 1 <= a_level a <= 3;
  lv_gapless : ∀ i a,
    approvals st !! i = Some a → 1 < a_level a →
    ∃ j b, approvals st !! j = Some b
           ∧ a_expense b = a_expense a ∧ a_level b = a_level a - 1;
  lv_sync : ∀ i a e,
    approvals st !! i = Some a → a_status a = t_pending →
    expenses st !! a_expense a = Some e → e_approvalLevel e = a_level a
}.

(** An event of [approvedBy] or [rejectedBy] and the task it records. *)
Definition approval_logged (a : Approval) (ev : ApprovedEvent) : Prop :=
  ab_user ev = a_approver a ∧ ab_level ev = a_level a.

Definition rejection_logged (a : Approval) (ev : RejectedEvent) : Prop :=
  rb_user ev = a_approver a ∧ rb_level ev = a_level a.

(** The histories of an expense and its decided tasks tell the same story. *)
Record audit_wf (st : Store) : Prop := mkAuditWf {
  au_approved : ∀ i a e,
    approvals st !! i = Some a → expenses st !! a_expense a = Some e →
    a_status a = t_approved → ∃ ev, ev ∈ e_approvedBy e ∧ approval_logged a ev;
  au_rejected : ∀ i a e,
    approvals st !! i = Some a → expenses st !! a_expense a = Some e →
    a_status a = t_rejected →
    e_status e = rejected ∧ ∃ ev, ev ∈ e_rejectedBy e ∧ rejection_logged a ev;
  au_approvedBy : ∀ k e ev,
    expenses st !! k = Some e → ev ∈ e_approvedBy e →
    ∃ i a, approvals st !! i = Some a ∧ a_expense a = k
           ∧ a_status a = t_approved ∧ approval_logged a ev;
  au_rejectedBy : ∀ k e ev,
    expenses st !! k = Some e → ev ∈ e_rejectedBy e →
    ∃ i a, approvals st !! i = Some a ∧ a_expense a = k
           ∧ a_status a = t_rejected ∧ rejection_logged a ev;
  au_once : ∀ k e,
    expenses st !! k = Some e → (length (e_rejectedBy e) <= 1)%nat
}.

(** A company whose percentage rule no count of approvals can miss: the
    rule applies and the threshold in force is at most 100. *)
Definition rule_within_reach (c : Company) : Prop :=
  (approvalRules (settings c) = percentage ∨ approvalRules (settings c) = hybrid)
  ∧ (threshold (settings c) <=? 100)%float = true.

(** Under such a company an expense never gets past level 1. *)
Definition single_level (st : Store) : Prop :=
  ∀ i a e c,
    approvals st !! i = Some a → expenses st !! a_expense a = Some e →
    companies st !! e_company e = Some c → rule_within_reach c →
    a_level a = 1.

(** ** Read-only routes of [approvals.js] *)

(** [router.get('/')], [approvals.js] 23-43: the pending approvals of the
    current user, as the set of matching documents (the order by
    [createdAt] is not modelled). *)
Definition pending_approvals (uid : ObjectId) (st : Store) : gmap nat Approval :=
  filter (λ ia, a_approver ia.2 = uid ∧ a_status ia.2 = t_pending) (approvals st).

(** [router.get('/stats')], [approvals.js] 328-359: [$match] on the
    approver, [$group] by status with a count, zero for a status that no
    group reports. *)
Record Stats := mkStats {
  s_pending : nat;
  s_approved : nat;
  s_rejected : nat
}.

Definition count_status (uid : ObjectId) (s : ApprovalStatus)
    (m : gmap nat Approval) : nat :=
  size (filter (λ ia, a_approver ia.2 = uid ∧ a_status ia.2 = s) m).

Definition approval_stats (uid : ObjectId) (st : Store) : Stats :=
  mkStats (count_status uid t_pending (approvals st))
          (count_status uid t_approved (approvals st))
          (count_status uid t_rejected (approvals st)).

(** Every expense that waits for somebody has the pending task that asks
    them. *)
Definition waiting_wf (st : Store) : Prop :=
  ∀ k e u,
    expenses st !! k = Some e → e_status e = pending →
    e_currentApprover e = Some u →
    ∃ i a, approvals st !! i = Some a ∧ a_expense a = k
           ∧ a_approver a = u ∧ a_status a = t_pending.

(** ** A small office *)

Module Scenario.

(** Company 10 decides by percentage, company 11 by designated approvers of
    which it has named none. *)
Definition people : list User :=
  [mkUser 1 10 admin None true;
   mkUser 2 10 manager None true;
   mkUser 3 10 employee (Some 2%nat) true;
   mkUser 4 11 manager None true;
   mkUser 5 11 employee (Some 4%nat) true;
   mkUser 6 11 employee (Some 7%nat) true;
   mkUser 7 11 employee None true;
   mkUser 8 11 manager None false].

Definition opening : Store :=
  mkStore ∅ ∅
    {[10%nat := mkCompany "USD" (mkSettings percentage 60%float []);
      11%nat := mkCompany "EUR" (mkSettings specific 60%float [])]}
    people.

Definition person (uid : ObjectId) : User :=
  default (mkUser uid 0 employee None false) (User_findById (Some uid) people).

Definition trip (uid : ObjectId) (currency : string) : SubmitReq :=
  mkSubmitReq (person uid) 420%float currency "travel" "Train to the customer"
    1705276800000 (Some ["rail"%string]).

Definition env1 : Env := mkEnv 1705300000000 1705300000001 1705300000002 201 301 None.
Definition env2 : Env := mkEnv 1705400000000 1705400000001 1705400000002 202 302 None.
Definition env3 : Env := mkEnv 1705500000000 1705500000001 1705500000002 203 303 None.

(** Employee 5 of company 11 submits; manager 4 then approves level 1. *)
Definition submitted : Store := (run env1 (Submit (trip 5 "EUR")) opening).2.

Definition escalated : Store :=
  (run env2 (Approve (mkApproveReq (person 4) 301 None)) submitted).2.

(** Employee 3 of company 10 submits; manager 2 approves. *)
Definition filed : Store := (run env1 (Submit (trip 3 "USD")) opening).2.

Definition settled : Store :=
  (run env2 (Approve (mkApproveReq (person 2) 301 None)) filed).2.

Definition expense_of (k : ObjectId) (st : Store) : Expense :=
  default (Demo.claim None 0) (expenses st !! k).

Definition task_of (i : ObjectId) (st : Store) : Approval :=
  default (Demo.task 0 0 t_rejected) (approvals st !! i).

(** Employee 7, whose manager field is empty, submits. *)
Definition unassigned : Store := (run env1 (Submit (trip 7 "EUR")) opening).2.



End Scenario.

(** Whether a task counts for user [uid] under status [s]. *)
Definition counts_as (uid : ObjectId) (s : ApprovalStatus) (a : Approval) : nat :=
  if decide (a_approver a = uid ∧ a_status a = s) then 1%nat else 0%nat.

(** The number of tasks assigned to a user. *)
Definition assigned_to (uid : ObjectId) (m : gmap nat Approval) : nat :=
  size (filter (λ ia, a_approver ia.2 = uid) m).

(** ** Middleware ([middleware/auth.js]) *)

(** What [jwt.verify] makes of the [Authorization] header: no token, a token
    that does not verify, or a verified token carrying a user id. *)
Inductive Token :=
  | no_token
  | invalid_token
  | token_of (id : ObjectId).

(** [auth]: the user a request acts as, or the 401 it is answered with. *)
Definition auth (tok : Token) (us : list User) : Response + User :=
  match tok with
  | no_token => inl (Res 401 "No token, authorization denied")
  | invalid_token => inl (Res 401 "Token is not valid")
  | token_of id =>
      match User_findById (Some id) us with
      | None => inl (Res 401 "Token is not valid")
      | Some u =>
          if u_isActive u then inr u
          else inl (Res 401 "User account is deactivated")
      end
  end.

Definition role_name (r : Role) : string :=
  match r with
  | admin => "admin"
  | manager => "manager"
  | employee => "employee"
  end.

(** [Array.prototype.join]. *)
Fixpoint join (sep : string) (l : list string) : string :=
  match l with
  | [] => EmptyString
  | [x] => x
  | x :: l' => (x ++ sep ++ join sep l')%string
  end.

(** [authorize(...roles)]: [None] stands for [next()]. *)
Definition authorize (roles : list Role) (u : option User) : option Response :=
  match u with
  | None => Some (Res 401 "Access denied. No user found.")
  | Some u =>
      if decide (u_role u ∈ roles) then None
      else Some (Res 403 ("Access denied. Required role: "
                          ++ join " or " (role_name <$> roles)))
  end.

(** [a || b || c] on optional ids. *)
Definition first_given (a b c : option ObjectId) : option ObjectId :=
  match a with
  | Some _ => a
  | None => match b with Some _ => b | None => c end
  end.

(** [checkCompanyAccess], with [req.params.companyId], [req.body.company]
    and [req.query.company]. *)
Definition checkCompanyAccess (u : option User)
    (params_companyId body_company query_company : option ObjectId)
    : option Response :=
  match u with
  | None => Some (Res 401 "Access denied. No user found.")
  | Some u =>
      if decide (u_role u = admin) then None
      else match first_given params_companyId body_company query_company with
           | Some cid =>
               if decide (u_company u ≠ cid) then
                 Some (Res 403 "Access denied. You can only access your own company data.")
               else None
           | None => None
           end
  end.

(** ** The decision routes behind their middleware *)

(** [router.post('/:id/approve', [auth, authorize('manager', 'admin'), ...])]. *)
Definition approve_route (env : Env) (tok : Token) (id : ObjectId)
    (comments : option string) (st : Store) : Response * Store :=
  match auth tok (users st) with
  | inl r => (r, st)
  | inr u =>
      match authorize [manager; admin] (Some u) with
      | Some r => (r, st)
      | None => approve env (mkApproveReq u id comments) st
      end
  end.

(** [router.post('/:id/reject', [auth, authorize('manager', 'admin'), ...])]. *)
Definition reject_route (env : Env) (tok : Token) (id : ObjectId)
    (reason : string) (comments : option string) (st : Store) : Response * Store :=
  match auth tok (users st) with
  | inl r => (r, st)
  | inr u =>
      match authorize [manager; admin] (Some u) with
      | Some r => (r, st)
      | None => reject env (mkRejectReq u id reason comments) st
      end
  end.

(** *** The approve request as it arrives *)

(** [req.params.id]: a string that casts to an [ObjectId], or one that does
    not, on which [findById] and [findOne] reject with a [CastError]. *)
Inductive IdParam :=
  | well_formed (id : ObjectId)
  | malformed.

(** [req.body.comments]: [undefined], a string, or any other JSON value. *)
Inductive BodyField :=
  | absent
  | text (s : string)
  | other_value.

(** The whole route of [approvals.js] 76-214 on such a request: [auth],
    [authorize], the validator [body('comments').optional().isString()]
    whose errors the handler answers with 400 before it reads the
    parameter, then [Approval.findById], whose rejection on a malformed id
    is caught and answered 500. *)
Definition approve_request (env : Env) (tok : Token) (id : IdParam)
    (comments : BodyField) (st : Store) : Response * Store :=
  match auth tok (users st) with
  | inl r => (r, st)
  | inr u =>
      match authorize [manager; admin] (Some u) with
      | Some r => (r, st)
      | None =>
          match comments, id with
          | other_value, _ => (Res 400 "Invalid value", st)
          | _, malformed => (server_error, st)
          | absent, well_formed i => approve env (mkApproveReq u i None) st
          | text s, well_formed i => approve env (mkApproveReq u i (Some s)) st
          end
      end
  end.

(** ** Soft deletion of a user ([routes/users.js], [router.delete('/:id')]) *)

Definition set_users (us : list User) (st : Store) : Store :=
  mkStore (approvals st) (expenses st) (companies st) us.

Definition deactivated (u : User) : User :=
  mkUser (u_id u) (u_company u) (u_role u) (u_manager u) false.

(** [User.findOne({ _id, company })], then [user.isActive = false] and
    [user.save()]: the document found is the one written. *)
Fixpoint deactivate (id company : ObjectId) (us : list User) : option (list User) :=
  match us with
  | [] => None
  | u :: us' =>
      if decide (u_id u = id ∧ u_company u = company) then Some (deactivated u :: us')
      else cons u <$> deactivate id company us'
  end.

Definition delete_user_route (tok : Token) (id : ObjectId) (st : Store)
    : Response * Store :=
  match auth tok (users st) with
  | inl r => (r, st)
  | inr u =>
      match authorize [admin] (Some u) with
      | Some r => (r, st)
      | None =>
          match deactivate id (u_company u) (users st) with
          | None => (Res 404 "User not found", st)
          | Some us => (Res 200 "User deleted successfully", set_users us st)
          end
      end
  end.

(** ** Reading expenses ([routes/expenses.js]) *)

Definition status_name (s : ExpenseStatus) : string :=
  match s with
  | pending => "pending"
  | approved => "approved"
  | rejected => "rejected"
  | partially_approved => "partially_approved"
  end.

(** [req.query] of [GET /api/expenses]; dates and ids are taken as parsed. *)
Record ListQuery := mkListQuery {
  q_status : option string;
  q_category : option string;
  q_employee : option ObjectId;
  q_startDate : option Date;
  q_endDate : option Date;
  q_company : option ObjectId
}.

(** [User.find({ manager: req.user._id, company: req.user.company })],
    mapped to [_id]. *)
Definition teamMemberIds (u : User) (us : list User) : list ObjectId :=
  u_id <$> filter (λ m, u_manager m = Some (u_id u) ∧ u_company m = u_company u) us.

(** The condition on [employee] that the handler ends up with: the query
    parameter, when given, replaces the one derived from the role. *)
Definition employee_condition (u : User) (us : list User) (q : ListQuery)
    (employee_id : ObjectId) : Prop :=
  match q_employee q with
  | Some emp => employee_id = emp
  | None =>
      match u_role u with
      | employee => employee_id = u_id u
      | manager => employee_id ∈ u_id u :: teamMemberIds u us
      | admin => True
      end
  end.

#[global] Instance employee_condition_dec u us q i :
  Decision (employee_condition u us q i).
Proof.
  unfold employee_condition. destruct (q_employee q); [apply _ |].
  destruct (u_role u); apply _.
Defined.

(** The Mongo query built at [expenses.js] 105-131. *)
Definition list_condition (u : User) (us : list User) (q : ListQuery)
    (e : Expense) : Prop :=
  e_company e = u_company u
  ∧ employee_condition u us q (e_employee e)
  ∧ (∀ s, or_null (q_status q) = Some s → status_name (e_status e) = s)
  ∧ (∀ c, or_null (q_category q) = Some c → e_category e = c)
  ∧ (∀ d, q_startDate q = Some d → d <= e_expenseDate e)
  ∧ (∀ d, q_endDate q = Some d → e_expenseDate e <= d).

#[global] Instance list_condition_dec u us q e : Decision (list_condition u us q e).
Proof.
  unfold list_condition.
  destruct (or_null (q_status q)) as [s |]; destruct (or_null (q_category q)) as [c |];
    destruct (q_startDate q) as [d1 |]; destruct (q_endDate q) as [d2 |].
  all: repeat apply and_dec; try apply _.
  all: try (left; intros ? ?; discriminate).
  all: match goal with
       | |- Decision (∀ x, Some ?y = Some x → @?P x) =>
           destruct (decide (P y)) as [Hy | Hn];
           [left; by intros ? [= <-] | right; intros H; apply Hn, H; reflexivity]
       end.
Defined.

(** [router.get('/')], [expenses.js] 103-143: the matching documents (the
    order by [createdAt] and the populated names are not modelled). *)
Definition get_expenses (u : User) (q : ListQuery) (st : Store) : gmap nat Expense :=
  filter (λ ke, list_condition u (users st) q ke.2) (expenses st).

(** The route with its middleware: [auth, checkCompanyAccess].  The route
    has no [companyId] parameter; [body_company] is [req.body.company]. *)
Definition get_expenses_route (tok : Token) (body_company : option ObjectId)
    (q : ListQuery) (st : Store) : Response + gmap nat Expense :=
  match auth tok (users st) with
  | inl r => inl r
  | inr u =>
      match checkCompanyAccess (Some u) None body_company (q_company q) with
      | Some r => inl r
      | None => inr (get_expenses u q st)
      end
  end.

(** The handler of [router.get('/:id')], [expenses.js] 280-303, as it
    runs behind [auth] and [checkCompanyAccess] on an id that casts.  The
    employee of the expense is populated; reading [expense.employee._id]
    fails when that user is gone, which only the employee branch does. *)
Definition get_expense (u : User) (id : ObjectId) (st : Store) : Response + Expense :=
  match expenses st !! id with
  | None => inl (Res 404 "Expense not found")
  | Some e =>
      if decide (e_company e ≠ u_company u) then inl (Res 404 "Expense not found")
      else if decide (u_role u = employee) then
        match User_findById (Some (e_employee e)) (users st) with
        | None => inl server_error
        | Some emp =>
            if decide (u_id emp ≠ u_id u) then inl (Res 403 "Access denied")
            else inr e
        end
      else inr e
  end.

(** [router.get('/:id', auth, checkCompanyAccess, ...)], [expenses.js]
    279-304: the middleware first (the route has no [companyId] parameter),
    then the handler, whose [findOne] rejects on a malformed id. *)
Definition get_expense_route (tok : Token) (body_company query_company : option ObjectId)
    (id : IdParam) (st : Store) : Response + Expense :=
  match auth tok (users st) with
  | inl r => inl r
  | inr u =>
      match checkCompanyAccess (Some u) None body_company query_company with
      | Some r => inl r
      | None =>
          match id with
          | well_formed i => get_expense u i st
          | malformed => inl server_error
          end
      end
  end.

(** ** Editing an expense ([routes/expenses.js], [router.put('/:id')]) *)

(** What the expense schema does on assignment and on [save()], taken as
    given: the [trim] setter of [description] and the validation that
    [save()] runs ([min], [required], [enum]).  The [uppercase] setter of
    [currency] is [toUpperCase]. *)
Record SchemaOps := mkSchemaOps {
  trim : string → string;
  validates : Expense → bool
}.

(** [req.body] of the update; an absent field is [undefined]. *)
Record UpdateReq := mkUpdateReq {
  up_user : User;
  up_id : ObjectId;
  up_amount : option float;
  up_currency : option string;
  up_category : option string;
  up_description : option string;
  up_expenseDate : option Date;
  up_tags : option (list string)
}.

(** [expenses.js] 381-386: every field that is not [undefined] is
    assigned. *)
Definition edited (ops : SchemaOps) (req : UpdateReq) (e : Expense) : Expense :=
  mkExpense (e_employee e) (e_company e)
    (default (e_amount e) (up_amount req))
    (default (e_currency e) (toUpperCase <$> up_currency req))
    (e_convertedAmount e) (e_companyCurrency e) (e_exchangeRate e)
    (default (e_category e) (up_category req))
    (default (e_description e) (trim ops <$> up_description req))
    (default (e_expenseDate e) (up_expenseDate req))
    (e_status e) (e_currentApprover e) (e_approvalLevel e)
    (e_totalApprovalLevels e)
    (default (e_tags e) (up_tags req))
    (e_isReimbursable e) (e_rejectionReason e) (e_approvedBy e) (e_rejectedBy e).

(** [expense.convertedAmount = conversion.amount;
    expense.exchangeRate = conversion.rate]. *)
Definition with_conversion (converted rate : float) (e : Expense) : Expense :=
  mkExpense (e_employee e) (e_company e) (e_amount e) (e_currency e)
    converted (e_companyCurrency e) rate
    (e_category e) (e_description e) (e_expenseDate e)
    (e_status e) (e_currentApprover e) (e_approvalLevel e)
    (e_totalApprovalLevels e) (e_tags e) (e_isReimbursable e)
    (e_rejectionReason e) (e_approvedBy e) (e_rejectedBy e).

(** The validators of the route on the fields that are given. *)
Definition update_invalid (req : UpdateReq) : Prop :=
  up_currency req = Some EmptyString
  ∨ match up_category req with
    | Some c => c ∉ categories
    | None => False
    end.

#[global] Instance update_invalid_dec req : Decision (update_invalid req).
Proof. unfold update_invalid. destruct (up_category req); apply _. Defined.

(** [expense.save()] and the answer. *)
Definition save_edit (ops : SchemaOps) (id : ObjectId) (e : Expense) (st : Store)
    : Response * Store :=
  if validates ops e then
    (Res 200 "Expense updated successfully",
     set_expenses (<[id := e]> (expenses st)) st)
  else (server_error, st).

(** [router.put('/:id')], [expenses.js] 354-417. *)
Definition update_expense (ops : SchemaOps) (env : Env) (req : UpdateReq) (st : Store)
    : Response * Store :=
  if decide (update_invalid req) then (Res 400 "Validation failed", st)
  else
  match expenses st !! up_id req with
  | None => (Res 404 "Expense not found", st)
  | Some e =>
    if decide (e_company e ≠ u_company (up_user req)) then
      (Res 404 "Expense not found", st)
    else if decide (u_role (up_user req) = employee
                    ∧ e_employee e ≠ u_id (up_user req)) then
      (Res 403 "Access denied", st)
    else if decide (e_status e ≠ pending) then
      (Res 400 "Cannot edit approved or rejected expense", st)
    else
      let e1 := edited ops req e in
      if decide (is_Some (up_amount req) ∨ is_Some (up_currency req)) then
        match companies st !! u_company (up_user req) with
        | None => (server_error, st)
        | Some company =>
            match convertCurrency (e_amount e1) (e_currency e1) (c_currency company)
                    (fx_rate env) with
            | None => (server_error, st)
            | Some (converted, rate) =>
                save_edit ops (up_id req) (with_conversion converted rate e1) st
            end
        end
      else save_edit ops (up_id req) e1 st
  end.

(** ** Reachable stores, edits included *)

Inductive reachable_with_edits (ops : SchemaOps) : Store → Prop :=
  | reach_e_init st : initial st → reachable_with_edits ops st
  | reach_e_step st env act :
      reachable_with_edits ops st → fresh_ids env st →
      reachable_with_edits ops (run env act st).2
  | reach_e_edit st env req :
      reachable_with_edits ops st →
      reachable_with_edits ops (update_expense ops env req st).2.

(** The amounts of an expense agree with its rate: either nothing was
    converted, or the converted amount is the product with a non-zero
    rate. *)
Definition money_wf (e : Expense) : Prop :=
  (e_convertedAmount e = e_amount e ∧ e_exchangeRate e = 1%float)
  ∨ (e_convertedAmount e = (e_amount e * e_exchangeRate e)%float
     ∧ falsy (e_exchangeRate e) = false).

(** [e'] is [e] up to the fields an edit may assign. *)
Definition same_workflow (e e' : Expense) : Prop :=
  e_employee e' = e_employee e ∧ e_company e' = e_company e
  ∧ e_status e' = e_status e ∧ e_currentApprover e' = e_currentApprover e
  ∧ e_approvalLevel e' = e_approvalLevel e
  ∧ e_totalApprovalLevels e' = e_totalApprovalLevels e
  ∧ e_rejectionReason e' = e_rejectionReason e
  ∧ e_approvedBy e' = e_approvedBy e ∧ e_rejectedBy e' = e_rejectedBy e.

(** [q] without its [company] parameter. *)
Definition without_company (q : ListQuery) : ListQuery :=
  mkListQuery (q_status q) (q_category q) (q_employee q)
    (q_startDate q) (q_endDate q) None.

(** What a successful edit of [e] into [e'] has established. *)
Definition edit_of (ops : SchemaOps) (env : Env) (req : UpdateReq) (st : Store)
    (e e' : Expense) : Prop :=
  expenses st !! up_id req = Some e
  ∧ e_status e = pending
  ∧ e_company e = u_company (up_user req)
  ∧ (u_role (up_user req) = employee → e_employee e = u_id (up_user req))
  ∧ same_workflow e e'
  ∧ validates ops e' = true
  ∧ e_amount e' = default (e_amount e) (up_amount req)
  ∧ e_currency e' = default (e_currency e) (toUpperCase <$> up_currency req)
  ∧ (if decide (is_Some (up_amount req) ∨ is_Some (up_currency req)) then
       ∃ company,
         companies st !! u_company (up_user req) = Some company
         ∧ convertCurrency (e_amount e') (e_currency e') (c_currency company)
             (fx_rate env)
           = Some (e_convertedAmount e', e_exchangeRate e')
     else e_convertedAmount e' = e_convertedAmount e
          ∧ e_exchangeRate e' = e_exchangeRate e).

(** ** An edit in the small office *)

Module Revision.

(** A schema that leaves descriptions alone and accepts amounts from 0. *)
Definition ops : SchemaOps :=
  mkSchemaOps (λ s, s) (λ e, PrimFloat.leb 0 (e_amount e)).

Definition env4 : Env :=
  mkEnv 1705600000000 1705600000001 1705600000002 204 304 (Some 0.5%float).

(** Employee 5 changes the amount and the currency of expense 201. *)
Definition correction : UpdateReq :=
  mkUpdateReq (Scenario.person 5) 201 (Some 84%float) (Some "usd"%string)
    None None None None.

Definition revised : Store :=
  (update_expense ops env4 correction Scenario.submitted).2.

End Revision.
(** * Properties *)

Lemma approve_accepted env req st a e c :
  approve_accepts req st a e c →
  approve env req st =
    if shouldApprove (settings c) (u_id (ap_user req))
         (count_approved (tasks_after env req a st))
         (length (tasks_after env req a st))
    then (approve_ok, approved_store env req a e st)
    else if decide (totalLevels (approvalRules (settings c)) <= a_level a)
    then (approve_ok, approved_store env req a e st)
    else match find_nextApprover (settings c) (e_company e) (a_level a + 1) (users st) with
         | Some next => (approve_ok, advanced_store env req a e next st)
         | None => (approve_ok, approved_store env req a e st)
         end.
Proof.
  intros (Ha & Hu & Hs & He & Hc). unfold approve.
  rewrite Ha. rewrite decide_False by (by intros ?).
  rewrite decide_False by (by intros ?).
  rewrite He. cbn [push_approvedBy e_company]. rewrite Hc.
  reflexivity.
Qed.

Lemma approved_store_finalized env req a e st :
  is_finalized (a_expense a) (approved_store env req a e st).
Proof.
  exists (finalize_approved (logged env req a e)).
  split; [apply lookup_insert_eq | done].
Qed.

Lemma specific_rule_true s uid :
  approvalRules s = specific ∨ approvalRules s = hybrid →
  uid ∈ specificApprovers s →
  specific_rule s uid = true.
Proof.
  intros Hr Hin. unfold specific_rule.
  by rewrite !bool_decide_eq_true_2.
Qed.

(** C2: under [specific] or [hybrid] rules, an approve decision by a user
    listed in [specificApprovers] finalizes the expense as approved with no
    current approver, whatever the approved fraction and the level. *)
Theorem specific_approver_finalizes env req st a e c :
  approve_accepts req st a e c →
  approvalRules (settings c) = specific ∨ approvalRules (settings c) = hybrid →
  u_id (ap_user req) ∈ specificApprovers (settings c) →
  approve env req st = (approve_ok, approved_store env req a e st)
  ∧ is_finalized (a_expense a) (approve env req st).2.
Proof.
  intros Hacc Hr Hin.
  assert (approve env req st = (approve_ok, approved_store env req a e st)) as ->.
  { rewrite (approve_accepted _ _ _ _ _ _ Hacc).
    unfold shouldApprove. by rewrite specific_rule_true. }
  split; [done | apply approved_store_finalized].
Qed.

(** C3: at or above the cap level (3 under [percentage], 2 otherwise) an
    approve decision finalizes the expense as approved with no current
    approver and opens no further task; this holds whether or not a rule is
    satisfied, hence when neither is. *)
Theorem cap_level_finalizes env req st a e c :
  approve_accepts req st a e c →
  (if decide (approvalRules (settings c) = percentage) then 3 else 2) <= a_level a →
  approve env req st = (approve_ok, approved_store env req a e st)
  ∧ is_finalized (a_expense a) (approve env req st).2
  ∧ approvals (approve env req st).2 = approvals (recorded env req a st).
Proof.
  intros Hacc Hcap.
  assert (approve env req st = (approve_ok, approved_store env req a e st)) as ->.
  { rewrite (approve_accepted _ _ _ _ _ _ Hacc).
    destruct (shouldApprove _ _ _ _); [done |].
    by rewrite decide_True. }
  split; [done |]. split; [apply approved_store_finalized | done].
Qed.

(** ** Outcomes of the handlers *)

Lemma approve_outcomes env req st :
  approve_outcome env req st (approve env req st).2.
Proof.
  unfold approve.
  destruct (approvals st !! ap_id req) as [a|] eqn:Ha; [| constructor].
  case_decide; [constructor |].
  case_decide as Hs; [constructor |].
  destruct (expenses st !! a_expense a) as [e|] eqn:He; cbn [snd].
  2: { eapply ao_failed; eauto. }
  cbn [push_approvedBy e_company].
  destruct (companies st !! e_company e) as [c|] eqn:Hc; cbn [snd].
  2: { eapply ao_failed; eauto. }
  repeat (case_match; cbn [snd]).
  all: first
    [ change (approve_outcome env req st (approved_store env req a e st));
      by apply ao_final
    | match goal with
      | |- context [advance_to ?n _ _] =>
          change (approve_outcome env req st (advanced_store env req a e n st))
      end; by apply ao_advance ].
Qed.

Lemma reject_accepted env req st a e :
  reject_accepts req st a e →
  reject env req st = (reject_ok, rejected_store env req a e st).
Proof.
  intros (Hr & Ha & Hu & Hs & He). unfold reject.
  rewrite decide_False by done. rewrite Ha.
  rewrite decide_False by (by intros ?).
  rewrite decide_False by (by intros ?).
  by rewrite He.
Qed.

Lemma reject_outcomes env req st :
  reject_outcome env req st (reject env req st).2.
Proof.
  unfold reject.
  case_decide; [constructor |].
  destruct (approvals st !! rj_id req) as [a|] eqn:Ha; [| constructor].
  case_decide; [constructor |].
  case_decide as Hs; [constructor |].
  destruct (expenses st !! a_expense a) as [e|] eqn:He; cbn [snd].
  - change (reject_outcome env req st (rejected_store env req a e st)).
    by apply ro_final.
  - change (reject_outcome env req st (recorded_rejection env req a st)).
    by apply ro_failed.
Qed.

Lemma submit_outcomes env req st :
  submit_outcome env req st (submit env req st).2.
Proof.
  unfold submit.
  case_decide; [constructor |].
  destruct (companies st !! u_company (sb_user req)) as [c|] eqn:Hc; [| constructor].
  destruct (convertCurrency _ _ _ _) as [[converted rate]|]; [| constructor].
  cbv zeta. destruct (expense_valid _); [| constructor].
  destruct (User_findById _ _) as [mgr|]; cbn [snd].
  - unfold set_expenses, set_approvals; cbn [approvals expenses companies users].
    rewrite insert_insert_eq.
    change (submit_outcome env req st
              (assigned_store env (submitted_expense req c converted rate) (u_id mgr) st)).
    apply so_assigned. unfold submitted_expense; cbn [e_company]. by rewrite Hc.
  - change (submit_outcome env req st
              (stalled_store env (submitted_expense req c converted rate) st)).
    apply so_stalled; [| done..].
    unfold submitted_expense; cbn [e_company]. by rewrite Hc.
Qed.

(** ** Rejection *)

(** C5: a reject decision with a reason, by the designated approver of a
    pending task, marks the task rejected with that reason, makes the
    expense rejected with no current approver whatever its level, rule mode
    and history, and appends exactly one entry (acting user, task level,
    timestamp, reason) to [rejectedBy]. *)
Theorem reject_terminates_expense env req st a e :
  reject_accepts req st a e →
  reject env req st = (reject_ok, rejected_store env req a e st)
  ∧ ∃ a' e',
      approvals (reject env req st).2 !! rj_id req = Some a'
      ∧ a_status a' = t_rejected
      ∧ a_rejectionReason a' = Some (rj_reason req)
      ∧ expenses (reject env req st).2 !! a_expense a = Some e'
      ∧ e_status e' = rejected
      ∧ e_currentApprover e' = None
      ∧ e_rejectedBy e' =
          e_rejectedBy e
          ++ [mkRejectedEvent (u_id (rj_user req)) (a_level a) (date2 env) (rj_reason req)].
Proof.
  intros Hacc. rewrite (reject_accepted _ _ _ _ _ Hacc).
  split; [done |]. cbn [snd].
  eexists _, _. split; [apply lookup_insert_eq |].
  do 2 (split; [done |]).
  split; [apply lookup_insert_eq | done].
Qed.

(** ** Refused requests *)

(** C8 (as the code has it): a decision by somebody other than the task's
    designated approver is refused with status 403 whatever the task's
    status; a decision by the designated approver on a task that is no
    longer pending is refused with status 400, which differs from 403; the
    store is unchanged in both cases.  A reject request is checked this way
    once its reason is not empty. *)
Theorem decision_errors env st a :
  (∀ req, approvals st !! ap_id req = Some a →
     (a_approver a ≠ u_id (ap_user req) →
        approve env req st
        = (Res 403 "You are not authorized to approve this expense", st))
     ∧ (a_approver a = u_id (ap_user req) → a_status a ≠ t_pending →
        approve env req st
        = (Res 400 "This approval has already been processed", st)))
  ∧ (∀ req, rj_reason req ≠ EmptyString → approvals st !! rj_id req = Some a →
     (a_approver a ≠ u_id (rj_user req) →
        reject env req st
        = (Res 403 "You are not authorized to reject this expense", st))
     ∧ (a_approver a = u_id (rj_user req) → a_status a ≠ t_pending →
        reject env req st
        = (Res 400 "This approval has already been processed", st))).
Proof.
  split.
  - intros req Ha. unfold approve. rewrite Ha. split.
    + intros Hu. by rewrite decide_True.
    + intros Hu Hs. rewrite decide_False by (by intros ?).
      by rewrite decide_True.
  - intros req Hr Ha. unfold reject.
    rewrite decide_False by done. rewrite Ha. split.
    + intros Hu. by rewrite decide_True.
    + intros Hu Hs. rewrite decide_False by (by intros ?).
      by rewrite decide_True.
Qed.

(** ** Frame *)

Lemma approve_frame_refl e : approve_frame e e.
Proof. by destruct e. Qed.

Lemma reject_frame_refl e : reject_frame e e.
Proof. by destruct e. Qed.

Lemma same_money_refl e : same_money e e.
Proof. done. Qed.

Lemma task_frame_refl a : task_frame a a.
Proof. done. Qed.

Lemma lookup_recorded_ne env req a st j :
  j ≠ ap_id req → approvals (recorded env req a st) !! j = approvals st !! j.
Proof. intros. by apply lookup_insert_ne. Qed.

Lemma lookup_advanced_ne env req a e next st j :
  j ≠ ap_id req → j ≠ new_approval_id env →
  approvals (advanced_store env req a e next st) !! j = approvals st !! j.
Proof.
  intros. cbn [advanced_store set_expenses set_approvals approvals recorded].
  by rewrite !lookup_insert_ne.
Qed.

(** Projections of the stores the handlers build. *)
Ltac store_simpl :=
  cbn [recorded approved_store advanced_store recorded_rejection rejected_store
       stalled_store assigned_store set_expenses set_approvals
       approvals expenses companies users].

Lemma approve_effect_tasks env req st st' :
  approve_outcome env req st st' →
  approvals st !! new_approval_id env = None →
  (∀ j b, j ≠ ap_id req → approvals st !! j = Some b → approvals st' !! j = Some b)
  ∧ (∀ j, j ≠ new_approval_id env →
          approvals st !! j = None → approvals st' !! j = None)
  ∧ (∀ a, approvals st !! ap_id req = Some a →
          ∃ a', approvals st' !! ap_id req = Some a' ∧ task_frame a a').
Proof.
  intros Hout Hfresh.
  destruct Hout as [| a Ha Hs Hfail | a e Ha Hs He | a e next Ha Hs He].
  - split; [done |]. split; [done |]. intros a Ha. by exists a.
  - split; [| split].
    + intros j b Hj Hb. by rewrite lookup_recorded_ne.
    + intros j _ Hj. destruct (decide (j = ap_id req)) as [-> | Hne]; [congruence |].
      by rewrite lookup_recorded_ne.
    + intros a0 Ha0. assert (a0 = a) as -> by congruence.
      eexists. split; [apply lookup_insert_eq | done].
  - split; [| split].
    + intros j b Hj Hb. store_simpl. by rewrite lookup_insert_ne.
    + intros j _ Hj. destruct (decide (j = ap_id req)) as [-> | Hne]; [congruence |].
      store_simpl. by rewrite lookup_insert_ne.
    + intros a0 Ha0. assert (a0 = a) as -> by congruence.
      eexists. split; [apply lookup_insert_eq | done].
  - assert (ap_id req ≠ new_approval_id env) as Hid by congruence.
    split; [| split].
    + intros j b Hj Hb.
      destruct (decide (j = new_approval_id env)) as [-> | Hne]; [congruence |].
      by rewrite lookup_advanced_ne.
    + intros j Hj Hnone.
      destruct (decide (j = ap_id req)) as [-> | Hne]; [congruence |].
      by rewrite lookup_advanced_ne.
    + intros a0 Ha0. assert (a0 = a) as -> by congruence.
      exists (decide_approval t_approved None (or_null (ap_comments req)) (date1 env) a).
      split; [| done]. store_simpl.
      rewrite lookup_insert_ne by done. apply lookup_insert_eq.
Qed.

Lemma approve_effect_expenses env req st st' :
  approve_outcome env req st st' →
  (∀ k e, expenses st !! k = Some e →
          ∃ e', expenses st' !! k = Some e' ∧ approve_frame e e'
                ∧ same_money e e' ∧ e_rejectedBy e' = e_rejectedBy e)
  ∧ (∀ k, expenses st !! k = None → expenses st' !! k = None)
  ∧ (∀ k a, approvals st !! ap_id req = Some a → k ≠ a_expense a →
            expenses st' !! k = expenses st !! k)
  ∧ companies st' = companies st ∧ users st' = users st.
Proof.
  intros Hout.
  assert (∀ e, ∃ e', Some e = Some e' ∧ approve_frame e e'
                     ∧ same_money e e' ∧ e_rejectedBy e' = e_rejectedBy e) as Hsame.
  { intros e. exists e. auto using approve_frame_refl, same_money_refl. }
  destruct Hout as [| a Ha Hs Hfail | a e Ha Hs He | a e next Ha Hs He].
  - split; [| done]. intros k e Hk. store_simpl. rewrite Hk. apply Hsame.
  - split; [| done]. intros k e Hk. store_simpl. rewrite Hk. apply Hsame.
  - split; [| split; [| split; [| done]]].
    + intros k e0 Hk. store_simpl.
      destruct (decide (k = a_expense a)) as [-> | Hne].
      * assert (e0 = e) as -> by congruence.
        rewrite lookup_insert_eq. eexists. split; [done |]. by destruct e.
      * rewrite lookup_insert_ne by done. rewrite Hk. apply Hsame.
    + intros k Hk. store_simpl.
      destruct (decide (k = a_expense a)) as [-> | Hne]; [congruence |].
      by rewrite lookup_insert_ne.
    + intros k a0 Ha0 Hk. assert (a0 = a) as -> by congruence.
      store_simpl. by rewrite lookup_insert_ne.
  - split; [| split; [| split; [| done]]].
    + intros k e0 Hk. store_simpl.
      destruct (decide (k = a_expense a)) as [-> | Hne].
      * assert (e0 = e) as -> by congruence.
        rewrite lookup_insert_eq. eexists. split; [done |]. by destruct e.
      * rewrite lookup_insert_ne by done. rewrite Hk. apply Hsame.
    + intros k Hk. store_simpl.
      destruct (decide (k = a_expense a)) as [-> | Hne]; [congruence |].
      by rewrite lookup_insert_ne.
    + intros k a0 Ha0 Hk. assert (a0 = a) as -> by congruence.
      store_simpl. by rewrite lookup_insert_ne.
Qed.

Lemma reject_effect env req st st' :
  reject_outcome env req st st' →
  (∀ j, j ≠ rj_id req → approvals st' !! j = approvals st !! j)
  ∧ (∀ a, approvals st !! rj_id req = Some a →
          ∃ a', approvals st' !! rj_id req = Some a' ∧ task_frame a a')
  ∧ (∀ k e, expenses st !! k = Some e →
          ∃ e', expenses st' !! k = Some e' ∧ reject_frame e e'
                ∧ same_money e e' ∧ e_approvedBy e' = e_approvedBy e)
  ∧ (∀ k, expenses st !! k = None → expenses st' !! k = None)
  ∧ (∀ k a, approvals st !! rj_id req = Some a → k ≠ a_expense a →
            expenses st' !! k = expenses st !! k)
  ∧ companies st' = companies st ∧ users st' = users st.
Proof.
  intros Hout.
  assert (∀ e, ∃ e', Some e = Some e' ∧ reject_frame e e'
                     ∧ same_money e e' ∧ e_approvedBy e' = e_approvedBy e) as Hsame.
  { intros e. exists e. auto using reject_frame_refl, same_money_refl. }
  destruct Hout as [| a Ha Hs Hfail | a e Ha Hs He].
  - split; [done |]. split; [by intros a Ha; exists a |].
    split; [| done]. intros k e Hk. store_simpl. rewrite Hk. apply Hsame.
  - split; [intros j Hj; by apply lookup_insert_ne |].
    split.
    { intros a0 Ha0. assert (a0 = a) as -> by congruence.
      eexists. split; [apply lookup_insert_eq | done]. }
    split; [| done]. intros k e Hk. store_simpl. rewrite Hk. apply Hsame.
  - split; [intros j Hj; store_simpl; by apply lookup_insert_ne |].
    split.
    { intros a0 Ha0. assert (a0 = a) as -> by congruence.
      eexists. split; [apply lookup_insert_eq | done]. }
    split; [| split; [| split; [| done]]].
    + intros k e0 Hk. store_simpl.
      destruct (decide (k = a_expense a)) as [-> | Hne].
      * assert (e0 = e) as -> by congruence.
        rewrite lookup_insert_eq. eexists. split; [done |]. by destruct e.
      * rewrite lookup_insert_ne by done. rewrite Hk. apply Hsame.
    + intros k Hk. store_simpl.
      destruct (decide (k = a_expense a)) as [-> | Hne]; [congruence |].
      by rewrite lookup_insert_ne.
    + intros k a0 Ha0 Hk. assert (a0 = a) as -> by congruence.
      store_simpl. by rewrite lookup_insert_ne.
Qed.

(** C10: an approve decision changes at most the decided task (in the fields
    a decision assigns), the workflow fields and [approvedBy] of that task's
    expense, and adds at most one task, under the generated id; monetary
    fields, [rejectedBy], every other existing task, every other expense,
    companies and users are left as they were.  A reject decision likewise
    leaves [approvedBy], the monetary fields and all other tasks as they
    were. *)
Theorem decisions_frame env st :
  approvals st !! new_approval_id env = None →
  (∀ req,
     (∀ j b, j ≠ ap_id req → approvals st !! j = Some b →
             approvals (approve env req st).2 !! j = Some b)
     ∧ (∀ j, j ≠ new_approval_id env → approvals st !! j = None →
             approvals (approve env req st).2 !! j = None)
     ∧ (∀ a, approvals st !! ap_id req = Some a →
             ∃ a', approvals (approve env req st).2 !! ap_id req = Some a'
                   ∧ task_frame a a')
     ∧ (∀ k e, expenses st !! k = Some e →
             ∃ e', expenses (approve env req st).2 !! k = Some e'
                   ∧ approve_frame e e' ∧ same_money e e'
                   ∧ e_rejectedBy e' = e_rejectedBy e)
     ∧ (∀ k, expenses st !! k = None → expenses (approve env req st).2 !! k = None)
     ∧ (∀ k a, approvals st !! ap_id req = Some a → k ≠ a_expense a →
             expenses (approve env req st).2 !! k = expenses st !! k)
     ∧ companies (approve env req st).2 = companies st
     ∧ users (approve env req st).2 = users st)
  ∧ (∀ req,
     (∀ j, j ≠ rj_id req →
           approvals (reject env req st).2 !! j = approvals st !! j)
     ∧ (∀ a, approvals st !! rj_id req = Some a →
             ∃ a', approvals (reject env req st).2 !! rj_id req = Some a'
                   ∧ task_frame a a')
     ∧ (∀ k e, expenses st !! k = Some e →
             ∃ e', expenses (reject env req st).2 !! k = Some e'
                   ∧ reject_frame e e' ∧ same_money e e'
                   ∧ e_approvedBy e' = e_approvedBy e)
     ∧ (∀ k, expenses st !! k = None → expenses (reject env req st).2 !! k = None)
     ∧ (∀ k a, approvals st !! rj_id req = Some a → k ≠ a_expense a →
             expenses (reject env req st).2 !! k = expenses st !! k)
     ∧ companies (reject env req st).2 = companies st
     ∧ users (reject env req st).2 = users st).
Proof.
  intros Hfresh. split; intros req.
  - pose proof (approve_outcomes env req st) as Hout.
    destruct (approve_effect_tasks _ _ _ _ Hout Hfresh) as (? & ? & ?).
    destruct (approve_effect_expenses _ _ _ _ Hout) as (? & ? & ? & ? & ?).
    repeat split; assumption.
  - pose proof (reject_outcomes env req st) as Hout.
    destruct (reject_effect _ _ _ _ Hout) as (? & ? & ? & ? & ? & ? & ?).
    repeat split; assumption.
Qed.

(** ** The percentage rule *)

Lemma advanced_store_advanced env req a e next st :
  is_advanced (a_expense a) (e_status e) next (a_level a + 1)
    (advanced_store env req a e next st).
Proof.
  exists (advance_to next (a_level a + 1) (logged env req a e)).
  split; [apply lookup_insert_eq | done].
Qed.

Lemma threshold_truthy s :
  falsy (percentageThreshold s) = false → threshold s = percentageThreshold s.
Proof. intros H. unfold threshold. by rewrite H. Qed.


(** The worded rule fails at the cap: 1 of 3 approved is below 60, yet the
    decision at level 3 approves the expense.  The task set is of the kind
    the specification's own instances use (several tasks of one expense of
    which one is decided now); the handlers themselves only ever decide a
    task whose fellow tasks are all approved. *)
Lemma percentage_as_worded_fails : ¬ percentage_as_worded.
Proof.
  intros H.
  destruct (H Demo.env (Demo.by_user 1 3) Demo.at_cap
              (Demo.task 1 3 t_pending) (Demo.claim (Some 1%nat) 3)
              (mkCompany "USD" (mkSettings percentage 60%float [])))
    as [Hfin _].
  - repeat split; vm_compute; reflexivity.
  - by left.
  - reflexivity.
  - assert (is_finalized 100 (approve Demo.env (Demo.by_user 1 3) Demo.at_cap).2) as F.
    { eexists. split; [vm_compute; reflexivity |]. split; reflexivity. }
    specialize (Hfin F). vm_compute in Hfin. discriminate.
Qed.

Lemma advanced_store_open env req a e next st :
  ¬ is_finalized (a_expense a) (advanced_store env req a e next st).
Proof.
  intros (e' & He' & _ & Hcur).
  unfold advanced_store, set_expenses in He'; cbn [expenses] in He'.
  rewrite lookup_insert_eq in He'. injection He' as <-. discriminate.
Qed.

(** C1 (as the code has it): under [percentage] or [hybrid] rules with a
    non-zero threshold, for a decision by somebody who does not satisfy the
    specific-approver rule, [shouldApprove] holds exactly when the approved
    fraction times 100, in double arithmetic, is at least
    [percentageThreshold], equality included.  When it holds the expense is
    finalized as approved with no current approver.  When it does not, the
    level cap decides: at or above the cap, or when no next approver is
    found, the expense is approved all the same, by fallback; below the cap
    with a next approver it advances to the next level and is not
    finalized. *)
Theorem percentage_rule_decides env req st a e c :
  approve_accepts req st a e c →
  approvalRules (settings c) = percentage ∨ approvalRules (settings c) = hybrid →
  specific_rule (settings c) (u_id (ap_user req)) = false →
  falsy (percentageThreshold (settings c)) = false →
  let met :=
    (percentageThreshold (settings c)
     <=? approvalPercentage (count_approved (tasks_after env req a st))
                            (length (tasks_after env req a st)))%float in
  shouldApprove (settings c) (u_id (ap_user req))
    (count_approved (tasks_after env req a st))
    (length (tasks_after env req a st)) = met
  ∧ (met = true →
     approve env req st = (approve_ok, approved_store env req a e st)
     ∧ is_finalized (a_expense a) (approve env req st).2)
  ∧ (met = false →
     a_level a < totalLevels (approvalRules (settings c)) →
     ∀ next,
       find_nextApprover (settings c) (e_company e) (a_level a + 1) (users st)
       = Some next →
       approve env req st = (approve_ok, advanced_store env req a e next st)
       ∧ is_advanced (a_expense a) (e_status e) next (a_level a + 1)
           (approve env req st).2
       ∧ ¬ is_finalized (a_expense a) (approve env req st).2)
  ∧ (met = false →
     totalLevels (approvalRules (settings c)) <= a_level a
     ∨ find_nextApprover (settings c) (e_company e) (a_level a + 1) (users st) = None →
     approve env req st = (approve_ok, approved_store env req a e st)
     ∧ is_finalized (a_expense a) (approve env req st).2).
Proof.
  intros Hacc Hr Hsp Hthr met.
  assert (shouldApprove (settings c) (u_id (ap_user req))
            (count_approved (tasks_after env req a st))
            (length (tasks_after env req a st)) = met) as Hmet.
  { unfold shouldApprove, percentage_rule. rewrite Hsp.
    rewrite bool_decide_eq_true_2 by done.
    by rewrite threshold_truthy. }
  split; [done |]. rewrite (approve_accepted _ _ _ _ _ _ Hacc), Hmet.
  split; [| split].
  - intros ->. split; [done | apply approved_store_finalized].
  - intros -> Hlvl next Hnext.
    rewrite decide_False by lia. rewrite Hnext.
    split; [done |]. split; [apply advanced_store_advanced |].
    apply advanced_store_open.
  - intros -> Hfall.
    assert ((if decide (totalLevels (approvalRules (settings c)) <= a_level a)
             then (approve_ok, approved_store env req a e st)
             else match find_nextApprover (settings c) (e_company e)
                          (a_level a + 1) (users st) with
                  | Some next => (approve_ok, advanced_store env req a e next st)
                  | None => (approve_ok, approved_store env req a e st)
                  end)
            = (approve_ok, approved_store env req a e st)) as ->.
    { case_decide as Hcap; [done |].
      destruct Hfall as [Hle | Hnone]; [lia | by rewrite Hnone]. }
    split; [done | apply approved_store_finalized].
Qed.

(** The theorem at the instances the specification names and at the cap:
    threshold 60, 2 of 3 approved finalizes; 1 of 3 approved at level 1
    advances to level 2; 1 of 3 approved at level 3 is approved by
    fallback. *)
Lemma percentage_rule_decides_witness :
  is_finalized 100 (approve Demo.env (Demo.by_user 2 1) Demo.two_of_three).2
  ∧ is_advanced 100 pending 2 2
      (approve Demo.env (Demo.by_user 2 1) (Demo.one_of_three 60)).2
  ∧ is_finalized 100 (approve Demo.env (Demo.by_user 1 3) Demo.at_cap).2.
Proof.
  pose (c := mkCompany "USD" (mkSettings percentage 60%float [])).
  split; [| split].
  - refine (proj2 (proj1 (proj2
      (percentage_rule_decides Demo.env (Demo.by_user 2 1) Demo.two_of_three
         (Demo.task 2 1 t_pending) (Demo.claim (Some 2%nat) 1) c _ _ _ _)) _)).
    + repeat split; vm_compute; reflexivity.
    + left; reflexivity.
    + reflexivity.
    + vm_compute; reflexivity.
    + vm_compute; reflexivity.
  - refine (proj1 (proj2 (proj1 (proj2 (proj2
      (percentage_rule_decides Demo.env (Demo.by_user 2 1) (Demo.one_of_three 60)
         (Demo.task 2 1 t_pending) (Demo.claim (Some 2%nat) 1) c _ _ _ _)))
      _ _ 2%nat _))).
    + repeat split; vm_compute; reflexivity.
    + left; reflexivity.
    + reflexivity.
    + vm_compute; reflexivity.
    + vm_compute; reflexivity.
    + vm_compute; reflexivity.
    + vm_compute; reflexivity.
  - refine (proj2 (proj2 (proj2 (proj2
      (percentage_rule_decides Demo.env (Demo.by_user 1 3) Demo.at_cap
         (Demo.task 1 3 t_pending) (Demo.claim (Some 1%nat) 3) c _ _ _ _)))
      _ _)).
    + repeat split; vm_compute; reflexivity.
    + left; reflexivity.
    + reflexivity.
    + vm_compute; reflexivity.
    + vm_compute; reflexivity.
    + left. vm_compute. discriminate.
Defined.

(** The two instances the specification names: threshold 60, 2 of 3 approved
    finalizes; 1 of 3 approved at level 1 advances to level 2. *)
Example two_of_three_finalizes :
  ∃ e, expenses (approve Demo.env (Demo.by_user 2 1) Demo.two_of_three).2 !! 100%nat
       = Some e
       ∧ e_status e = approved ∧ e_currentApprover e = None.
Proof. eexists. split; [vm_compute; reflexivity |]. split; reflexivity. Qed.

Example one_of_three_advances :
  ∃ e, expenses (approve Demo.env (Demo.by_user 2 1) (Demo.one_of_three 60)).2 !! 100%nat
       = Some e
       ∧ e_status e = pending ∧ e_currentApprover e = Some 2%nat
       ∧ e_approvalLevel e = 2.
Proof. eexists. split; [vm_compute; reflexivity |]. repeat split; reflexivity. Qed.

(** Equality counts: 1 of 2 approved meets a threshold of 50.  The
    comparison is the one of doubles: 29 of 100 approved gives
    28.999999999999996, which is below a threshold of 29. *)
Example tie_is_satisfied :
  percentage_rule (mkSettings percentage 50%float []) 1 2 = true.
Proof. vm_compute; reflexivity. Qed.

Example rounded_quotient_below_threshold :
  percentage_rule (mkSettings percentage 29%float []) 29 100 = false.
Proof. vm_compute; reflexivity. Qed.

(** The handler reads the threshold as [percentageThreshold || 60], so a
    configured 0 is compared as 60.  On a task set with less than 60 percent
    approved, which no handler writes, the difference would show: at 1 of 3
    approved and level 1 the expense advances. *)
Example zero_threshold_compared_as_sixty :
  threshold (mkSettings percentage 0%float []) = 60%float
  ∧ ∃ e, expenses (approve Demo.env (Demo.by_user 2 1) (Demo.one_of_three 0)).2 !! 100%nat
         = Some e
         ∧ e_status e = pending ∧ e_currentApprover e = Some 2%nat
         ∧ e_approvalLevel e = 2.
Proof.
  split; [reflexivity |].
  eexists. split; [vm_compute; reflexivity |]. repeat split; reflexivity.
Qed.

(** ** Advancing to the next level *)

Lemma find_nextApprover_eq s company n us :
  find_nextApprover s company n us =
    if decide (approvalRules s = specific ∧ specificApprovers s ≠ [])
    then js_index (specificApprovers s) (n - 1)
    else u_id <$> head (filter (λ u, u_company u = company
                                     ∧ u_role u = (if decide (n = 2) then manager else admin))
                               us).
Proof.
  unfold find_nextApprover, User_findOne.
  destruct (decide (approvalRules s = specific ∧ (0 < length (specificApprovers s))%nat))
    as [[Hr Hl] | Hn];
    destruct (decide (approvalRules s = specific ∧ specificApprovers s ≠ []))
    as [[Hr' Hl'] | Hn']; try done.
  - exfalso. apply Hn'. split; [done |]. intros E. rewrite E in Hl. cbn in Hl. lia.
  - exfalso. apply Hn. split; [done |].
    destruct (specificApprovers s); [done | cbn; lia].
Qed.

(** The resolution as worded does not hold: under [specific] rules with
    nobody designated the handler looks the manager up, and the lookup does
    not skip a deactivated user. *)
Lemma advance_as_worded_fails : ¬ advance_as_worded.
Proof.
  intros H.
  specialize (H Demo.env (Demo.by_user 1 1) Demo.nobody_designated
                (Demo.task 1 1 t_pending) (Demo.claim (Some 1%nat) 1)
                (mkCompany "USD" (mkSettings specific 60%float []))).
  assert (expenses (approve Demo.env (Demo.by_user 1 1) Demo.nobody_designated).2
            !! 100%nat
          = Some (advance_to 2 2
                    (logged Demo.env (Demo.by_user 1 1) (Demo.task 1 1 t_pending)
                       (Demo.claim (Some 1%nat) 1)))) as Hcode.
  { vm_compute; reflexivity. }
  rewrite H in Hcode.
  - vm_compute in Hcode. discriminate.
  - repeat split; vm_compute; reflexivity.
  - vm_compute; reflexivity.
  - vm_compute; reflexivity.
Qed.

(** C4 (as the code has it): when no rule is satisfied below the cap, the
    next approver for level [n = level + 1] is the entry of
    [specificApprovers] at index [n - 1] when the rules are [specific] and
    the list is not empty, and otherwise the first user of the expense's
    company, active or not, whose role is manager when [n = 2] and admin for
    any other level.  When there is one, a pending task at level [n] is
    created for that user and the expense gets them as current approver and
    [n] as approval level; when there is none the expense is finalized as
    approved.  The request succeeds either way. *)
Theorem advance_resolves_next env req st a e c :
  approve_accepts req st a e c →
  shouldApprove (settings c) (u_id (ap_user req))
    (count_approved (tasks_after env req a st))
    (length (tasks_after env req a st)) = false →
  a_level a < totalLevels (approvalRules (settings c)) →
  let n := a_level a + 1 in
  let resolved :=
    if decide (approvalRules (settings c) = specific ∧ specificApprovers (settings c) ≠ [])
    then js_index (specificApprovers (settings c)) (n - 1)
    else u_id <$> head (filter (λ u, u_company u = e_company e
                                     ∧ u_role u = (if decide (n = 2) then manager else admin))
                               (users st)) in
  match resolved with
  | Some next =>
      approve env req st = (approve_ok, advanced_store env req a e next st)
      ∧ (∃ t, approvals (approve env req st).2 !! new_approval_id env = Some t
              ∧ a_expense t = a_expense a ∧ a_approver t = next
              ∧ a_level t = n ∧ a_status t = t_pending)
      ∧ is_advanced (a_expense a) (e_status e) next n (approve env req st).2
  | None =>
      approve env req st = (approve_ok, approved_store env req a e st)
      ∧ is_finalized (a_expense a) (approve env req st).2
  end.
Proof.
  intros Hacc Hno Hlvl n resolved.
  rewrite (approve_accepted _ _ _ _ _ _ Hacc), Hno.
  rewrite decide_False by lia.
  rewrite find_nextApprover_eq. fold n. fold resolved.
  destruct resolved as [next |].
  - split; [done |]. split; [| apply advanced_store_advanced].
    eexists. split; [apply lookup_insert_eq | done].
  - split; [done | apply approved_store_finalized].
Qed.

Lemma advance_resolves_next_witness :
  is_advanced 100 pending 2 2
    (approve Demo.env (Demo.by_user 2 1) (Demo.one_of_three 60)).2.
Proof.
  refine (proj2 (proj2
    (advance_resolves_next Demo.env (Demo.by_user 2 1) (Demo.one_of_three 60)
       (Demo.task 2 1 t_pending) (Demo.claim (Some 2%nat) 1)
       (mkCompany "USD" (mkSettings percentage 60%float [])) _ _ _))).
  - repeat split; vm_compute; reflexivity.
  - vm_compute; reflexivity.
  - vm_compute; reflexivity.
Defined.

(** ** Witnesses of the approve and reject theorems *)

Lemma specific_approver_finalizes_witness :
  is_finalized 100 (approve Demo.env (Demo.by_user 1 1) Demo.designated).2.
Proof.
  refine (proj2
    (specific_approver_finalizes Demo.env (Demo.by_user 1 1) Demo.designated
       (Demo.task 1 1 t_pending) (Demo.claim (Some 1%nat) 1)
       (mkCompany "USD" (mkSettings specific 60%float [1%nat])) _ _ _)).
  - repeat split; vm_compute; reflexivity.
  - left; reflexivity.
  - apply list_elem_of_here.
Defined.

Lemma cap_level_finalizes_witness :
  is_finalized 100 (approve Demo.env (Demo.by_user 1 2) Demo.hybrid_level_two).2.
Proof.
  refine (proj1 (proj2
    (cap_level_finalizes Demo.env (Demo.by_user 1 2) Demo.hybrid_level_two
       (Demo.task 1 2 t_pending) (Demo.claim (Some 1%nat) 2)
       (mkCompany "USD" (mkSettings hybrid 70%float [])) _ _))).
  - repeat split; vm_compute; reflexivity.
  - vm_compute; discriminate.
Defined.

(** In that store neither rule is satisfied: the fallback is what approves. *)
Example hybrid_level_two_unsatisfied :
  shouldApprove (mkSettings hybrid 70%float []) 1
    (count_approved
       (tasks_after Demo.env (Demo.by_user 1 2) (Demo.task 1 2 t_pending)
          Demo.hybrid_level_two))
    (length
       (tasks_after Demo.env (Demo.by_user 1 2) (Demo.task 1 2 t_pending)
          Demo.hybrid_level_two)) = false.
Proof. vm_compute; reflexivity. Qed.

Lemma reject_terminates_expense_witness :
  reject Demo.env (Demo.refusal 1 1) Demo.designated
  = (reject_ok,
     rejected_store Demo.env (Demo.refusal 1 1) (Demo.task 1 1 t_pending)
       (Demo.claim (Some 1%nat) 1) Demo.designated).
Proof.
  refine (proj1
    (reject_terminates_expense Demo.env (Demo.refusal 1 1) Demo.designated
       (Demo.task 1 1 t_pending) (Demo.claim (Some 1%nat) 1) _)).
  split; [discriminate |]. repeat split; vm_compute; reflexivity.
Defined.

(** The worded error behaviour fails on the status code of the
    already-decided error.  Manager 2 has approved task 301 and the expense
    is settled; when the same manager sends the approval again, the answer
    is 400, not 409. *)
Lemma refusals_as_worded_fail : ¬ refusals_as_worded.
Proof.
  intros [H _].
  destruct (H Scenario.env3 (mkApproveReq (Scenario.person 2) 301 None)
              Scenario.settled (Scenario.task_of 301 Scenario.settled))
    as [_ Hconflict].
  - vm_compute; reflexivity.
  - destruct Hconflict as [Hcode _].
    + reflexivity.
    + vm_compute; discriminate.
    + vm_compute in Hcode. discriminate.
Qed.

(** The same request by somebody else is answered 403, and a reject request
    without a reason 400 by the validator, before the task is looked at. *)
Example refusals_on_settled_task :
  code (approve Scenario.env3 (mkApproveReq (Scenario.person 1) 301 None)
          Scenario.settled).1 = 403%nat
  ∧ reject Scenario.env3 (mkRejectReq (Scenario.person 1) 301 "" None) Scenario.settled
    = (Res 400 "Rejection reason is required", Scenario.settled).
Proof. split; vm_compute; reflexivity. Qed.

(** The already-decided answer on the settled store. *)
Lemma decision_errors_witness :
  approve Scenario.env3 (mkApproveReq (Scenario.person 2) 301 None) Scenario.settled
  = (Res 400 "This approval has already been processed", Scenario.settled).
Proof.
  refine (proj2 (proj1
    (decision_errors Scenario.env3 Scenario.settled
       (Scenario.task_of 301 Scenario.settled))
    (mkApproveReq (Scenario.person 2) 301 None) _) _ _).
  - vm_compute; reflexivity.
  - reflexivity.
  - vm_compute; discriminate.
Defined.

Lemma decisions_frame_witness :
  approvals (approve Demo.env (Demo.by_user 2 1) Demo.two_of_three).2 !! 2%nat
  = Some (Demo.task 1 2 t_approved).
Proof.
  refine (proj1 (proj1 (decisions_frame Demo.env Demo.two_of_three _)
                   (Demo.by_user 2 1)) 2%nat (Demo.task 1 2 t_approved) _ _).
  - vm_compute; reflexivity.
  - discriminate.
  - vm_compute; reflexivity.
Defined.

(** ** Invariants of the reachable stores *)

Ltac split_lookups :=
  repeat match goal with
    | H : <[_ := _]> _ !! _ = Some _ |- _ =>
        apply lookup_insert_Some in H as [[<- <-] | [? H]]
    end.

Lemma inv_initial st : initial st → Inv st.
Proof.
  intros [Ha He]. split; intros *; rewrite ?Ha, ?He; try (by rewrite lookup_empty).
Qed.

(** Deciding the pending task [id] and closing its expense. *)
Lemma inv_finalize st id a a' e e' :
  Inv st →
  approvals st !! id = Some a → a_status a = t_pending →
  expenses st !! a_expense a = Some e →
  a_expense a' = a_expense a → a_level a' = a_level a → a_status a' ≠ t_pending →
  e_company e' = e_company e →
  e_status e' = approved ∨ e_status e' = rejected →
  e_currentApprover e' = None →
  Inv (mkStore (<[id := a']> (approvals st)) (<[a_expense a := e']> (expenses st))
         (companies st) (users st)).
Proof.
  intros HI Ha Hs He Hexp Hlvl Hst Hco Hfin Hcur.
  assert (∀ i x, <[id := a']> (approvals st) !! i = Some x →
            ∃ y, approvals st !! i = Some y ∧ a_expense x = a_expense y
                 ∧ a_level x = a_level y
                 ∧ (a_status x = t_pending → i ≠ id ∧ x = y)) as Hold.
  { intros i x Hx. split_lookups.
    - exists a. by repeat split.
    - exists x. by repeat split. }
  split; cbn [approvals expenses companies users].
  - intros k x Hx. split_lookups.
    + rewrite Hco. by eapply inv_company.
    + by eapply inv_company.
  - intros i x Hx. destruct (Hold i x Hx) as (y & Hy & -> & _).
    destruct (decide (a_expense a = a_expense y)) as [<- | Hne].
    + rewrite lookup_insert_eq. by eexists.
    + rewrite lookup_insert_ne by done. by eapply inv_expense.
  - intros i x Hx Hp. destruct (Hold i x Hx) as (y & Hy & _ & _ & Hxy).
    destruct (Hxy Hp) as [Hi ->].
    destruct (decide (a_expense a = a_expense y)) as [Heq | Hne].
    + destruct (inv_latest st HI id i a y Ha Hy Heq Hs) as [_ ?]; [done | congruence].
    + rewrite lookup_insert_ne by done. by eapply inv_pending.
  - intros i j x y Hx Hy Hxy Hp Hij.
    destruct (Hold i x Hx) as (x0 & Hx0 & Ex & Lx & Hxx).
    destruct (Hold j y Hy) as (y0 & Hy0 & Ey & Ly & Hyy).
    destruct (Hxx Hp) as [Hi ->].
    destruct (decide (j = id)) as [-> | Hj].
    + assert (y0 = a) as -> by congruence.
      destruct (inv_latest st HI id i a x0 Ha Hx0) as [_ ?]; [congruence | done.. |].
      congruence.
    + rewrite lookup_insert_ne in Hy by done.
      by eapply (inv_latest st HI i j).
  - intros i j x y Hx Hy Hxy Hl.
    destruct (Hold i x Hx) as (x0 & Hx0 & Ex & Lx & _).
    destruct (Hold j y Hy) as (y0 & Hy0 & Ey & Ly & _).
    eapply (inv_levels st HI i j x0 y0); congruence.
  - intros k x Hx. split_lookups.
    + left. right. done.
    + destruct (inv_workflow st HI k x Hx) as [? | (? & ? & Hno)]; [by left |].
      right. repeat split; [done..|].
      intros i z Hz. destruct (Hold i z Hz) as (z0 & Hz0 & -> & _). by eapply Hno.
Qed.

(** Deciding the pending task [id] and opening the next level under the
    generated id [new]. *)
Lemma inv_advance st id new a a' t e e' :
  Inv st →
  approvals st !! id = Some a → a_status a = t_pending →
  expenses st !! a_expense a = Some e →
  approvals st !! new = None →
  a_expense a' = a_expense a → a_level a' = a_level a → a_status a' = t_approved →
  a_expense t = a_expense a → a_level t = a_level a + 1 →
  e_company e' = e_company e →
  e_status e' = e_status e → e_currentApprover e' = Some (a_approver t) →
  Inv (mkStore (<[new := t]> (<[id := a']> (approvals st)))
         (<[a_expense a := e']> (expenses st)) (companies st) (users st)).
Proof.
  intros HI Ha Hs He Hnew Hexp Hlvl Hst Htexp Htlvl Hco Hes Hcur.
  assert (id ≠ new) as Hidnew by congruence.
  destruct (inv_pending st HI id a Ha Hs) as (e0 & He0 & Hpend & _).
  assert (e0 = e) as -> by congruence.
  assert (∀ i x, <[new := t]> (<[id := a']> (approvals st)) !! i = Some x →
            (i = new ∧ x = t)
            ∨ (i ≠ new ∧ ∃ y, approvals st !! i = Some y
                 ∧ a_expense x = a_expense y ∧ a_level x = a_level y
                 ∧ (i ≠ id → x = y)
                 ∧ (i = id → a_status x = t_approved))) as Hold.
  { intros i x Hx. split_lookups.
    - by left.
    - right. split; [done |]. exists a. by repeat split.
    - right. split; [done |]. exists x. by repeat split. }
  assert (∀ j y, approvals st !! j = Some y → a_expense y = a_expense a →
            a_level y < a_level t ∧ (j ≠ id → a_status y = t_approved)) as Hbelow.
  { intros j y Hy Ey. destruct (decide (j = id)) as [-> | Hj].
    - assert (y = a) as -> by congruence. split; [lia | done].
    - destruct (inv_latest st HI id j a y Ha Hy) as [? ?]; [done..|].
      split; [lia | done]. }
  assert (∀ i x, <[new := t]> (<[id := a']> (approvals st)) !! i = Some x →
            i ≠ new → a_expense x = a_expense a →
            a_level x < a_level t ∧ a_status x = t_approved) as Hdone.
  { intros i x Hx Hi Ex.
    destruct (Hold i x Hx) as [[? ?] | (_ & y & Hy & Ey & Ly & Hne & Heq)]; [done |].
    destruct (Hbelow i y Hy) as [Hlt Hap]; [congruence |].
    split; [lia |].
    destruct (decide (i = id)) as [Hi' | Hi']; [by apply Heq |].
    rewrite (Hne Hi'). by apply Hap. }
  split; cbn [approvals expenses companies users].
  - intros k x Hx. split_lookups.
    + rewrite Hco. by eapply inv_company.
    + by eapply inv_company.
  - intros i x Hx.
    destruct (Hold i x Hx) as [[Hi Hxt] | (_ & y & Hy & -> & _)]; [subst i x |].
    + rewrite Htexp, lookup_insert_eq. by eexists.
    + destruct (decide (a_expense a = a_expense y)) as [<- | Hne].
      * rewrite lookup_insert_eq. by eexists.
      * rewrite lookup_insert_ne by done. by eapply inv_expense.
  - intros i x Hx Hp.
    destruct (decide (i = new)) as [-> | Hi].
    + rewrite lookup_insert_eq in Hx. injection Hx as <-.
      rewrite Htexp, lookup_insert_eq. exists e'. split; [done |].
      split; [congruence | done].
    + destruct (decide (a_expense x = a_expense a)) as [Heq | Hne].
      * destruct (Hdone i x Hx Hi Heq) as [_ ?]. congruence.
      * destruct (Hold i x Hx) as [[? ?] | (_ & y & Hy & Ey & _ & Hxy & Hid)]; [done |].
        destruct (decide (i = id)) as [Hi' | Hi'].
        { rewrite (Hid Hi') in Hp. discriminate. }
        rewrite (Hxy Hi') in *.
        rewrite lookup_insert_ne by done. by eapply inv_pending.
  - intros i j x y Hx Hy Hxy Hp Hij.
    destruct (decide (i = new)) as [-> | Hi].
    + rewrite lookup_insert_eq in Hx. injection Hx as <-.
      apply (Hdone j y Hy); [done | congruence].
    + destruct (decide (a_expense x = a_expense a)) as [Heq | Hne].
      { destruct (Hdone i x Hx Hi Heq) as [_ ?]. congruence. }
      destruct (decide (j = new)) as [-> | Hj].
      { rewrite lookup_insert_eq in Hy. injection Hy as <-. congruence. }
      destruct (Hold i x Hx) as [[? ?] | (_ & x0 & Hx0 & Ex & Lx & Hxx & Hxid)]; [done |].
      destruct (Hold j y Hy) as [[? ?] | (_ & y0 & Hy0 & Ey & Ly & Hyy & Hyid)]; [done |].
      destruct (decide (i = id)) as [Hi' | Hi'].
      { rewrite (Hxid Hi') in Hp. discriminate. }
      destruct (decide (j = id)) as [Hj' | Hj'].
      { subst j. assert (y0 = a) as -> by congruence. congruence. }
      rewrite (Hxx Hi') in *. rewrite (Hyy Hj') in *.
      by eapply (inv_latest st HI i j).
  - intros i j x y Hx Hy Hxy Hl.
    destruct (decide (i = new)) as [-> | Hi];
      destruct (decide (j = new)) as [-> | Hj]; [done | | |].
    + rewrite lookup_insert_eq in Hx. injection Hx as <-.
      destruct (Hdone j y Hy) as [? _]; [done | congruence | lia].
    + rewrite lookup_insert_eq in Hy. injection Hy as <-.
      destruct (Hdone i x Hx) as [? _]; [done | congruence | lia].
    + destruct (Hold i x Hx) as [[? ?] | (_ & x0 & Hx0 & Ex & Lx & _)]; [done |].
      destruct (Hold j y Hy) as [[? ?] | (_ & y0 & Hy0 & Ey & Ly & _)]; [done |].
      eapply (inv_levels st HI i j x0 y0); congruence.
  - intros k x Hx. split_lookups.
    + left. left. split; [left; congruence | by rewrite Hcur].
    + destruct (inv_workflow st HI k x Hx) as [? | (? & ? & Hno)]; [by left |].
      right. repeat split; [done..|].
      intros i z Hz.
      destruct (Hold i z Hz) as [[Hi Hzt] | (_ & z0 & Hz0 & -> & _)]; [subst i z |].
      * congruence.
      * by eapply Hno.
Qed.

(** Saving a new expense that nobody is asked to approve. *)
Lemma inv_submit_stalled st k e :
  Inv st →
  expenses st !! k = None →
  is_Some (companies st !! e_company e) →
  e_status e = pending → e_currentApprover e = None →
  Inv (mkStore (approvals st) (<[k := e]> (expenses st)) (companies st) (users st)).
Proof.
  intros HI Hk Hco Hs Hcur.
  assert (∀ i x, approvals st !! i = Some x → a_expense x ≠ k) as Hno.
  { intros i x Hx E. destruct (inv_expense st HI i x Hx) as [? ?]. congruence. }
  split; cbn [approvals expenses companies users].
  - intros k' x Hx. split_lookups; [done | by eapply inv_company].
  - intros i x Hx. rewrite lookup_insert_ne by (symmetry; by eapply Hno).
    by eapply inv_expense.
  - intros i x Hx Hp. rewrite lookup_insert_ne by (symmetry; by eapply Hno).
    by eapply inv_pending.
  - apply (inv_latest st HI).
  - apply (inv_levels st HI).
  - intros k' x Hx. split_lookups.
    + right. done.
    + by apply (inv_workflow st HI).
Qed.

(** Saving a new expense together with its level-1 task. *)
Lemma inv_submit_assigned st k new e mgr due :
  Inv st →
  expenses st !! k = None → approvals st !! new = None →
  is_Some (companies st !! e_company e) →
  Inv (mkStore (<[new := new_Approval k mgr 1 due]> (approvals st))
         (<[k := with_workflow pending (Some mgr) 1 e]> (expenses st))
         (companies st) (users st)).
Proof.
  intros HI Hk Hnew Hco.
  assert (∀ i x, approvals st !! i = Some x → a_expense x ≠ k) as Hno.
  { intros i x Hx E. destruct (inv_expense st HI i x Hx) as [? ?]. congruence. }
  split; cbn [approvals expenses companies users].
  - intros k' x Hx. split_lookups; [done | by eapply inv_company].
  - intros i x Hx. split_lookups.
    + cbn. rewrite lookup_insert_eq. by eexists.
    + rewrite lookup_insert_ne by (symmetry; by eapply Hno).
      by eapply inv_expense.
  - intros i x Hx Hp. split_lookups.
    + cbn. rewrite lookup_insert_eq. by eexists.
    + rewrite lookup_insert_ne by (symmetry; by eapply Hno).
      by eapply inv_pending.
  - intros i j x y Hx Hy Hxy Hp Hij. split_lookups; try done.
    + cbn in Hxy. by destruct (Hno _ _ Hx).
    + cbn in Hxy. symmetry in Hxy. by destruct (Hno _ _ Hy).
    + by eapply (inv_latest st HI i j).
  - intros i j x y Hx Hy Hxy Hl. split_lookups; try done.
    + cbn in Hxy. by destruct (Hno _ _ Hx).
    + cbn in Hxy. symmetry in Hxy. by destruct (Hno _ _ Hy).
    + by eapply (inv_levels st HI i j).
  - intros k' x Hx. split_lookups.
    + left. left. split; [by left | done].
    + destruct (inv_workflow st HI k' x Hx) as [? | (? & ? & Hno')]; [by left |].
      right. repeat split; [done..|].
      intros i z Hz. cbn [approvals] in Hz. split_lookups; [done | by eapply Hno'].
Qed.

Lemma run_preserves_inv env act st :
  Inv st → fresh_ids env st → Inv (run env act st).2.
Proof.
  intros HI [HfreshA HfreshE]. destruct act as [req | req | req]; cbn [run].
  - destruct (submit_outcomes env req st) as [| e Hco Hs Hcur | e mgr Hco]; [done | |].
    + by apply inv_submit_stalled.
    + by apply inv_submit_assigned.
  - destruct (approve_outcomes env req st)
      as [| a Ha Hs Hfail | a e Ha Hs He | a e next Ha Hs He]; [done | | |].
    + exfalso. destruct (inv_expense st HI _ _ Ha) as [e He].
      destruct Hfail as [? | (e' & He' & Hc)]; [congruence |].
      destruct (inv_company st HI _ _ He') as [? ?]. congruence.
    + by eapply (inv_finalize st (ap_id req) a _ e); eauto.
    + by eapply (inv_advance st (ap_id req) (new_approval_id env) a _ _ e); eauto.
  - destruct (reject_outcomes env req st) as [| a Ha Hs Hfail | a e Ha Hs He]; [done | |].
    + exfalso. destruct (inv_expense st HI _ _ Ha) as [e He]. congruence.
    + by eapply (inv_finalize st (rj_id req) a _ e); eauto.
Qed.

Lemma reachable_inv st : reachable st → Inv st.
Proof.
  induction 1 as [st Hinit | st env act _ IH Hfresh].
  - by apply inv_initial.
  - by apply run_preserves_inv.
Qed.

(** A task that a request adds is pending. *)
Lemma created_task_pending env act st i t :
  approvals st !! i = None →
  approvals (run env act st).2 !! i = Some t →
  a_status t = t_pending.
Proof.
  intros Hnone. destruct act as [req | req | req]; cbn [run].
  - destruct (submit_outcomes env req st) as [| e Hco Hs Hcur | e mgr Hco];
      store_simpl; intros Hi; split_lookups; congruence || done.
  - destruct (approve_outcomes env req st)
      as [| a Ha Hs Hfail | a e Ha Hs He | a e next Ha Hs He];
      store_simpl; intros Hi; split_lookups; congruence || done.
  - destruct (reject_outcomes env req st) as [| a Ha Hs Hfail | a e Ha Hs He];
      store_simpl; intros Hi; split_lookups; congruence || done.
Qed.

(** Tasks are never removed or moved, and a decided task keeps its status. *)
Lemma task_persists env act st i a :
  fresh_ids env st →
  approvals st !! i = Some a →
  ∃ a', approvals (run env act st).2 !! i = Some a'
        ∧ a_expense a' = a_expense a ∧ a_level a' = a_level a
        ∧ (a_status a ≠ t_pending → a' = a).
Proof.
  intros [HfreshA _] Hi.
  assert (i ≠ new_approval_id env) as Hnew by congruence.
  destruct act as [req | req | req]; cbn [run].
  - destruct (submit_outcomes env req st) as [| e Hco Hs Hcur | e mgr Hco];
      store_simpl; rewrite ?lookup_insert_ne by done; by exists a.
  - destruct (approve_outcomes env req st)
      as [| a0 Ha Hs Hfail | a0 e Ha Hs He | a0 e next Ha Hs He];
      store_simpl; rewrite ?(lookup_insert_ne _ (new_approval_id env)) by done;
      try (by exists a);
      (destruct (decide (i = ap_id req)) as [-> | Hne];
       [ assert (a0 = a) as -> by congruence;
         rewrite lookup_insert_eq; eexists; by repeat split
       | rewrite lookup_insert_ne by done; by exists a ]).
  - destruct (reject_outcomes env req st) as [| a0 Ha Hs Hfail | a0 e Ha Hs He];
      store_simpl; try (by exists a);
      (destruct (decide (i = rj_id req)) as [-> | Hne];
       [ assert (a0 = a) as -> by congruence;
         rewrite lookup_insert_eq; eexists; by repeat split
       | rewrite lookup_insert_ne by done; by exists a ]).
Qed.

(** ** The expense and its current approver *)

Lemma reachable_after_submission mgr :
  reachable (run Demo.env (Submit (Demo.submission mgr)) Demo.empty_store).2.
Proof.
  apply reach_step; [apply reach_init |]; by split.
Qed.

(** The invariant as worded fails after a submission by a user without a
    manager: the expense is pending and has no current approver. *)
Lemma workflow_as_worded_fails : ¬ workflow_as_worded.
Proof.
  intros H.
  destruct (H _ (reachable_after_submission None) 101%nat
              (submitted_expense (Demo.submission None)
                 (mkCompany "USD" (mkSettings percentage 60%float []))
                 150%float 1%float))
    as [[_ Hcur] | [[Hs | Hs] _]].
  - vm_compute; reflexivity.
  - by apply Hcur.
  - discriminate.
  - discriminate.
Qed.

(** C6 (as the code has it): every expense of a store reached by
    submissions, approve and reject decisions either is pending (or
    partially approved) with a current approver, or is approved or rejected
    without one, or was submitted when no manager was found for the
    submitter: then it is pending without a current approver and no
    approval task exists for it. *)
Theorem reachable_workflow st :
  reachable st →
  ∀ k e, expenses st !! k = Some e → workflow_consistent e ∨ stalled st k e.
Proof.
  intros Hr. apply inv_workflow. by apply reachable_inv.
Qed.

Lemma reachable_workflow_witness :
  workflow_consistent
    (with_workflow pending (Some 2%nat) 1
       (submitted_expense (Demo.submission (Some 2%nat))
          (mkCompany "USD" (mkSettings percentage 60%float []))
          150%float 1%float))
  ∨ stalled (run Demo.env (Submit (Demo.submission (Some 2%nat))) Demo.empty_store).2
      101%nat
      (with_workflow pending (Some 2%nat) 1
         (submitted_expense (Demo.submission (Some 2%nat))
            (mkCompany "USD" (mkSettings percentage 60%float []))
            150%float 1%float)).
Proof.
  refine (reachable_workflow
            (run Demo.env (Submit (Demo.submission (Some 2%nat))) Demo.empty_store).2
            _ 101%nat _ _).
  - apply reach_step; [apply reach_init |]; split; reflexivity.
  - vm_compute; reflexivity.
Defined.

(** ** Pending tasks *)

(** C7: in every store reached by submissions, approve and reject
    decisions, an expense has at most one pending task and at most one task
    per level; a task that a request creates is pending and is then the only
    pending task of its expense; tasks are never removed, keep their expense
    and level, and do not change once they have left pending. *)
Theorem one_pending_task st :
  reachable st →
  (∀ i j a b,
     approvals st !! i = Some a → approvals st !! j = Some b →
     a_expense a = a_expense b →
     a_status a = t_pending → a_status b = t_pending → i = j)
  ∧ (∀ i j a b,
     approvals st !! i = Some a → approvals st !! j = Some b →
     a_expense a = a_expense b → a_level a = a_level b → i = j)
  ∧ (∀ env act i t,
     fresh_ids env st →
     approvals st !! i = None → approvals (run env act st).2 !! i = Some t →
     a_status t = t_pending
     ∧ ∀ j b, j ≠ i → approvals (run env act st).2 !! j = Some b →
              a_expense b = a_expense t → a_status b ≠ t_pending)
  ∧ (∀ env act i a,
     fresh_ids env st → approvals st !! i = Some a →
     ∃ a', approvals (run env act st).2 !! i = Some a'
           ∧ a_expense a' = a_expense a ∧ a_level a' = a_level a
           ∧ (a_status a ≠ t_pending → a' = a)).
Proof.
  intros Hr. pose proof (reachable_inv st Hr) as HI.
  split; [| split; [| split]].
  - intros i j a b Ha Hb Hab Hpa Hpb.
    destruct (decide (i = j)) as [| Hij]; [done |].
    destruct (inv_latest st HI i j a b Ha Hb Hab Hpa Hij) as [_ ?]. congruence.
  - apply (inv_levels st HI).
  - intros env act i t Hfresh Hnone Ht.
    pose proof (created_task_pending env act st i t Hnone Ht) as Hp.
    split; [done |]. intros j b Hji Hb Hbt.
    pose proof (run_preserves_inv env act st HI Hfresh) as HI'.
    destruct (inv_latest _ HI' i j t b Ht Hb) as [_ ?]; [done.. |]. congruence.
  - intros env act i a Hfresh Ha. by apply task_persists.
Qed.

Lemma one_pending_task_witness :
  ∃ a', approvals
          (run (mkEnv 1705400000000 1705400000001 1705400000002 102 51 None)
             (Approve (Demo.by_user 2 50))
             (run Demo.env (Submit (Demo.submission (Some 2%nat))) Demo.empty_store).2).2
        !! 50%nat = Some a'
        ∧ a_expense a' = 101%nat ∧ a_level a' = 1
        ∧ (t_pending ≠ t_pending →
           a' = new_Approval 101 2 1 (date_now Demo.env + week)).
Proof.
  refine (proj2 (proj2 (proj2 (one_pending_task
            (run Demo.env (Submit (Demo.submission (Some 2%nat))) Demo.empty_store).2
            _)))
          (mkEnv 1705400000000 1705400000001 1705400000002 102 51 None)
          (Approve (Demo.by_user 2 50)) 50%nat
          (new_Approval 101 2 1 (date_now Demo.env + week)) _ _).
  - apply reach_step; [apply reach_init |]; split; reflexivity.
  - split; vm_compute; reflexivity.
  - vm_compute; reflexivity.
Defined.

(** ** The approved fraction in reachable stores *)

Lemma filter_all_length {A} (P : A → Prop) `{!∀ x, Decision (P x)} (l : list A) :
  (∀ x, x ∈ l → P x) → length (filter P l) = length l.
Proof.
  induction l as [| x l IH]; intros Hall; [done |].
  rewrite filter_cons_True by (apply Hall; left).
  cbn. f_equal. apply IH. intros y Hy. apply Hall. by right.
Qed.

(** In a store reached through the three handlers, when a decision is
    accepted every task of the expense is approved once the decision is
    recorded: the handler then divides a count by itself. *)
Lemma reachable_all_approved st env req a e c :
  reachable st →
  approve_accepts req st a e c →
  count_approved (tasks_after env req a st) = length (tasks_after env req a st).
Proof.
  intros Hr (Ha & _ & Hs & _). pose proof (reachable_inv st Hr) as HI.
  apply filter_all_length. intros b Hb.
  apply list_elem_of_filter in Hb as [Hexp Hb].
  apply list_elem_of_fmap in Hb as ([j b'] & -> & Hb).
  apply elem_of_map_to_list in Hb. cbn in Hexp |- *.
  unfold recorded in Hb; cbn [approvals set_approvals] in Hb.
  apply lookup_insert_Some in Hb as [[_ <-] | [Hj Hb]]; [done |].
  by destruct (inv_latest st HI (ap_id req) j a b' Ha Hb) as [_ ?].
Qed.

(** * Further properties of the handlers *)

(** ** Every request is one transition *)

Lemma approve_transition env req st :
  Inv st → fresh_ids env st → transition env st (approve env req st).2.
Proof.
  intros HI [HfreshA _].
  destruct (approvals st !! ap_id req) as [a |] eqn:Ha.
  2: { unfold approve. rewrite Ha. constructor. }
  destruct (decide (a_approver a = u_id (ap_user req))) as [Hu | Hu].
  2: { unfold approve. rewrite Ha, decide_True by done. constructor. }
  destruct (decide (a_status a = t_pending)) as [Hs | Hs].
  2: { unfold approve. rewrite Ha, decide_False by (by intros ?).
       rewrite decide_True by done. constructor. }
  destruct (inv_expense st HI _ _ Ha) as [e He].
  destruct (inv_company st HI _ _ He) as [c Hc].
  assert (approve_accepts req st a e c) as Hacc by done.
  rewrite (approve_accepted _ _ _ _ _ _ Hacc).
  destruct (shouldApprove _ _ _ _) eqn:Hsh; cbn [snd].
  { eapply tr_approved; eauto. }
  case_decide as Hcap; cbn [snd].
  { eapply tr_approved; eauto. }
  destruct (find_nextApprover _ _ _ _) as [next |] eqn:Hnext; cbn [snd].
  - eapply tr_advanced; eauto. lia.
  - eapply tr_approved; eauto.
Qed.

Lemma reject_transition env req st :
  Inv st → transition env st (reject env req st).2.
Proof.
  intros HI. unfold reject.
  case_decide as Hr; [constructor |].
  destruct (approvals st !! rj_id req) as [a |] eqn:Ha; [| constructor].
  case_decide as Hu; [constructor |].
  case_decide as Hs; [constructor |].
  destruct (inv_expense st HI _ _ Ha) as [e He]. rewrite He. cbn [snd].
  change (transition env st (rejected_store env req a e st)).
  apply tr_rejected. by repeat split.
Qed.

Lemma submit_transition env req st :
  fresh_ids env st → transition env st (submit env req st).2.
Proof.
  intros [HfreshA HfreshE]. unfold submit.
  case_decide; [constructor |].
  destruct (companies st !! u_company (sb_user req)) as [c |] eqn:Hc; [| constructor].
  destruct (convertCurrency _ _ _ _) as [[converted rate] |]; [| constructor].
  cbv zeta. destruct (expense_valid _); [| constructor].
  destruct (User_findById _ _) as [mgr |]; cbn [snd].
  - unfold set_expenses, set_approvals; cbn [approvals expenses companies users].
    rewrite insert_insert_eq.
    change (transition env st
              (assigned_store env (submitted_expense req c converted rate) (u_id mgr) st)).
    apply tr_assigned; try done;
      unfold submitted_expense; cbn [e_company]; by rewrite Hc.
  - change (transition env st
              (stalled_store env (submitted_expense req c converted rate) st)).
    apply tr_stalled; try done;
      unfold submitted_expense; cbn [e_company]; by rewrite Hc.
Qed.

Lemma run_transition env act st :
  Inv st → fresh_ids env st → transition env st (run env act st).2.
Proof.
  intros HI Hfresh. destruct act as [req | req | req]; cbn [run].
  - by apply submit_transition.
  - by apply approve_transition.
  - by apply reject_transition.
Qed.

(** ** Levels *)

Lemma levels_initial st : initial st → levels_wf st.
Proof.
  intros [Ha He]. split; intros *; rewrite ?Ha, ?He; by rewrite lookup_empty.
Qed.

(** A decided task keeps its place in the chain. *)
Lemma decided_task_origin (m : gmap nat Approval) id a a' i x :
  m !! id = Some a →
  a_expense a' = a_expense a → a_level a' = a_level a →
  <[id := a']> m !! i = Some x →
  ∃ y, m !! i = Some y ∧ a_expense x = a_expense y ∧ a_level x = a_level y
       ∧ (i ≠ id → x = y) ∧ (i = id → x = a' ∧ y = a).
Proof.
  intros Ha He Hl Hx. apply lookup_insert_Some in Hx as [[<- <-] | [Hne Hx]].
  - exists a. by repeat split.
  - exists x. by repeat split.
Qed.

Lemma decided_task_kept (m : gmap nat Approval) id a a' j b :
  m !! id = Some a →
  a_expense a' = a_expense a → a_level a' = a_level a →
  m !! j = Some b →
  ∃ b', <[id := a']> m !! j = Some b'
        ∧ a_expense b' = a_expense b ∧ a_level b' = a_level b.
Proof.
  intros Ha He Hl Hb. destruct (decide (j = id)) as [-> | Hne].
  - exists a'. rewrite lookup_insert_eq. split; [done |].
    assert (b = a) as -> by congruence. done.
  - exists b. by rewrite lookup_insert_ne.
Qed.

Lemma levels_finalize st id a a' e' :
  Inv st → levels_wf st →
  approvals st !! id = Some a → a_status a = t_pending →
  a_expense a' = a_expense a → a_level a' = a_level a → a_status a' ≠ t_pending →
  levels_wf (mkStore (<[id := a']> (approvals st)) (<[a_expense a := e']> (expenses st))
               (companies st) (users st)).
Proof.
  intros HI HL Ha Hs Hexp Hlvl Hst.
  split; cbn [approvals expenses companies users].
  - intros i x Hx.
    destruct (decided_task_origin _ _ _ _ _ _ Ha Hexp Hlvl Hx) as (y & Hy & _ & -> & _).
    by eapply lv_range.
  - intros i x Hx Hgt.
    destruct (decided_task_origin _ _ _ _ _ _ Ha Hexp Hlvl Hx) as (y & Hy & Ex & Lx & _).
    destruct (lv_gapless st HL i y Hy) as (j & b & Hb & Eb & Lb); [lia |].
    destruct (decided_task_kept _ _ _ _ _ _ Ha Hexp Hlvl Hb) as (b' & Hb' & Eb' & Lb').
    exists j, b'. split; [done |]. split; congruence.
  - intros i x e0 Hx Hp He0.
    destruct (decided_task_origin _ _ _ _ _ _ Ha Hexp Hlvl Hx)
      as (y & Hy & Ex & Lx & Hne & Heq).
    destruct (decide (i = id)) as [Hi | Hi].
    { destruct (Heq Hi) as [-> _]. done. }
    rewrite (Hne Hi) in *.
    destruct (decide (a_expense a = a_expense y)) as [Hsame | Hdiff].
    + destruct (inv_latest st HI id i a y Ha Hy Hsame Hs) as [_ ?]; [done | congruence].
    + rewrite lookup_insert_ne in He0 by done. by eapply lv_sync.
Qed.

Lemma levels_advance st id new a a' t e' :
  Inv st → levels_wf st →
  approvals st !! id = Some a → a_status a = t_pending →
  approvals st !! new = None →
  a_expense a' = a_expense a → a_level a' = a_level a → a_status a' ≠ t_pending →
  a_expense t = a_expense a → a_level t = a_level a + 1 → a_level a < 3 →
  e_approvalLevel e' = a_level a + 1 →
  levels_wf (mkStore (<[new := t]> (<[id := a']> (approvals st)))
               (<[a_expense a := e']> (expenses st)) (companies st) (users st)).
Proof.
  intros HI HL Ha Hs Hnew Hexp Hlvl Hst Htexp Htlvl Hcap Hel.
  assert (id ≠ new) as Hidnew by congruence.
  pose proof (lv_range st HL id a Ha) as Hra.
  split; cbn [approvals expenses companies users].
  - intros i x Hx. apply lookup_insert_Some in Hx as [[<- <-] | [Hne Hx]]; [lia |].
    destruct (decided_task_origin _ _ _ _ _ _ Ha Hexp Hlvl Hx) as (y & Hy & _ & -> & _).
    by eapply lv_range.
  - intros i x Hx Hgt. apply lookup_insert_Some in Hx as [[<- <-] | [Hne Hx]].
    + exists id, a'. rewrite lookup_insert_ne by done. rewrite lookup_insert_eq.
      split; [done |]. split; [congruence | lia].
    + destruct (decided_task_origin _ _ _ _ _ _ Ha Hexp Hlvl Hx) as (y & Hy & Ex & Lx & _).
      destruct (lv_gapless st HL i y Hy) as (j & b & Hb & Eb & Lb); [lia |].
      destruct (decided_task_kept _ _ _ _ _ _ Ha Hexp Hlvl Hb) as (b' & Hb' & Eb' & Lb').
      exists j, b'. split; [| split; congruence].
      rewrite lookup_insert_ne by congruence. done.
  - intros i x e0 Hx Hp He0. apply lookup_insert_Some in Hx as [[<- <-] | [Hne Hx]].
    + rewrite Htexp, lookup_insert_eq in He0. injection He0 as <-. congruence.
    + destruct (decided_task_origin _ _ _ _ _ _ Ha Hexp Hlvl Hx)
        as (y & Hy & Ex & Lx & Hne' & Heq).
      destruct (decide (i = id)) as [Hi | Hi].
      { destruct (Heq Hi) as [-> _]. done. }
      rewrite (Hne' Hi) in *.
      destruct (decide (a_expense a = a_expense y)) as [Hsame | Hdiff].
      * destruct (inv_latest st HI id i a y Ha Hy Hsame Hs) as [_ ?]; [done | congruence].
      * rewrite lookup_insert_ne in He0 by done. by eapply lv_sync.
Qed.

Lemma levels_submit st k new e mgr due :
  Inv st → levels_wf st →
  expenses st !! k = None → approvals st !! new = None →
  levels_wf (mkStore (<[new := new_Approval k mgr 1 due]> (approvals st))
               (<[k := with_workflow pending (Some mgr) 1 e]> (expenses st))
               (companies st) (users st)).
Proof.
  intros HI HL Hk Hnew.
  assert (∀ i x, approvals st !! i = Some x → a_expense x ≠ k) as Hno.
  { intros i x Hx E. destruct (inv_expense st HI i x Hx) as [? ?]. congruence. }
  split; cbn [approvals expenses companies users].
  - intros i x Hx. apply lookup_insert_Some in Hx as [[<- <-] | [Hne Hx]]; [done |].
    by eapply lv_range.
  - intros i x Hx Hgt. apply lookup_insert_Some in Hx as [[<- <-] | [Hne Hx]]; [done |].
    destruct (lv_gapless st HL i x Hx Hgt) as (j & b & Hb & Eb & Lb).
    exists j, b. split; [| done].
    rewrite lookup_insert_ne by congruence. done.
  - intros i x e0 Hx Hp He0. apply lookup_insert_Some in Hx as [[<- <-] | [Hne Hx]].
    + cbn in He0. rewrite lookup_insert_eq in He0. by injection He0 as <-.
    + rewrite lookup_insert_ne in He0 by (symmetry; by eapply Hno).
      by eapply lv_sync.
Qed.

Lemma levels_stalled st k e :
  Inv st → levels_wf st →
  expenses st !! k = None →
  levels_wf (mkStore (approvals st) (<[k := e]> (expenses st)) (companies st) (users st)).
Proof.
  intros HI HL Hk.
  assert (∀ i x, approvals st !! i = Some x → a_expense x ≠ k) as Hno.
  { intros i x Hx E. destruct (inv_expense st HI i x Hx) as [? ?]. congruence. }
  split; cbn [approvals expenses companies users].
  - apply (lv_range st HL).
  - apply (lv_gapless st HL).
  - intros i x e0 Hx Hp He0.
    rewrite lookup_insert_ne in He0 by (symmetry; by eapply Hno).
    by eapply lv_sync.
Qed.

Lemma totalLevels_le r : totalLevels r <= 3.
Proof. unfold totalLevels. case_decide; lia. Qed.

Lemma levels_step env st st' :
  Inv st → levels_wf st → transition env st st' → levels_wf st'.
Proof.
  intros HI HL Htr.
  destruct Htr as [| e | e mgr | req a e c Hacc _ | req a e c next Hacc _ Hlvl _ Hnew
                  | req a e Hacc]; [done | | | | |].
  - by apply levels_stalled.
  - by apply levels_submit.
  - destruct Hacc as (Ha & _ & Hs & _).
    by eapply (levels_finalize st (ap_id req) a).
  - destruct Hacc as (Ha & _ & Hs & _).
    pose proof (totalLevels_le (approvalRules (settings c))).
    eapply (levels_advance st (ap_id req) (new_approval_id env) a); try done. lia.
  - destruct Hacc as (_ & Ha & _ & Hs & _).
    by eapply (levels_finalize st (rj_id req) a).
Qed.

Lemma reachable_levels st : reachable st → levels_wf st.
Proof.
  induction 1 as [st Hinit | st env act Hr IH Hfresh].
  - by apply levels_initial.
  - eapply levels_step; [by apply reachable_inv | done |].
    apply run_transition; [by apply reachable_inv | done].
Qed.

(** ** Audit trail *)

Lemma audit_initial st : initial st → audit_wf st.
Proof.
  intros [Ha He]. split; intros *; rewrite ?Ha, ?He; by rewrite lookup_empty.
Qed.

Lemma audit_add_pending st new t :
  audit_wf st → approvals st !! new = None → a_status t = t_pending →
  audit_wf (mkStore (<[new := t]> (approvals st)) (expenses st) (companies st) (users st)).
Proof.
  intros HA Hnew Hp. split; cbn [approvals expenses companies users].
  - intros i a e Ha He Hs. apply lookup_insert_Some in Ha as [[<- <-] | [Hne Ha]].
    + congruence.
    + by eapply au_approved.
  - intros i a e Ha He Hs. apply lookup_insert_Some in Ha as [[<- <-] | [Hne Ha]].
    + congruence.
    + by eapply au_rejected.
  - intros k e ev He Hev.
    destruct (au_approvedBy st HA k e ev He Hev) as (i & a & Ha & ?).
    exists i, a. split; [| done]. rewrite lookup_insert_ne by congruence. done.
  - intros k e ev He Hev.
    destruct (au_rejectedBy st HA k e ev He Hev) as (i & a & Ha & ?).
    exists i, a. split; [| done]. rewrite lookup_insert_ne by congruence. done.
  - apply (au_once st HA).
Qed.

Lemma audit_add_expense st k e :
  Inv st → audit_wf st →
  expenses st !! k = None → e_approvedBy e = [] → e_rejectedBy e = [] →
  audit_wf (mkStore (approvals st) (<[k := e]> (expenses st)) (companies st) (users st)).
Proof.
  intros HI HA Hk Hab Hrb.
  assert (∀ i x, approvals st !! i = Some x → a_expense x ≠ k) as Hno.
  { intros i x Hx E. destruct (inv_expense st HI i x Hx) as [? ?]. congruence. }
  split; cbn [approvals expenses companies users].
  - intros i a e0 Ha He0 Hs.
    rewrite lookup_insert_ne in He0 by (symmetry; by eapply Hno).
    by eapply au_approved.
  - intros i a e0 Ha He0 Hs.
    rewrite lookup_insert_ne in He0 by (symmetry; by eapply Hno).
    by eapply au_rejected.
  - intros k' e0 ev He0 Hev. apply lookup_insert_Some in He0 as [[<- <-] | [Hne He0]].
    + rewrite Hab in Hev. by apply elem_of_nil in Hev.
    + by eapply au_approvedBy.
  - intros k' e0 ev He0 Hev. apply lookup_insert_Some in He0 as [[<- <-] | [Hne He0]].
    + rewrite Hrb in Hev. by apply elem_of_nil in Hev.
    + by eapply au_rejectedBy.
  - intros k' e0 He0. apply lookup_insert_Some in He0 as [[<- <-] | [Hne He0]].
    + rewrite Hrb. cbn. lia.
    + by eapply au_once.
Qed.

(** No task of an expense that still has a pending task is rejected, and
    its [rejectedBy] is empty. *)
Lemma open_expense_unrejected st id a e :
  Inv st → audit_wf st →
  approvals st !! id = Some a → a_status a = t_pending →
  expenses st !! a_expense a = Some e →
  e_rejectedBy e = []
  ∧ ∀ j b, approvals st !! j = Some b → a_expense b = a_expense a →
           a_status b ≠ t_rejected.
Proof.
  intros HI HA Ha Hs He.
  destruct (inv_pending st HI id a Ha Hs) as (e0 & He0 & Hpend & _).
  assert (e0 = e) as -> by congruence.
  assert (∀ j b, approvals st !! j = Some b → a_expense b = a_expense a →
                 a_status b ≠ t_rejected) as Hnone.
  { intros j b Hb Eb Hr. rewrite <- Eb in He.
    destruct (au_rejected st HA j b e Hb He Hr) as [? _]. congruence. }
  split; [| done].
  destruct (e_rejectedBy e) as [| ev l] eqn:Hrb; [done |].
  destruct (au_rejectedBy st HA (a_expense a) e ev He) as (j & b & Hb & Eb & Hr & _).
  { rewrite Hrb. left. }
  by destruct (Hnone j b Hb Eb).
Qed.

Lemma audit_decide st id a a' e e' :
  Inv st → audit_wf st →
  approvals st !! id = Some a → a_status a = t_pending →
  expenses st !! a_expense a = Some e →
  a_expense a' = a_expense a → a_level a' = a_level a → a_approver a' = a_approver a →
  (a_status a' = t_approved ∧ e_rejectedBy e' = e_rejectedBy e
   ∧ ∃ ev, e_approvedBy e' = e_approvedBy e ++ [ev] ∧ approval_logged a ev)
  ∨ (a_status a' = t_rejected ∧ e_approvedBy e' = e_approvedBy e
     ∧ e_status e' = rejected
     ∧ ∃ ev, e_rejectedBy e' = e_rejectedBy e ++ [ev] ∧ rejection_logged a ev) →
  audit_wf (mkStore (<[id := a']> (approvals st)) (<[a_expense a := e']> (expenses st))
              (companies st) (users st)).
Proof.
  intros HI HA Ha Hs He Hexp Hlvl Happ Hcase.
  destruct (open_expense_unrejected st id a e HI HA Ha Hs He) as [Hrb Hnorej].
  assert (∀ ev, approval_logged a ev ↔ approval_logged a' ev) as Hal.
  { intros ev. unfold approval_logged. by rewrite Hlvl, Happ. }
  assert (∀ ev, rejection_logged a ev ↔ rejection_logged a' ev) as Hrl.
  { intros ev. unfold rejection_logged. by rewrite Hlvl, Happ. }
  assert (∀ ev, ev ∈ e_approvedBy e → ev ∈ e_approvedBy e') as Hmono.
  { intros ev Hev. destruct Hcase as [(_ & _ & ev' & -> & _) | (_ & -> & _)]; [| done].
    apply elem_of_app. by left. }
  split; cbn [approvals expenses companies users].
  - intros i x e0 Hx He0 Hsx.
    apply lookup_insert_Some in Hx as [[<- <-] | [Hne Hx]].
    + rewrite Hexp, lookup_insert_eq in He0. injection He0 as <-.
      destruct Hcase as [(_ & _ & ev & -> & Hev) | (? & _)]; [| congruence].
      exists ev. split; [apply elem_of_app; right; by left | by apply Hal].
    + destruct (decide (a_expense a = a_expense x)) as [Hsame | Hdiff].
      * rewrite <- Hsame, lookup_insert_eq in He0. injection He0 as <-.
        rewrite Hsame in He.
        destruct (au_approved st HA i x e Hx He Hsx) as (ev & Hev & Hlog).
        exists ev. split; [by apply Hmono | done].
      * rewrite lookup_insert_ne in He0 by done. by eapply au_approved.
  - intros i x e0 Hx He0 Hsx.
    apply lookup_insert_Some in Hx as [[<- <-] | [Hne Hx]].
    + rewrite Hexp, lookup_insert_eq in He0. injection He0 as <-.
      destruct Hcase as [(? & _) | (_ & _ & Hst & ev & -> & Hev)]; [congruence |].
      split; [done |]. exists ev.
      split; [apply elem_of_app; right; by left | by apply Hrl].
    + destruct (decide (a_expense a = a_expense x)) as [Hsame | Hdiff].
      * by destruct (Hnorej i x Hx).
      * rewrite lookup_insert_ne in He0 by done. by eapply au_rejected.
  - intros k e0 ev He0 Hev.
    apply lookup_insert_Some in He0 as [[<- <-] | [Hne He0]].
    + assert (ev ∈ e_approvedBy e ∨ (a_status a' = t_approved ∧ approval_logged a ev))
        as [Hold | [Hsa Hlog]].
      { destruct Hcase as [(? & _ & ev' & Hab & ?) | (_ & Hab & _)].
        - rewrite Hab in Hev. apply elem_of_app in Hev as [? | Hev]; [by left |].
          apply list_elem_of_singleton in Hev as ->. by right.
        - rewrite Hab in Hev. by left. }
      * destruct (au_approvedBy st HA _ e ev He Hold) as (i & x & Hx & Ex & Sx & Lx).
        destruct (decide (i = id)) as [-> | Hi]; [congruence |].
        exists i, x. by rewrite lookup_insert_ne.
      * exists id, a'. rewrite lookup_insert_eq. repeat split; try done; by apply Hal.
    + destruct (au_approvedBy st HA k e0 ev He0 Hev) as (i & x & Hx & Ex & Sx & Lx).
      destruct (decide (i = id)) as [-> | Hi]; [congruence |].
      exists i, x. by rewrite lookup_insert_ne.
  - intros k e0 ev He0 Hev.
    apply lookup_insert_Some in He0 as [[<- <-] | [Hne He0]].
    + destruct Hcase as [(_ & Hrb' & _) | (Hsa & _ & _ & ev' & Hrb' & Hlog)].
      * rewrite Hrb', Hrb in Hev. by apply elem_of_nil in Hev.
      * rewrite Hrb', Hrb in Hev. apply list_elem_of_singleton in Hev as ->.
        exists id, a'. rewrite lookup_insert_eq. repeat split; try done; by apply Hrl.
    + destruct (au_rejectedBy st HA k e0 ev He0 Hev) as (i & x & Hx & Ex & Sx & Lx).
      destruct (decide (i = id)) as [-> | Hi]; [congruence |].
      exists i, x. by rewrite lookup_insert_ne.
  - intros k e0 He0. apply lookup_insert_Some in He0 as [[<- <-] | [Hne He0]].
    + destruct Hcase as [(_ & -> & _) | (_ & _ & _ & ev' & -> & _)]; rewrite Hrb; cbn; lia.
    + by eapply au_once.
Qed.

Lemma audit_step env st st' :
  Inv st → audit_wf st → transition env st st' → audit_wf st'.
Proof.
  intros HI HA Htr.
  destruct Htr as [| e Hk | e mgr Hk Hnew | req a e c Hacc _
                  | req a e c next Hacc _ _ _ Hnew | req a e Hacc]; [done | | | | |].
  - by apply audit_add_expense.
  - assert (audit_wf
              (mkStore (approvals st)
                 (<[new_expense_id env := with_workflow pending (Some mgr) 1 e]> (expenses st))
                 (companies st) (users st))) as HA1 by (by apply audit_add_expense).
    exact (audit_add_pending _ (new_approval_id env)
             (new_Approval (new_expense_id env) mgr 1 (date_now env + week))
             HA1 Hnew eq_refl).
  - destruct Hacc as (Ha & Hu & Hs & He & _).
    eapply (audit_decide st (ap_id req) a _ e); try done.
    left. split; [done |]. split; [done |]. eexists. split; [reflexivity |]. by split.
  - destruct Hacc as (Ha & Hu & Hs & He & _).
    assert (audit_wf
              (mkStore
                 (<[ap_id req :=
                      decide_approval t_approved None (or_null (ap_comments req))
                        (date1 env) a]> (approvals st))
                 (<[a_expense a :=
                      advance_to next (a_level a + 1) (logged env req a e)]> (expenses st))
                 (companies st) (users st))) as HA1.
    { eapply (audit_decide st (ap_id req) a _ e); try done.
      left. split; [done |]. split; [done |]. eexists. split; [reflexivity |]. by split. }
    refine (audit_add_pending _ (new_approval_id env)
              (new_Approval (a_expense a) next (a_level a + 1) (date_now env + week))
              HA1 _ eq_refl).
    cbn [approvals]. rewrite lookup_insert_ne by congruence. done.
  - destruct Hacc as (_ & Ha & Hu & Hs & He).
    eapply (audit_decide st (rj_id req) a _ e); try done.
    right. split; [done |]. split; [done |]. split; [done |].
    eexists. split; [reflexivity |]. by split.
Qed.

Lemma reachable_audit st : reachable st → audit_wf st.
Proof.
  induction 1 as [st Hinit | st env act Hr IH Hfresh].
  - by apply audit_initial.
  - eapply audit_step; [by apply reachable_inv | done |].
    apply run_transition; [by apply reachable_inv | done].
Qed.

(** ** The percentage rule on reachable stores *)

Lemma filter_none {A} (P : A → Prop) `{!∀ x, Decision (P x)} (l : list A) :
  (∀ x, x ∈ l → ¬ P x) → filter P l = [].
Proof.
  induction l as [| x l IH]; intros Hno; [done |].
  rewrite filter_cons_False by (apply Hno; left).
  apply IH. intros y Hy. apply Hno. by right.
Qed.

Lemma filter_unique_key {A} (P : A → Prop) `{!∀ x, Decision (P x)}
    (l : list (nat * A)) i x :
  NoDup l.*1 → (i, x) ∈ l → P x →
  (∀ j y, (j, y) ∈ l → P y → j = i) →
  filter P l.*2 = [x].
Proof.
  induction l as [| [j y] l IH]; intros Hnd Hin Hx Huniq.
  { by apply elem_of_nil in Hin. }
  rewrite fmap_cons in Hnd. cbn [fst] in Hnd. apply NoDup_cons in Hnd as [Hj Hnd].
  rewrite fmap_cons. cbn [snd].
  apply elem_of_cons in Hin as [Heq | Hin].
  - injection Heq as <- <-. rewrite filter_cons_True by done. f_equal.
    apply filter_none. intros z Hz Pz.
    apply list_elem_of_fmap in Hz as ([k z'] & -> & Hz). cbn in Pz.
    assert (k = i) as -> by (apply (Huniq k z'); [by right | done]).
    apply Hj. apply list_elem_of_fmap. by exists (i, z').
  - rewrite filter_cons_False.
    + apply IH; try done. intros k z Hz. apply Huniq. by right.
    + intros Py. assert (j = i) as -> by (apply (Huniq j y); [by left | done]).
      apply Hj. apply list_elem_of_fmap. by exists (i, x).
Qed.

(** When all tasks of the expense are at level 1 the decided task is the
    only one, and the handler compares 100 with the threshold. *)
Lemma sole_task_after st env req a e c :
  Inv st →
  (∀ j b, approvals st !! j = Some b → a_expense b = a_expense a → a_level b = 1) →
  approve_accepts req st a e c →
  tasks_after env req a st
  = [decide_approval t_approved None (or_null (ap_comments req)) (date1 env) a].
Proof.
  intros HI Hone (Ha & _ & _ & _).
  unfold tasks_after, find_approvals, recorded; cbn [approvals set_approvals].
  apply (filter_unique_key _ _ (ap_id req)).
  - apply NoDup_fst_map_to_list.
  - apply elem_of_map_to_list. apply lookup_insert_eq.
  - done.
  - intros j y Hy Ey. apply elem_of_map_to_list in Hy.
    apply lookup_insert_Some in Hy as [[<- _] | [Hne Hy]]; [done |].
    apply (inv_levels st HI j (ap_id req) y a Hy Ha Ey).
    rewrite (Hone j y Hy Ey). symmetry. by apply (Hone (ap_id req) a).
Qed.

Lemma sole_task_meets_rule st env req a e c :
  Inv st →
  (∀ j b, approvals st !! j = Some b → a_expense b = a_expense a → a_level b = 1) →
  approve_accepts req st a e c →
  rule_within_reach c →
  shouldApprove (settings c) (u_id (ap_user req))
    (count_approved (tasks_after env req a st))
    (length (tasks_after env req a st)) = true.
Proof.
  intros HI Hone Hacc [Hr Hthr].
  rewrite (sole_task_after st env req a e c HI Hone Hacc).
  unfold shouldApprove, percentage_rule.
  rewrite (bool_decide_eq_true_2 _ Hr).
  change (approvalPercentage _ _) with 100%float.
  rewrite Hthr. by rewrite orb_true_r.
Qed.

Lemma single_level_initial st : initial st → single_level st.
Proof. intros [Ha He] i a e c Hi. rewrite Ha in Hi. by rewrite lookup_empty in Hi. Qed.

Ltac task_origin Ha Hx Ho :=
  match type of Hx with
  | <[_ := ?a']> _ !! ?i = Some ?x =>
      pose proof (decided_task_origin _ _ _ a' i x Ha eq_refl eq_refl Hx) as Ho
  end.

Lemma single_level_step env st st' :
  Inv st → single_level st → transition env st st' → single_level st'.
Proof.
  intros HI HS Htr.
  assert (∀ k, expenses st !! k = None →
               ∀ i x, approvals st !! i = Some x → a_expense x ≠ k) as Hno.
  { intros k Hk i x Hx E. destruct (inv_expense st HI i x Hx) as [? ?]. congruence. }
  destruct Htr as [| e0 Hk | e0 mgr Hk Hnew | req a e0 c0 Hacc _
                  | req a e0 c0 next Hacc Hsh _ _ Hnew | req a e0 Hacc]; [done | | | | |];
    intros i x e c Hx He Hc Hreach; revert Hx He Hc; store_simpl; intros Hx He Hc.
  - rewrite lookup_insert_ne in He by (symmetry; by eapply Hno).
    by eapply HS.
  - apply lookup_insert_Some in Hx as [[<- <-] | [Hne Hx]]; [done |].
    rewrite lookup_insert_ne in He by (symmetry; by eapply Hno).
    by eapply HS.
  - destruct Hacc as (Ha & _ & _ & He0 & _).
    task_origin Ha Hx Ho. destruct Ho as (y & Hy & Ex & -> & _).
    rewrite Ex in He.
    apply lookup_insert_Some in He as [[Hk <-] | [Hne He]].
    + apply (HS i y e0 c Hy); [by rewrite <- Hk | exact Hc | done].
    + by eapply HS.
  - assert (rule_within_reach c0 → False) as Hnot.
    { intros Hreach0. destruct Hacc as (Ha & Hu & Hs & He0 & Hc0).
      rewrite (sole_task_meets_rule st env req a e0 c0) in Hsh; try done.
      intros j b Hb Eb. rewrite <- Eb in He0. by eapply (HS j b e0 c0). }
    destruct Hacc as (Ha & _ & _ & He0 & Hc0).
    assert (a_expense x = a_expense a → False) as Hother.
    { intros Ex. rewrite Ex, lookup_insert_eq in He. injection He as <-.
      cbn in Hc. assert (c = c0) as -> by congruence. done. }
    apply lookup_insert_Some in Hx as [[<- <-] | [Hne Hx]]; [by destruct Hother |].
    task_origin Ha Hx Ho. destruct Ho as (y & Hy & Ex & -> & _).
    rewrite lookup_insert_ne in He by (intros E; apply Hother; congruence).
    rewrite Ex in He. by eapply HS.
  - destruct Hacc as (_ & Ha & _ & _ & He0).
    task_origin Ha Hx Ho. destruct Ho as (y & Hy & Ex & -> & _).
    rewrite Ex in He.
    apply lookup_insert_Some in He as [[Hk <-] | [Hne He]].
    + apply (HS i y e0 c Hy); [by rewrite <- Hk | exact Hc | done].
    + by eapply HS.
Qed.

Lemma reachable_single_level st : reachable st → single_level st.
Proof.
  induction 1 as [st Hinit | st env act Hr IH Hfresh].
  - by apply single_level_initial.
  - eapply single_level_step; [by apply reachable_inv | done |].
    apply run_transition; [by apply reachable_inv | done].
Qed.

(** ** Expenses that wait for somebody *)

Lemma waiting_initial st : initial st → waiting_wf st.
Proof. intros [Ha He] k e u Hk. rewrite He in Hk. by rewrite lookup_empty in Hk. Qed.

Lemma waiting_step env st st' :
  Inv st → waiting_wf st → transition env st st' → waiting_wf st'.
Proof.
  intros HI HW Htr.
  assert (∀ id a k e u,
            approvals st !! id = Some a → a_status a = t_pending →
            k ≠ a_expense a →
            expenses st !! k = Some e → e_status e = pending →
            e_currentApprover e = Some u →
            ∃ i b, approvals st !! i = Some b ∧ i ≠ id ∧ a_expense b = k
                   ∧ a_approver b = u ∧ a_status b = t_pending) as Hother.
  { intros id a k e u Ha Hs Hk He Hp Hcur.
    destruct (HW k e u He Hp Hcur) as (i & b & Hb & Eb & Ub & Sb).
    exists i, b. repeat split; try done. intros ->. congruence. }
  destruct Htr as [| e0 Hk | e0 mgr Hk Hnew | req a e0 c0 Hacc _
                  | req a e0 c0 next Hacc _ _ _ Hnew | req a e0 Hacc]; [done | | | | |];
    intros k e u He Hp Hcur; revert He; store_simpl; intros He.
  - apply lookup_insert_Some in He as [[<- <-] | [Hne He]]; [congruence |].
    by eapply HW.
  - apply lookup_insert_Some in He as [[<- <-] | [Hne He]].
    + exists (new_approval_id env), (new_Approval (new_expense_id env) mgr 1 (date_now env + week)).
      rewrite lookup_insert_eq. cbn in Hcur. injection Hcur as <-. done.
    + destruct (HW k e u He Hp Hcur) as (i & b & Hb & ?).
      exists i, b. split; [| done]. rewrite lookup_insert_ne by congruence. done.
  - destruct Hacc as (Ha & _ & Hs & _).
    apply lookup_insert_Some in He as [[<- <-] | [Hne He]]; [done |].
    destruct (Hother (ap_id req) a k e u) as (i & b & Hb & Hi & ?); try done.
    exists i, b. split; [| done]. by rewrite lookup_insert_ne.
  - destruct Hacc as (Ha & _ & Hs & _).
    apply lookup_insert_Some in He as [[<- <-] | [Hne He]].
    + exists (new_approval_id env),
        (new_Approval (a_expense a) next (a_level a + 1) (date_now env + week)).
      rewrite lookup_insert_eq. cbn in Hcur. injection Hcur as <-. done.
    + destruct (Hother (ap_id req) a k e u) as (i & b & Hb & Hi & ?); try done.
      exists i, b. split; [| done].
      rewrite lookup_insert_ne by congruence. by rewrite lookup_insert_ne.
  - destruct Hacc as (_ & Ha & _ & Hs & _).
    apply lookup_insert_Some in He as [[<- <-] | [Hne He]]; [done |].
    destruct (Hother (rj_id req) a k e u) as (i & b & Hb & Hi & ?); try done.
    exists i, b. split; [| done]. by rewrite lookup_insert_ne.
Qed.

Lemma reachable_waiting st : reachable st → waiting_wf st.
Proof.
  induction 1 as [st Hinit | st env act Hr IH Hfresh].
  - by apply waiting_initial.
  - eapply waiting_step; [by apply reachable_inv | done |].
    apply run_transition; [by apply reachable_inv | done].
Qed.

(** ** What the reachable stores guarantee *)

Lemma opening_reachable : reachable Scenario.opening.
Proof. by apply reach_init. Qed.

Lemma submitted_reachable : reachable Scenario.submitted.
Proof. apply reach_step; [apply opening_reachable | by split]. Qed.

Lemma escalated_reachable : reachable Scenario.escalated.
Proof.
  apply reach_step; [apply submitted_reachable |].
  split; vm_compute; reflexivity.
Qed.

Lemma filed_reachable : reachable Scenario.filed.
Proof. apply reach_step; [apply opening_reachable | by split]. Qed.

Example escalated_tasks :
  approvals Scenario.escalated !! 302%nat
  = Some (new_Approval 201 4 2 (1705400000002 + week))
  ∧ (a_status <$> approvals Scenario.escalated !! 301%nat) = Some t_approved.
Proof. split; vm_compute; reflexivity. Qed.

(** X1: the tasks of an expense sit at levels 1, 2, ... without gaps and
    never above 3, and the expense records the level of its pending task. *)
Theorem task_levels_form_chain st :
  reachable st →
  ∀ i a, approvals st !! i = Some a →
    1 <= a_level a <= 3
    ∧ (∀ l, 1 <= l <= a_level a →
         ∃ j b, approvals st !! j = Some b
                ∧ a_expense b = a_expense a ∧ a_level b = l)
    ∧ (a_status a = t_pending →
       ∀ e, expenses st !! a_expense a = Some e → e_approvalLevel e = a_level a).
Proof.
  intros Hr i a Ha. pose proof (reachable_levels st Hr) as HL.
  split; [by eapply lv_range |]. split.
  - intros l Hl.
    assert (∀ n : nat, ∀ i a, approvals st !! i = Some a →
              ∀ l, 1 <= l <= a_level a → a_level a - l = Z.of_nat n →
              ∃ j b, approvals st !! j = Some b
                     ∧ a_expense b = a_expense a ∧ a_level b = l) as Hdown.
    { clear i a Ha l Hl. induction n as [| n IH]; intros i a Ha l Hl Hn.
      - exists i, a. repeat split; [done | lia].
      - destruct (lv_gapless st HL i a Ha) as (j & b & Hb & Eb & Lb); [lia |].
        destruct (IH j b Hb l) as (j' & b' & Hb' & Eb' & Lb'); [lia | lia |].
        exists j', b'. repeat split; [done | congruence | done]. }
    apply (Hdown (Z.to_nat (a_level a - l)) i a Ha l Hl). lia.
  - intros Hp e He. by eapply lv_sync.
Qed.

Lemma task_levels_form_chain_witness :
  1 <= 2 <= 3
  ∧ (∀ l, 1 <= l <= 2 →
       ∃ j b, approvals Scenario.escalated !! j = Some b
              ∧ a_expense b = 201%nat ∧ a_level b = l)
  ∧ (t_pending = t_pending →
     ∀ e, expenses Scenario.escalated !! 201%nat = Some e → e_approvalLevel e = 2).
Proof.
  refine (task_levels_form_chain Scenario.escalated _ 302%nat
            (new_Approval 201 4 2 (1705400000002 + week)) _).
  - apply escalated_reachable.
  - vm_compute; reflexivity.
Defined.

(** X2: the histories of an expense agree with its decided tasks: every
    approved task has its [approvedBy] entry and every entry its approved
    task (same user, same level); likewise for rejections; a rejected task
    means a rejected expense; [rejectedBy] never holds more than one
    entry. *)
Theorem history_matches_tasks st :
  reachable st →
  (∀ i a e,
     approvals st !! i = Some a → expenses st !! a_expense a = Some e →
     (a_status a = t_approved →
      ∃ ev, ev ∈ e_approvedBy e ∧ ab_user ev = a_approver a ∧ ab_level ev = a_level a)
     ∧ (a_status a = t_rejected →
        e_status e = rejected
        ∧ ∃ ev, ev ∈ e_rejectedBy e ∧ rb_user ev = a_approver a
                ∧ rb_level ev = a_level a))
  ∧ (∀ k e,
     expenses st !! k = Some e →
     (∀ ev, ev ∈ e_approvedBy e →
        ∃ i a, approvals st !! i = Some a ∧ a_expense a = k
               ∧ a_status a = t_approved
               ∧ ab_user ev = a_approver a ∧ ab_level ev = a_level a)
     ∧ (∀ ev, ev ∈ e_rejectedBy e →
        ∃ i a, approvals st !! i = Some a ∧ a_expense a = k
               ∧ a_status a = t_rejected
               ∧ rb_user ev = a_approver a ∧ rb_level ev = a_level a)
     ∧ (length (e_rejectedBy e) <= 1)%nat).
Proof.
  intros Hr. pose proof (reachable_audit st Hr) as HA. split.
  - intros i a e Ha He. split; intros Hs.
    + destruct (au_approved st HA i a e Ha He Hs) as (ev & Hev & Hu & Hl). by exists ev.
    + destruct (au_rejected st HA i a e Ha He Hs) as (Hst & ev & Hev & Hu & Hl).
      split; [done |]. by exists ev.
  - intros k e He. split; [| split].
    + intros ev Hev.
      destruct (au_approvedBy st HA k e ev He Hev) as (i & a & Ha & Ek & Hs & Hu & Hl).
      by exists i, a.
    + intros ev Hev.
      destruct (au_rejectedBy st HA k e ev He Hev) as (i & a & Ha & Ek & Hs & Hu & Hl).
      by exists i, a.
    + by eapply au_once.
Qed.

Lemma history_matches_tasks_witness :
  ∃ ev, ev ∈ [mkApprovedEvent 4 1 1705400000001 None]
        ∧ ab_user ev = 4%nat ∧ ab_level ev = 1.
Proof.
  refine (proj1 (proj1 (history_matches_tasks Scenario.escalated _) 301%nat
            (decide_approval t_approved None None 1705400000000
               (new_Approval 201 4 1 (1705300000002 + week)))
            (advance_to 4 2
               (push_approvedBy (mkApprovedEvent 4 1 1705400000001 None)
                  (with_workflow pending (Some 4%nat) 1
                     (submitted_expense (Scenario.trip 5 "EUR")
                        (mkCompany "EUR" (mkSettings specific 60%float []))
                        420%float 1%float))))
            _ _) _).
  - apply escalated_reachable.
  - vm_compute; reflexivity.
  - vm_compute; reflexivity.
  - reflexivity.
Defined.

(** X3: an approved or rejected expense is final: no submission and no
    approve or reject request changes it, and none changes or adds a task
    of it. *)
Theorem terminal_expense_is_final st :
  reachable st →
  ∀ k e, expenses st !! k = Some e →
    e_status e = approved ∨ e_status e = rejected →
    ∀ env act, fresh_ids env st →
      expenses (run env act st).2 !! k = Some e
      ∧ ∀ i t, approvals (run env act st).2 !! i = Some t → a_expense t = k →
               approvals st !! i = Some t.
Proof.
  intros Hr k e He Hfin env act Hfresh.
  pose proof (reachable_inv st Hr) as HI.
  assert (∀ id a, approvals st !! id = Some a → a_status a = t_pending →
                  a_expense a ≠ k) as Hclosed.
  { intros id a Ha Hs <-.
    destruct (inv_pending st HI id a Ha Hs) as (e0 & He0 & Hp & _).
    assert (e0 = e) as -> by congruence. destruct Hfin; congruence. }
  destruct (run_transition env act st HI Hfresh)
    as [| e0 Hk | e0 mgr Hk Hnew | req a e0 c0 Hacc _
        | req a e0 c0 next Hacc _ _ _ Hnew | req a e0 Hacc]; store_simpl.
  - done.
  - split; [rewrite lookup_insert_ne by congruence; done | done].
  - split; [rewrite lookup_insert_ne by congruence; done |].
    intros i t Ht Et. apply lookup_insert_Some in Ht as [[<- <-] | [Hne Ht]]; [| done].
    cbn in Et. congruence.
  - destruct Hacc as (Ha & _ & Hs & _). pose proof (Hclosed _ _ Ha Hs) as Hne.
    split; [by rewrite lookup_insert_ne |].
    intros i t Ht Et. apply lookup_insert_Some in Ht as [[<- <-] | [Hi Ht]]; [done | done].
  - destruct Hacc as (Ha & _ & Hs & _). pose proof (Hclosed _ _ Ha Hs) as Hne.
    split; [by rewrite lookup_insert_ne |].
    intros i t Ht Et. apply lookup_insert_Some in Ht as [[<- <-] | [Hi Ht]]; [done |].
    apply lookup_insert_Some in Ht as [[<- <-] | [Hi' Ht]]; [done | done].
  - destruct Hacc as (_ & Ha & _ & Hs & _). pose proof (Hclosed _ _ Ha Hs) as Hne.
    split; [by rewrite lookup_insert_ne |].
    intros i t Ht Et. apply lookup_insert_Some in Ht as [[<- <-] | [Hi Ht]]; [done | done].
Qed.

Lemma settled_reachable : reachable Scenario.settled.
Proof.
  apply reach_step; [apply filed_reachable |].
  split; vm_compute; reflexivity.
Qed.

Lemma terminal_expense_is_final_witness :
  expenses
    (run Scenario.env3 (Reject (mkRejectReq (Scenario.person 2) 301 "Too late" None))
       Scenario.settled).2 !! 201%nat
  = Some (Scenario.expense_of 201 Scenario.settled).
Proof.
  refine (proj1 (terminal_expense_is_final Scenario.settled _ 201%nat
                   (Scenario.expense_of 201 Scenario.settled) _ _
                   Scenario.env3
                   (Reject (mkRejectReq (Scenario.person 2) 301 "Too late" None)) _)).
  - apply settled_reachable.
  - vm_compute; reflexivity.
  - left. vm_compute; reflexivity.
  - split; vm_compute; reflexivity.
Defined.




(** X4: where the percentage rule applies with a threshold of at most 100,
    every accepted approve decision on a reachable store finalizes the
    expense, and no task beyond level 1 exists: the handler always sees all
    tasks of the expense approved. *)
Theorem percentage_rule_always_met st :
  reachable st →
  (∀ i a e c,
     approvals st !! i = Some a → expenses st !! a_expense a = Some e →
     companies st !! e_company e = Some c → rule_within_reach c →
     a_level a = 1)
  ∧ (∀ env req a e c,
     approve_accepts req st a e c → rule_within_reach c →
     approve env req st = (approve_ok, approved_store env req a e st)
     ∧ is_finalized (a_expense a) (approve env req st).2).
Proof.
  intros Hr. pose proof (reachable_inv st Hr) as HI.
  pose proof (reachable_single_level st Hr) as HS.
  split; [exact HS |].
  intros env req a e c Hacc Hreach.
  assert (approve env req st = (approve_ok, approved_store env req a e st)) as ->.
  { rewrite (approve_accepted _ _ _ _ _ _ Hacc).
    rewrite (sole_task_meets_rule st env req a e c); try done.
    destruct Hacc as (_ & _ & _ & He & Hc).
    intros j b Hb Eb. rewrite <- Eb in He. by eapply (HS j b e c). }
  split; [done | apply approved_store_finalized].
Qed.

Lemma percentage_rule_always_met_witness :
  is_finalized 201
    (approve Scenario.env2 (mkApproveReq (Scenario.person 2) 301 None) Scenario.filed).2.
Proof.
  refine (proj2 (proj2 (percentage_rule_always_met Scenario.filed _)
                   Scenario.env2 (mkApproveReq (Scenario.person 2) 301 None)
                   (Scenario.task_of 301 Scenario.filed)
                   (Scenario.expense_of 201 Scenario.filed)
                   (mkCompany "USD" (mkSettings percentage 60%float [])) _ _)).
  - apply filed_reachable.
  - repeat split; vm_compute; reflexivity.
  - split; [by left | vm_compute; reflexivity].
Defined.

(** X5: the pending approvals of a user are exactly the expenses that wait
    for that user: each listed task belongs to a pending expense whose
    current approver is the user, no two listed tasks belong to the same
    expense, and every pending expense whose current approver is the user
    has a task in the list. *)
Theorem pending_approvals_are_waiting_expenses st uid :
  reachable st →
  (∀ i a, pending_approvals uid st !! i = Some a →
     ∃ e, expenses st !! a_expense a = Some e
          ∧ e_status e = pending ∧ e_currentApprover e = Some uid)
  ∧ (∀ i j a b,
     pending_approvals uid st !! i = Some a →
     pending_approvals uid st !! j = Some b →
     a_expense a = a_expense b → i = j)
  ∧ (∀ k e,
     expenses st !! k = Some e → e_status e = pending →
     e_currentApprover e = Some uid →
     ∃ i a, pending_approvals uid st !! i = Some a ∧ a_expense a = k).
Proof.
  intros Hr. pose proof (reachable_inv st Hr) as HI.
  pose proof (reachable_waiting st Hr) as HW.
  unfold pending_approvals. split; [| split].
  - intros i a Hi. apply map_lookup_filter_Some in Hi as [Ha [Hu Hs]]. cbn in Hu, Hs.
    destruct (inv_pending st HI i a Ha Hs) as (e & He & Hp & Hcur).
    exists e. by rewrite Hcur, Hu.
  - intros i j a b Hi Hj Hab.
    apply map_lookup_filter_Some in Hi as [Ha [_ Hsa]].
    apply map_lookup_filter_Some in Hj as [Hb [_ Hsb]]. cbn in Hsa, Hsb.
    destruct (decide (i = j)) as [| Hij]; [done |].
    destruct (inv_latest st HI i j a b Ha Hb Hab Hsa Hij) as [_ ?]. congruence.
  - intros k e He Hp Hcur.
    destruct (HW k e uid He Hp Hcur) as (i & a & Ha & Ek & Hu & Hs).
    exists i, a. split; [| done]. apply map_lookup_filter_Some. by repeat split.
Qed.

Lemma pending_approvals_are_waiting_expenses_witness :
  ∃ i a, pending_approvals 4 Scenario.escalated !! i = Some a ∧ a_expense a = 201%nat.
Proof.
  refine (proj2 (proj2 (pending_approvals_are_waiting_expenses Scenario.escalated 4 _))
            201%nat (Scenario.expense_of 201 Scenario.escalated) _ _ _).
  - apply escalated_reachable.
  - vm_compute; reflexivity.
  - vm_compute; reflexivity.
  - vm_compute; reflexivity.
Defined.

(** ** Statistics *)

Lemma count_insert_fresh uid s (m : gmap nat Approval) i x :
  m !! i = None →
  count_status uid s (<[i := x]> m) = (count_status uid s m + counts_as uid s x)%nat.
Proof.
  intros Hi. unfold count_status, counts_as. rewrite map_filter_insert. cbn [snd].
  case_decide.
  - rewrite map_size_insert_None; [lia |].
    apply map_lookup_filter_None. by left.
  - rewrite delete_id by done. lia.
Qed.

Lemma count_replace uid s (m : gmap nat Approval) i a a' :
  m !! i = Some a →
  (count_status uid s (<[i := a']> m) + counts_as uid s a
   = count_status uid s m + counts_as uid s a')%nat.
Proof.
  intros Hi.
  rewrite <- (insert_delete_eq m i a').
  rewrite <- (insert_delete_id m i a Hi) at 2.
  rewrite !count_insert_fresh by apply lookup_delete_eq. lia.
Qed.

Lemma stats_partition uid (m : gmap nat Approval) :
  (count_status uid t_pending m + count_status uid t_approved m
   + count_status uid t_rejected m = assigned_to uid m)%nat.
Proof.
  induction m as [| i x m Hi IH] using map_ind.
  - unfold count_status, assigned_to. by rewrite !map_filter_empty, !map_size_empty.
  - rewrite !count_insert_fresh by done.
    unfold assigned_to in *. rewrite map_filter_insert. cbn [snd].
    unfold counts_as. destruct (decide (a_approver x = uid)) as [Hu | Hu].
    + rewrite map_size_insert_None by (apply map_lookup_filter_None; by left).
      destruct (a_status x); repeat case_decide;
        first [lia | exfalso; intuition congruence].
    + rewrite delete_id by done.
      repeat case_decide; first [lia | exfalso; intuition congruence].
Qed.

(** X6: the three counts sum to the number of tasks assigned to the user;
    an accepted rejection moves one task of the acting user from pending to
    rejected; an accepted approval adds one to the acting user's approved
    count and leaves the rejected count; the counts of every other user's
    approved and rejected tasks are unchanged by either. *)
Theorem stats_follow_decisions env st :
  approvals st !! new_approval_id env = None →
  (∀ uid,
     (s_pending (approval_stats uid st) + s_approved (approval_stats uid st)
      + s_rejected (approval_stats uid st) = assigned_to uid (approvals st))%nat)
  ∧ (∀ req a e,
     reject_accepts req st a e →
     s_pending (approval_stats (u_id (rj_user req)) st)
     = S (s_pending (approval_stats (u_id (rj_user req)) (reject env req st).2))
     ∧ s_rejected (approval_stats (u_id (rj_user req)) (reject env req st).2)
       = S (s_rejected (approval_stats (u_id (rj_user req)) st))
     ∧ s_approved (approval_stats (u_id (rj_user req)) (reject env req st).2)
       = s_approved (approval_stats (u_id (rj_user req)) st)
     ∧ ∀ v, v ≠ u_id (rj_user req) →
            approval_stats v (reject env req st).2 = approval_stats v st)
  ∧ (∀ req a e c,
     approve_accepts req st a e c →
     s_approved (approval_stats (u_id (ap_user req)) (approve env req st).2)
     = S (s_approved (approval_stats (u_id (ap_user req)) st))
     ∧ s_rejected (approval_stats (u_id (ap_user req)) (approve env req st).2)
       = s_rejected (approval_stats (u_id (ap_user req)) st)
     ∧ ∀ v, v ≠ u_id (ap_user req) →
            s_approved (approval_stats v (approve env req st).2)
            = s_approved (approval_stats v st)
            ∧ s_rejected (approval_stats v (approve env req st).2)
              = s_rejected (approval_stats v st)).
Proof.
  intros Hfresh. split; [| split].
  - intros uid. apply stats_partition.
  - intros req a e Hacc. rewrite (reject_accepted _ _ _ _ _ Hacc).
    destruct Hacc as (_ & Ha & Hu & Hs & _).
    unfold approval_stats; cbn [s_pending s_approved s_rejected snd]; store_simpl.
    assert (∀ v s, (count_status v s
                      (<[rj_id req :=
                           decide_approval t_rejected (Some (rj_reason req))
                             (or_null (rj_comments req)) (date1 env) a]> (approvals st))
                    + counts_as v s a
                    = count_status v s (approvals st)
                      + counts_as v s
                          (decide_approval t_rejected (Some (rj_reason req))
                             (or_null (rj_comments req)) (date1 env) a))%nat) as Hc.
    { intros v s. by apply count_replace. }
    pose proof (Hc (u_id (rj_user req)) t_pending) as H1.
    pose proof (Hc (u_id (rj_user req)) t_rejected) as H2.
    pose proof (Hc (u_id (rj_user req)) t_approved) as H3.
    unfold counts_as in H1, H2, H3; cbn in H1, H2, H3.
    rewrite Hs in H1, H2, H3.
    rewrite decide_True in H1 by done. rewrite decide_False in H1 by (by intros [_ ?]).
    rewrite decide_False in H2 by (by intros [_ ?]). rewrite decide_True in H2 by done.
    rewrite decide_False in H3 by (by intros [_ ?]).
    rewrite decide_False in H3 by (by intros [_ ?]).
    repeat split; try lia.
    intros v Hv. f_equal.
    all: match goal with
         | |- count_status _ ?s _ = _ =>
             pose proof (Hc v s) as H4; unfold counts_as in H4; cbn in H4;
             rewrite !decide_False in H4 by (intros [? _]; congruence); lia
         end.
  - intros req a e c Hacc.
    assert (∀ v s, s ≠ t_pending →
              (count_status v s (approvals (approve env req st).2) + counts_as v s a
               = count_status v s (approvals st)
                 + counts_as v s
                     (decide_approval t_approved None (or_null (ap_comments req))
                        (date1 env) a))%nat) as Hc.
    { intros v s Hsp. pose proof (count_replace v s (approvals st) (ap_id req) a
        (decide_approval t_approved None (or_null (ap_comments req)) (date1 env) a)
        (proj1 Hacc)) as Hrep.
      rewrite (approve_accepted _ _ _ _ _ _ Hacc).
      destruct (shouldApprove _ _ _ _); [exact Hrep |].
      case_decide; [exact Hrep |].
      destruct (find_nextApprover _ _ _ _) as [next |]; [| exact Hrep].
      cbn [snd]; store_simpl.
      rewrite count_insert_fresh.
      - unfold counts_as at 1. cbn [new_Approval a_status a_approver].
        rewrite decide_False by (intros [_ ?]; congruence). lia.
      - rewrite lookup_insert_ne; [done |]. destruct Hacc as (Ha & _). congruence. }
    destruct Hacc as (Ha & Hu & Hs & _).
    pose proof (Hc (u_id (ap_user req)) t_approved ltac:(done)) as H1.
    pose proof (Hc (u_id (ap_user req)) t_rejected ltac:(done)) as H2.
    unfold approval_stats; cbn [s_pending s_approved s_rejected].
    unfold counts_as in H1, H2; cbn in H1, H2. rewrite Hs in H1, H2.
    rewrite decide_False in H1 by (by intros [_ ?]). rewrite decide_True in H1 by done.
    rewrite decide_False in H2 by (by intros [_ ?]).
    rewrite decide_False in H2 by (by intros [_ ?]).
    split; [lia |]. split; [lia |].
    intros v Hv.
    pose proof (Hc v t_approved ltac:(done)) as H3.
    pose proof (Hc v t_rejected ltac:(done)) as H4.
    unfold counts_as in H3, H4; cbn in H3, H4.
    rewrite !decide_False in H3 by (intros [? _]; congruence).
    rewrite !decide_False in H4 by (intros [? _]; congruence).
    split; lia.
Qed.

Lemma stats_follow_decisions_witness :
  s_rejected
    (approval_stats 4
       (reject Scenario.env2 (mkRejectReq (Scenario.person 4) 301 "No receipt" None)
          Scenario.submitted).2)
  = S (s_rejected (approval_stats 4 Scenario.submitted)).
Proof.
  refine (proj1 (proj2 (proj1 (proj2
            (stats_follow_decisions Scenario.env2 Scenario.submitted _))
            (mkRejectReq (Scenario.person 4) 301 "No receipt" None)
            (Scenario.task_of 301 Scenario.submitted)
            (Scenario.expense_of 201 Scenario.submitted) _))).
  - vm_compute; reflexivity.
  - split; [discriminate |]. repeat split; vm_compute; reflexivity.
Defined.

(** ** Failing loads *)

(** X7: when the expense of a pending task, or the company of that expense,
    cannot be loaded, an approve request by the task's approver answers 500
    after it has saved the task as approved: the expense documents are
    untouched, and the same request sent again is refused with 400 because
    the task is no longer pending. *)
Theorem approve_failed_load env req st a :
  approvals st !! ap_id req = Some a →
  a_approver a = u_id (ap_user req) →
  a_status a = t_pending →
  expenses st !! a_expense a = None
  ∨ (∃ e, expenses st !! a_expense a = Some e ∧ companies st !! e_company e = None) →
  approve env req st = (server_error, recorded env req a st)
  ∧ (a_status <$> approvals (approve env req st).2 !! ap_id req) = Some t_approved
  ∧ expenses (approve env req st).2 = expenses st
  ∧ ∀ env', approve env' req (approve env req st).2
            = (Res 400 "This approval has already been processed",
               (approve env req st).2).
Proof.
  intros Ha Hu Hs Hfail.
  assert (approve env req st = (server_error, recorded env req a st)) as ->.
  { unfold approve. rewrite Ha.
    rewrite decide_False by (by intros ?). rewrite decide_False by (by intros ?).
    destruct Hfail as [He | (e & He & Hc)]; rewrite He; [done |].
    cbn [push_approvedBy e_company]. by rewrite Hc. }
  cbn [snd]. split; [done |]. split.
  { unfold recorded; cbn [approvals set_approvals]. by rewrite lookup_insert_eq. }
  split; [done |].
  intros env'. unfold approve at 1.
  unfold recorded at 1; cbn [approvals set_approvals]. rewrite lookup_insert_eq.
  cbn [decide_approval a_approver a_status].
  rewrite decide_False by (by intros ?). by rewrite decide_True.
Qed.

Lemma approve_failed_load_witness :
  approve Demo.env (Demo.by_user 2 1)
    (mkStore (approvals Demo.two_of_three) ∅ (companies Demo.two_of_three) Demo.staff)
  = (server_error,
     recorded Demo.env (Demo.by_user 2 1) (Demo.task 2 1 t_pending)
       (mkStore (approvals Demo.two_of_three) ∅ (companies Demo.two_of_three) Demo.staff)).
Proof.
  refine (proj1 (approve_failed_load Demo.env (Demo.by_user 2 1)
                   (mkStore (approvals Demo.two_of_three) ∅
                      (companies Demo.two_of_three) Demo.staff)
                   (Demo.task 2 1 t_pending) _ _ _ _)).
  - vm_compute; reflexivity.
  - reflexivity.
  - reflexivity.
  - left. vm_compute; reflexivity.
Defined.

(** On a store reached through the three handlers every task has its
    expense and every expense its company: the handler does not fail on a
    document it loads. *)
Lemma approve_answers st env req :
  reachable st → code (approve env req st).1 ∈ [200; 400; 403; 404]%nat.
Proof.
  intros Hr. pose proof (reachable_inv st Hr) as HI.
  unfold approve.
  destruct (approvals st !! ap_id req) as [a |] eqn:Ha; [| by repeat constructor].
  case_decide; [by repeat constructor |]. case_decide; [by repeat constructor |].
  destruct (inv_expense st HI _ _ Ha) as [e He]. rewrite He.
  cbn [push_approvedBy e_company].
  destruct (inv_company st HI _ _ He) as [c Hc]. rewrite Hc.
  repeat case_match; by repeat constructor.
Qed.

(** ** Who can decide *)

Lemma User_findById_id i us u :
  User_findById (Some i) us = Some u → u_id u = i ∧ u ∈ us.
Proof.
  unfold User_findById. intros H.
  apply head_Some_elem_of in H. by apply list_elem_of_filter in H.
Qed.

Lemma auth_user tok us u :
  auth tok us = inr u →
  ∃ id, tok = token_of id ∧ User_findById (Some id) us = Some u
        ∧ u_isActive u = true.
Proof.
  unfold auth. destruct tok as [| | id]; [discriminate | discriminate |].
  destruct (User_findById (Some id) us) as [u' |] eqn:Hf; [| discriminate].
  destruct (u_isActive u') eqn:Hact; [| discriminate].
  intros [= <-]. by exists id.
Qed.

Lemma auth_refusal tok us r : auth tok us = inl r → code r = 401%nat.
Proof.
  unfold auth. destruct tok as [| | id]; [by intros [= <-] | by intros [= <-] |].
  destruct (User_findById (Some id) us) as [u |]; [| by intros [= <-]].
  destruct (u_isActive u); [discriminate | by intros [= <-]].
Qed.

(** X8: on a store reached through the three handlers the approve route
    answers 500 exactly when an authenticated manager or admin, whose
    [comments] pass the validator, names an id that does not cast to an
    [ObjectId]; nothing is written then.  Every other request is answered
    200, 400, 401, 403 or 404: no document the handler loads is missing. *)
Theorem approve_fails_only_on_malformed_id st env tok id comments :
  reachable st →
  code (approve_request env tok id comments st).1 ∈ [200; 400; 401; 403; 404; 500]%nat
  ∧ (code (approve_request env tok id comments st).1 = 500%nat
     ↔ id = malformed ∧ comments ≠ other_value
       ∧ ∃ u, auth tok (users st) = inr u ∧ u_role u ∈ [manager; admin])
  ∧ (id = malformed → (approve_request env tok id comments st).2 = st).
Proof.
  intros Hr. unfold approve_request.
  destruct (auth tok (users st)) as [r | u] eqn:Hauth.
  { apply auth_refusal in Hauth. cbn [fst snd]. rewrite Hauth.
    split; [by repeat constructor |]. split; [| done].
    split; [done | by intros (_ & _ & u & [=] & _)]. }
  unfold authorize. case_decide as Hrole; cbn [fst snd code].
  2: { split; [by repeat constructor |]. split; [| done].
       split; [done |]. intros (_ & _ & u' & [= <-] & Hin). done. }
  assert (∀ req, code (approve env req st).1 ≠ 500%nat) as Hno.
  { intros req E. pose proof (approve_answers st env req Hr) as Hin.
    rewrite E in Hin.
    repeat (apply elem_of_cons in Hin as [Hin | Hin]; [discriminate |]).
    by apply elem_of_nil in Hin. }
  assert (∀ req, code (approve env req st).1 ∈ [200; 400; 401; 403; 404; 500]%nat)
    as Hin.
  { intros req. pose proof (approve_answers st env req Hr) as Hin.
    repeat (apply elem_of_cons in Hin as [-> | Hin]; [by repeat constructor |]).
    by apply elem_of_nil in Hin. }
  destruct comments as [| s |], id as [i |]; cbn [fst snd code].
  all: split; [first [apply Hin | by repeat constructor] |].
  all: split; [| first [done | by intros [=]]].
  all: split;
    [ first [ by intros E; apply Hno in E | done | intros _; by eauto 10 ]
    | first [ by intros ([=] & _) | by intros (_ & Hc & _) | done ] ].
Qed.

Lemma approve_fails_only_on_malformed_id_witness :
  code (approve_request Scenario.env2 (token_of 4) malformed absent
          Scenario.submitted).1 = 500%nat.
Proof.
  refine (proj2 (proj1 (proj2
    (approve_fails_only_on_malformed_id Scenario.submitted Scenario.env2
       (token_of 4) malformed absent _))) _).
  - apply submitted_reachable.
  - split; [done |]. split; [done |].
    exists (Scenario.person 4). split; [reflexivity |]. vm_compute. by left.
Defined.

(** X9: a task whose approver cannot pass the middleware is blocked: when
    the user document found for the approver's id is deactivated or has the
    role employee, no token makes the approve or the reject route change
    the store. *)
Theorem unreachable_approver_blocks_task st i a :
  approvals st !! i = Some a →
  (∀ u, User_findById (Some (a_approver a)) (users st) = Some u →
        u_isActive u = false ∨ u_role u = employee) →
  ∀ env tok comments reason,
    (approve_route env tok i comments st).2 = st
    ∧ (reject_route env tok i reason comments st).2 = st.
Proof.
  intros Ha Hblocked env tok comments reason.
  unfold approve_route, reject_route.
  destruct (auth tok (users st)) as [r | u] eqn:Hauth; [done |].
  destruct (auth_user _ _ _ Hauth) as (id & -> & Hfind & Hact).
  destruct (User_findById_id _ _ _ Hfind) as [Hid _].
  unfold authorize. case_decide as Hrole; [| done].
  assert (a_approver a ≠ u_id u) as Hother.
  { intros Heq. rewrite Heq, Hid in Hblocked.
    destruct (Hblocked u Hfind) as [Hina | Hemp]; [congruence |].
    rewrite Hemp in Hrole. apply elem_of_cons in Hrole as [? | Hrole]; [done |].
    apply elem_of_cons in Hrole as [? | Hrole]; [done |].
    by apply elem_of_nil in Hrole. }
  split.
  - unfold approve; cbn [ap_id ap_user]. rewrite Ha. by rewrite decide_True.
  - unfold reject; cbn [rj_id rj_user rj_reason]. case_decide; [done |].
    rewrite Ha. by rewrite decide_True.
Qed.

Lemma unreachable_approver_blocks_task_witness :
  (approve_route Scenario.env1 (token_of 8) 301 None
     (set_approvals {[301%nat := new_Approval 201 8 2 0]} Scenario.opening)).2
  = set_approvals {[301%nat := new_Approval 201 8 2 0]} Scenario.opening.
Proof.
  refine (proj1 (unreachable_approver_blocks_task
                   (set_approvals {[301%nat := new_Approval 201 8 2 0]} Scenario.opening)
                   301%nat (new_Approval 201 8 2 0) _ _
                   Scenario.env1 (token_of 8) None "")).
  - vm_compute; reflexivity.
  - intros u Hu. vm_compute in Hu. injection Hu as <-. by left.
Defined.

(** ** Soft deletion *)

Lemma deactivate_ids id company us us' :
  deactivate id company us = Some us' →
  Forall2 (λ u u', u_id u' = u_id u ∧ u_company u' = u_company u
                   ∧ u_role u' = u_role u ∧ u_manager u' = u_manager u) us us'.
Proof.
  revert us'. induction us as [| u us IH]; intros us' H; cbn in H; [done |].
  case_decide.
  - injection H as <-. constructor; [done |].
    apply Forall_Forall2_diag, Forall_true. done.
  - destruct (deactivate id company us) as [us0 |]; [| done].
    injection H as <-. constructor; [done |]. by apply IH.
Qed.

Lemma findOne_ids company role us us' :
  Forall2 (λ u u', u_id u' = u_id u ∧ u_company u' = u_company u
                   ∧ u_role u' = u_role u ∧ u_manager u' = u_manager u) us us' →
  u_id <$> User_findOne company role us' = u_id <$> User_findOne company role us.
Proof.
  unfold User_findOne. induction 1 as [| u u' us us' (Hi & Hc & Hr & _) _ IH]; [done |].
  destruct (decide (u_company u = company ∧ u_role u = role)) as [Hp | Hp].
  - rewrite !filter_cons_True by (by rewrite ?Hc, ?Hr). cbn. by rewrite Hi.
  - rewrite !filter_cons_False by (by rewrite ?Hc, ?Hr). done.
Qed.

Lemma findById_ids m us us' :
  Forall2 (λ u u', u_id u' = u_id u ∧ u_company u' = u_company u
                   ∧ u_role u' = u_role u ∧ u_manager u' = u_manager u) us us' →
  u_id <$> User_findById m us' = u_id <$> User_findById m us.
Proof.
  destruct m as [i |]; [| done]. unfold User_findById.
  induction 1 as [| u u' us us' (Hi & _) _ IH]; [done |].
  destruct (decide (u_id u = i)) as [Hp | Hp].
  - rewrite !filter_cons_True by (by rewrite ?Hi). cbn. by rewrite Hi.
  - rewrite !filter_cons_False by (by rewrite ?Hi). done.
Qed.

(** X10: deleting a user only clears [isActive]: tasks, expenses and
    companies are untouched, and the lookups of the workflow still find the
    same users, so a deleted manager or admin is still chosen as the next
    approver and a deleted manager still receives the level-1 task of a
    submission. *)
Theorem soft_delete_keeps_resolution tok id st :
  approvals (delete_user_route tok id st).2 = approvals st
  ∧ expenses (delete_user_route tok id st).2 = expenses st
  ∧ companies (delete_user_route tok id st).2 = companies st
  ∧ (∀ s company n,
       find_nextApprover s company n (users (delete_user_route tok id st).2)
       = find_nextApprover s company n (users st))
  ∧ (∀ m,
       u_id <$> User_findById m (users (delete_user_route tok id st).2)
       = u_id <$> User_findById m (users st)).
Proof.
  unfold delete_user_route.
  destruct (auth tok (users st)) as [r | u]; [done |].
  destruct (authorize [admin] (Some u)); [done |].
  destruct (deactivate id (u_company u) (users st)) as [us |] eqn:Hd; [| done].
  cbn [snd set_users approvals expenses companies users].
  pose proof (deactivate_ids _ _ _ _ Hd) as Hids.
  repeat split.
  - intros s company n. unfold find_nextApprover. case_decide; [done |].
    by apply findOne_ids.
  - intros m. by apply findById_ids.
Qed.

Lemma deactivate_member id company us us' :
  deactivate id company us = Some us' → id ∈ u_id <$> us.
Proof.
  revert us'. induction us as [| u us IH]; intros us' H; cbn in H; [done |].
  rewrite fmap_cons. case_decide as Hu.
  - destruct Hu as [<- _]. by left.
  - destruct (deactivate id company us) as [us0 |]; [| done].
    right. by eapply IH.
Qed.

Lemma deactivate_found id company us us' :
  deactivate id company us = Some us' → NoDup (u_id <$> us) →
  ∃ u', User_findById (Some id) us' = Some u' ∧ u_isActive u' = false.
Proof.
  revert us'. induction us as [| u us IH]; intros us' H Hnd; cbn in H; [done |].
  rewrite fmap_cons in Hnd. apply NoDup_cons in Hnd as [Hu Hnd].
  case_decide as Hm.
  - injection H as <-. exists (deactivated u). split; [| done].
    unfold User_findById. rewrite filter_cons_True by (cbn; apply Hm). done.
  - destruct (deactivate id company us) as [us0 |] eqn:Hd; [| done].
    injection H as <-.
    destruct (IH us0 eq_refl Hnd) as (u' & Hf & Hact).
    exists u'. split; [| done].
    unfold User_findById in *. rewrite filter_cons_False; [done |].
    intros <-. apply Hu. by eapply deactivate_member.
Qed.

(** X11: once an admin has deleted a user, and user ids being unique, the
    deleted user's token is refused with 401, and every task assigned to
    that user is blocked: no token makes the approve or the reject route
    change the store. *)
Theorem deleted_user_is_locked_out tok id st :
  code (delete_user_route tok id st).1 = 200%nat →
  NoDup (u_id <$> users st) →
  auth (token_of id) (users (delete_user_route tok id st).2)
  = inl (Res 401 "User account is deactivated")
  ∧ ∀ i a, approvals (delete_user_route tok id st).2 !! i = Some a →
      a_approver a = id →
      ∀ env tok' comments reason,
        (approve_route env tok' i comments (delete_user_route tok id st).2).2
        = (delete_user_route tok id st).2
        ∧ (reject_route env tok' i reason comments (delete_user_route tok id st).2).2
          = (delete_user_route tok id st).2.
Proof.
  intros Hok Hnd.
  assert (∃ u', User_findById (Some id) (users (delete_user_route tok id st).2) = Some u'
                ∧ u_isActive u' = false) as (u' & Hf & Hact).
  { revert Hok. unfold delete_user_route.
    destruct (auth tok (users st)) as [r | u] eqn:Hauth.
    { cbn [fst]. rewrite (auth_refusal _ _ _ Hauth). discriminate. }
    unfold authorize. case_decide; [| cbn; discriminate].
    destruct (deactivate id (u_company u) (users st)) as [us |] eqn:Hd; [| done].
    intros _. cbn [snd set_users users]. by eapply deactivate_found. }
  split.
  - unfold auth. by rewrite Hf, Hact.
  - intros i a Ha Hu env tok' comments reason.
    pose proof (User_findById_id _ _ _ Hf) as [Hid _].
    unfold approve_route, reject_route.
    destruct (auth tok' _) as [r | u] eqn:Hauth; [done |].
    destruct (auth_user _ _ _ Hauth) as (j & -> & Hfind & Hactive).
    destruct (User_findById_id _ _ _ Hfind) as [Hj _].
    unfold authorize. case_decide as Hrole; [| done].
    assert (a_approver a ≠ u_id u) as Hother.
    { intros Heq. assert (j = id) as -> by congruence.
      assert (u = u') as -> by congruence. congruence. }
    split.
    + unfold approve; cbn [ap_id ap_user]. rewrite Ha. by rewrite decide_True.
    + unfold reject; cbn [rj_id rj_user rj_reason]. case_decide; [done |].
      rewrite Ha. by rewrite decide_True.
Qed.

Lemma deleted_user_is_locked_out_witness :
  auth (token_of 2) (users (delete_user_route (token_of 1) 2 Scenario.filed).2)
  = inl (Res 401 "User account is deactivated").
Proof.
  refine (proj1 (deleted_user_is_locked_out (token_of 1) 2 Scenario.filed _ _)).
  - vm_compute; reflexivity.
  - apply (bool_decide_unpack _). vm_compute. exact I.
Defined.

(** ** Reading expenses *)

(** X12: the expense list never leaves the requester's company; an employee
    who names no employee sees only own expenses, a manager own ones and
    those of users whose manager they are; but a request that names an
    employee gets that employee's expenses whatever the requester's role:
    the parameter replaces the restriction derived from the role. *)
Theorem expense_list_scope u q st :
  (∀ k e, get_expenses u q st !! k = Some e →
     expenses st !! k = Some e ∧ e_company e = u_company u)
  ∧ (u_role u = employee → q_employee q = None →
     ∀ k e, get_expenses u q st !! k = Some e → e_employee e = u_id u)
  ∧ (u_role u = manager → q_employee q = None →
     ∀ k e, get_expenses u q st !! k = Some e →
       e_employee e = u_id u
       ∨ ∃ m, m ∈ users st ∧ u_id m = e_employee e
              ∧ u_manager m = Some (u_id u) ∧ u_company m = u_company u)
  ∧ (∀ emp u', q_employee q = Some emp → u_company u' = u_company u →
     get_expenses u' q st = get_expenses u q st).
Proof.
  unfold get_expenses. split; [| split; [| split]].
  - intros k e Hk. apply map_lookup_filter_Some in Hk as [Hk (Hc & _)]. done.
  - intros Hr Hq k e Hk. apply map_lookup_filter_Some in Hk as [Hk (_ & He & _)].
    cbn in He. unfold employee_condition in He. by rewrite Hq, Hr in He.
  - intros Hr Hq k e Hk. apply map_lookup_filter_Some in Hk as [Hk (_ & He & _)].
    cbn in He. unfold employee_condition in He. rewrite Hq, Hr in He.
    apply elem_of_cons in He as [He | He]; [by left |]. right.
    unfold teamMemberIds in He. apply list_elem_of_fmap in He as (m & Hm & Hin).
    apply list_elem_of_filter in Hin as [[Hmgr Hco] Hin].
    exists m. by repeat split.
  - intros emp u' Hq Hco. apply map_filter_ext. intros k e _. cbn.
    unfold list_condition, employee_condition. by rewrite Hq, Hco.
Qed.

(** An employee reads, through the list, an expense of a colleague that the
    route by id refuses. *)
Example colleague_expense_listed :
  get_expenses (Scenario.person 7)
    (mkListQuery None None (Some 5%nat) None None None) Scenario.submitted !! 201%nat
  = Some (Scenario.expense_of 201 Scenario.submitted)
  ∧ get_expense_route (token_of 7) None None (well_formed 201) Scenario.submitted
    = inl (Res 403 "Access denied").
Proof. split; vm_compute; reflexivity. Qed.

(** What the handler of the route by id returns. *)
Lemma get_expense_found u id st e :
  get_expense u id st = inr e
  ↔ expenses st !! id = Some e
    ∧ e_company e = u_company u
    ∧ (u_role u = employee →
       e_employee e = u_id u
       ∧ is_Some (User_findById (Some (e_employee e)) (users st))).
Proof.
  unfold get_expense. split.
  - destruct (expenses st !! id) as [e0 |]; [| done].
    case_decide as Hc; [done |].
    case_decide as Hr.
    + destruct (User_findById _ _) as [emp |] eqn:Hf; [| done].
      case_decide as Hid; [done |]. intros [= ->].
      destruct (User_findById_id _ _ _ Hf) as [He _].
      split; [done |]. split; [done |]. intros _. split; [congruence | done].
    + intros [= ->]. by repeat split.
  - intros (-> & Hc & Hemp). rewrite decide_False by (by intros ?).
    case_decide as Hr; [| done].
    destruct (Hemp Hr) as [Hown [emp Hf]]. rewrite Hf.
    destruct (User_findById_id _ _ _ Hf) as [He _].
    rewrite decide_False; [done |]. intros ?. congruence.
Qed.

Lemma checkCompanyAccess_passes u bc qc :
  checkCompanyAccess (Some u) None bc qc = None
  ↔ u_role u = admin ∨ ∀ cid, first_given None bc qc = Some cid → cid = u_company u.
Proof.
  unfold checkCompanyAccess. case_decide as Hr; [by split; [left |] |].
  destruct (first_given None bc qc) as [cid |].
  - case_decide as Hc.
    + split; [done |]. intros [? | Hq]; [done |].
      destruct Hc. symmetry. by apply Hq.
    + split; [| done]. intros _. right. by intros ? [= <-].
  - split; [| done]. intros _. by right.
Qed.

(** X13: the route by id returns an expense exactly when the token is that
    of an active user; the request names, in its body or query, no company
    other than the requester's own, unless the requester is an admin; the
    id casts; and the expense stored under it is in the requester's company
    and, for a requester with the role employee, is the requester's own and
    its employee document exists. *)
Theorem expense_by_id_scope tok body_company query_company id st e :
  get_expense_route tok body_company query_company id st = inr e
  ↔ ∃ u i,
      auth tok (users st) = inr u
      ∧ (u_role u = admin
         ∨ ∀ cid, first_given None body_company query_company = Some cid →
                  cid = u_company u)
      ∧ id = well_formed i
      ∧ expenses st !! i = Some e
      ∧ e_company e = u_company u
      ∧ (u_role u = employee →
         e_employee e = u_id u
         ∧ is_Some (User_findById (Some (e_employee e)) (users st))).
Proof.
  unfold get_expense_route. split.
  - destruct (auth tok (users st)) as [r | u]; [done |].
    destruct (checkCompanyAccess (Some u) None body_company query_company)
      as [r |] eqn:Hacc; [done |].
    destruct id as [i |]; [| done]. intros Hget.
    apply get_expense_found in Hget as (He & Hc & Hemp).
    exists u, i. split; [done |].
    split; [by apply checkCompanyAccess_passes |]. done.
  - intros (u & i & -> & Hacc & -> & He & Hc & Hemp).
    apply checkCompanyAccess_passes in Hacc. rewrite Hacc.
    by apply get_expense_found.
Qed.

(** An employee who names another company is refused although the expense
    is their own. *)
Example own_expense_refused_with_company :
  get_expense_route (token_of 5) None (Some 10%nat) (well_formed 201) Scenario.submitted
  = inl (Res 403 "Access denied. You can only access your own company data.")
  ∧ get_expense_route (token_of 5) None None (well_formed 201) Scenario.submitted
    = inr (Scenario.expense_of 201 Scenario.submitted).
Proof. split; vm_compute; reflexivity. Qed.

(** X14: a company named in the query or the body never selects what is
    listed: it can only turn the answer into a refusal, and a request that
    is answered with a list gets the list it would get without naming a
    company, expenses of the requester's own company only, administrators
    included. *)
Theorem company_parameter_only_gates tok body_company q st m :
  get_expenses_route tok body_company q st = inr m →
  get_expenses_route tok None (without_company q) st = inr m
  ∧ ∃ u, auth tok (users st) = inr u
         ∧ ∀ k e, m !! k = Some e → e_company e = u_company u.
Proof.
  unfold get_expenses_route.
  destruct (auth tok (users st)) as [r | u]; [done |].
  destruct (checkCompanyAccess (Some u) None body_company (q_company q)); [done |].
  intros [= <-].
  assert (get_expenses u (without_company q) st = get_expenses u q st) as Heq.
  { unfold get_expenses. apply map_filter_ext. intros k e _. cbn.
    by unfold list_condition, employee_condition. }
  split.
  - rewrite Heq. unfold checkCompanyAccess, without_company; cbn [q_company first_given].
    by case_decide.
  - exists u. split; [done |]. intros k e Hk.
    unfold get_expenses in Hk. by apply map_lookup_filter_Some in Hk as [_ (Hc & _)].
Qed.

Lemma company_parameter_only_gates_witness :
  get_expenses_route (token_of 1) None
    (without_company (mkListQuery None None None None None (Some 11%nat)))
    Scenario.submitted
  = inr (get_expenses (Scenario.person 1)
           (mkListQuery None None None None None (Some 11%nat)) Scenario.submitted).
Proof.
  refine (proj1 (company_parameter_only_gates (token_of 1) None
                   (mkListQuery None None None None None (Some 11%nat))
                   Scenario.submitted _ _)).
  vm_compute; reflexivity.
Defined.

(** ** Editing *)

Lemma update_cases ops env req st :
  (update_expense ops env req st).2 = st
  ∨ ∃ e e',
      edit_of ops env req st e e'
      ∧ update_expense ops env req st
        = (Res 200 "Expense updated successfully",
           set_expenses (<[up_id req := e']> (expenses st)) st).
Proof.
  unfold update_expense.
  case_decide; [by left |].
  destruct (expenses st !! up_id req) as [e |] eqn:He; [| by left].
  case_decide as Hc; [by left |].
  case_decide as Hown; [by left |].
  case_decide as Hs; [by left |].
  assert (u_role (up_user req) = employee → e_employee e = u_id (up_user req)) as Hown'.
  { intros Hr. destruct (decide (e_employee e = u_id (up_user req))); [done |].
    destruct Hown. by split. }
  case_decide as Hconv.
  - destruct (companies st !! u_company (up_user req)) as [company |] eqn:Hco; [| by left].
    destruct (convertCurrency _ _ _ _) as [[converted rate] |] eqn:Hcc; [| by left].
    unfold save_edit. destruct (validates ops _) eqn:Hv; [| by left].
    right. eexists e, _. split; [| reflexivity].
    repeat split; try done.
    rewrite decide_True by done. exists company. by split.
  - unfold save_edit. destruct (validates ops _) eqn:Hv; [| by left].
    right. eexists e, _. split; [| reflexivity].
    repeat split; try done.
    by rewrite decide_False.
Qed.

(** X15: an edit writes at most the expense it names, and only when that
    expense is pending, belongs to the requester's company and, for a
    requester with the role employee, is the requester's own; it never
    changes the owner, the status, the current approver, the level or the
    histories, nor any task, company or user; the converted amount and rate
    are recomputed exactly when an amount or a currency is given. *)
Theorem edit_touches_only_open_own_expense ops env req st :
  approvals (update_expense ops env req st).2 = approvals st
  ∧ companies (update_expense ops env req st).2 = companies st
  ∧ users (update_expense ops env req st).2 = users st
  ∧ (∀ k, k ≠ up_id req →
       expenses (update_expense ops env req st).2 !! k = expenses st !! k)
  ∧ (expenses (update_expense ops env req st).2 !! up_id req
     = expenses st !! up_id req
     ∨ ∃ e e', edit_of ops env req st e e'
               ∧ expenses (update_expense ops env req st).2 !! up_id req = Some e').
Proof.
  destruct (update_cases ops env req st) as [-> | (e & e' & Hedit & ->)].
  - repeat split; try done. by left.
  - cbn [snd set_expenses approvals expenses companies users].
    repeat split; try done.
    + intros k Hk. by rewrite lookup_insert_ne.
    + right. exists e, e'. split; [done |]. apply lookup_insert_eq.
Qed.

(** ** Edits and the workflow *)

Lemma same_workflow_refl e : same_workflow e e.
Proof. by repeat split. Qed.

Lemma edited_lookup (m : gmap nat Expense) k e e' j x :
  m !! k = Some e → same_workflow e e' →
  <[k := e']> m !! j = Some x →
  ∃ y, m !! j = Some y ∧ same_workflow y x.
Proof.
  intros Hk Hsw Hx. apply lookup_insert_Some in Hx as [[<- <-] | [Hne Hx]].
  - by exists e.
  - exists x. split; [done | apply same_workflow_refl].
Qed.

Lemma edited_lookup_rev (m : gmap nat Expense) k e e' j y :
  m !! k = Some e → same_workflow e e' →
  m !! j = Some y →
  ∃ x, <[k := e']> m !! j = Some x ∧ same_workflow y x.
Proof.
  intros Hk Hsw Hy. destruct (decide (k = j)) as [<- | Hne].
  - exists e'. rewrite lookup_insert_eq. split; [done |]. congruence.
  - exists y. rewrite lookup_insert_ne by done. split; [done | apply same_workflow_refl].
Qed.

Section Edit.
Context (st : Store) (k : ObjectId) (e e' : Expense).
Context (Hk : expenses st !! k = Some e) (Hsw : same_workflow e e').

Let st' := set_expenses (<[k := e']> (expenses st)) st.

Lemma inv_edit : Inv st → Inv st'.
Proof using Hk Hsw.
  intros HI. split; subst st'; cbn [set_expenses approvals expenses companies users].
  - intros j x Hx. destruct (edited_lookup _ _ _ _ _ _ Hk Hsw Hx) as (y & Hy & Hyx).
    destruct Hyx as (_ & -> & _). by eapply inv_company.
  - intros i a Ha. destruct (inv_expense st HI i a Ha) as [y Hy].
    destruct (edited_lookup_rev _ _ _ _ _ _ Hk Hsw Hy) as (x & Hx & _). by exists x.
  - intros i a Ha Hs. destruct (inv_pending st HI i a Ha Hs) as (y & Hy & Hp & Hc).
    destruct (edited_lookup_rev _ _ _ _ _ _ Hk Hsw Hy) as (x & Hx & Hyx).
    destruct Hyx as (_ & _ & Hst & Hcur & _). exists x. by rewrite Hst, Hcur.
  - apply (inv_latest st HI).
  - apply (inv_levels st HI).
  - intros j x Hx. destruct (edited_lookup _ _ _ _ _ _ Hk Hsw Hx) as (y & Hy & Hyx).
    destruct Hyx as (_ & _ & Hst & Hcur & _).
    unfold workflow_consistent, stalled. rewrite Hst, Hcur.
    apply (inv_workflow st HI j y Hy).
Qed.

Lemma levels_edit : levels_wf st → levels_wf st'.
Proof using Hk Hsw.
  intros HL. split; subst st'; cbn [set_expenses approvals expenses companies users].
  - apply (lv_range st HL).
  - apply (lv_gapless st HL).
  - intros i a x Ha Hs Hx.
    destruct (edited_lookup _ _ _ _ _ _ Hk Hsw Hx) as (y & Hy & Hyx).
    destruct Hyx as (_ & _ & _ & _ & -> & _). by eapply lv_sync.
Qed.

Lemma audit_edit : audit_wf st → audit_wf st'.
Proof using Hk Hsw.
  intros HA. split; subst st'; cbn [set_expenses approvals expenses companies users].
  - intros i a x Ha Hx Hs.
    destruct (edited_lookup _ _ _ _ _ _ Hk Hsw Hx) as (y & Hy & Hyx).
    destruct Hyx as (_ & _ & _ & _ & _ & _ & _ & -> & _). by eapply au_approved.
  - intros i a x Ha Hx Hs.
    destruct (edited_lookup _ _ _ _ _ _ Hk Hsw Hx) as (y & Hy & Hyx).
    destruct Hyx as (_ & _ & -> & _ & _ & _ & _ & _ & ->). by eapply au_rejected.
  - intros j x ev Hx Hev.
    destruct (edited_lookup _ _ _ _ _ _ Hk Hsw Hx) as (y & Hy & Hyx).
    destruct Hyx as (_ & _ & _ & _ & _ & _ & _ & Hab & _). rewrite Hab in Hev.
    by eapply au_approvedBy.
  - intros j x ev Hx Hev.
    destruct (edited_lookup _ _ _ _ _ _ Hk Hsw Hx) as (y & Hy & Hyx).
    destruct Hyx as (_ & _ & _ & _ & _ & _ & _ & _ & Hrb). rewrite Hrb in Hev.
    by eapply au_rejectedBy.
  - intros j x Hx.
    destruct (edited_lookup _ _ _ _ _ _ Hk Hsw Hx) as (y & Hy & Hyx).
    destruct Hyx as (_ & _ & _ & _ & _ & _ & _ & _ & ->). by eapply au_once.
Qed.

Lemma waiting_edit : waiting_wf st → waiting_wf st'.
Proof using Hk Hsw.
  intros HW j x u Hx Hp Hcur. subst st'.
  cbn [set_expenses approvals expenses companies users] in *.
  destruct (edited_lookup _ _ _ _ _ _ Hk Hsw Hx) as (y & Hy & Hyx).
  destruct Hyx as (_ & _ & Hst & Hc & _). rewrite Hst in Hp. rewrite Hc in Hcur.
  by eapply HW.
Qed.
End Edit.

Lemma edit_of_same_workflow ops env req st e e' :
  edit_of ops env req st e e' → expenses st !! up_id req = Some e ∧ same_workflow e e'.
Proof. intros (? & _ & _ & _ & ? & _). done. Qed.

Lemma edits_reachable_invariants ops st :
  reachable_with_edits ops st →
  Inv st ∧ levels_wf st ∧ audit_wf st ∧ waiting_wf st.
Proof.
  induction 1 as [st Hinit | st env act _ (HI & HL & HA & HW) Hfresh
                  | st env req _ (HI & HL & HA & HW)].
  - auto using inv_initial, levels_initial, audit_initial, waiting_initial.
  - pose proof (run_transition env act st HI Hfresh) as Htr.
    split; [by apply run_preserves_inv |].
    split; [by eapply levels_step |].
    split; [by eapply audit_step | by eapply waiting_step].
  - destruct (update_cases ops env req st) as [-> | (e & e' & Hedit & ->)]; [done |].
    destruct (edit_of_same_workflow _ _ _ _ _ _ Hedit) as [Hk Hsw]. cbn [snd].
    split; [by eapply inv_edit |].
    split; [by eapply levels_edit |].
    split; [by eapply audit_edit | by eapply waiting_edit].
Qed.

(** X16: edits do not disturb the workflow: in every store reached by
    submissions, edits and approve or reject decisions, an expense is
    pending with a current approver, or approved or rejected without one,
    or stalled since its submission; an expense has at most one pending
    task; a pending task belongs to a pending expense that names the task's
    approver and level; and every pending expense with a current approver
    has its pending task. *)
Theorem edits_keep_workflow ops st :
  reachable_with_edits ops st →
  (∀ k e, expenses st !! k = Some e → workflow_consistent e ∨ stalled st k e)
  ∧ (∀ i j a b,
     approvals st !! i = Some a → approvals st !! j = Some b →
     a_expense a = a_expense b →
     a_status a = t_pending → a_status b = t_pending → i = j)
  ∧ (∀ i a,
     approvals st !! i = Some a → a_status a = t_pending →
     ∃ e, expenses st !! a_expense a = Some e
          ∧ e_status e = pending ∧ e_currentApprover e = Some (a_approver a)
          ∧ e_approvalLevel e = a_level a)
  ∧ (∀ k e u,
     expenses st !! k = Some e → e_status e = pending →
     e_currentApprover e = Some u →
     ∃ i a, approvals st !! i = Some a ∧ a_expense a = k
            ∧ a_approver a = u ∧ a_status a = t_pending).
Proof.
  intros Hr. destruct (edits_reachable_invariants ops st Hr) as (HI & HL & HA & HW).
  split; [apply (inv_workflow st HI) |]. split; [| split; [| exact HW]].
  - intros i j a b Ha Hb Hab Hpa Hpb.
    destruct (decide (i = j)) as [| Hij]; [done |].
    destruct (inv_latest st HI i j a b Ha Hb Hab Hpa Hij) as [_ ?]. congruence.
  - intros i a Ha Hs. destruct (inv_pending st HI i a Ha Hs) as (e & He & Hp & Hc).
    exists e. repeat split; try done. by eapply lv_sync.
Qed.

Lemma edits_keep_workflow_witness :
  workflow_consistent (Scenario.expense_of 201 Scenario.escalated)
  ∨ stalled Scenario.escalated 201 (Scenario.expense_of 201 Scenario.escalated).
Proof.
  refine (proj1 (edits_keep_workflow (mkSchemaOps (λ s, s) (λ _, true)) Scenario.escalated _)
            201%nat (Scenario.expense_of 201 Scenario.escalated) _).
  - apply reach_e_step; [apply reach_e_step |].
    + by apply reach_e_init.
    + by split.
    + split; vm_compute; reflexivity.
  - vm_compute; reflexivity.
Defined.

(** ** Amounts *)

Lemma convertCurrency_wf amount from to r converted rate :
  convertCurrency amount from to r = Some (converted, rate) →
  (converted = amount ∧ rate = 1%float)
  ∨ (converted = (amount * rate)%float ∧ falsy rate = false).
Proof.
  unfold convertCurrency. case_decide.
  - intros [= <- <-]. by left.
  - destruct r as [r |]; [| done]. destruct (falsy r) eqn:Hf; [done |].
    intros [= <- <-]. by right.
Qed.

Lemma money_submit env req st :
  (∀ k e, expenses st !! k = Some e → money_wf e) →
  ∀ k e, expenses (submit env req st).2 !! k = Some e → money_wf e.
Proof.
  intros Hm k e. unfold submit.
  case_decide; [apply Hm |].
  destruct (companies st !! u_company (sb_user req)) as [c |]; [| apply Hm].
  destruct (convertCurrency _ _ _ _) as [[converted rate] |] eqn:Hcc; [| apply Hm].
  apply convertCurrency_wf in Hcc.
  cbv zeta. destruct (expense_valid _); [| apply Hm].
  destruct (User_findById _ _) as [mgr |]; cbn [snd set_expenses set_approvals expenses];
    intros He; split_lookups; eauto.
Qed.

Lemma money_decision st st' :
  (∀ k e, expenses st !! k = Some e →
     ∃ e', expenses st' !! k = Some e' ∧ same_money e e') →
  (∀ k, expenses st !! k = None → expenses st' !! k = None) →
  (∀ k e, expenses st !! k = Some e → money_wf e) →
  ∀ k e, expenses st' !! k = Some e → money_wf e.
Proof.
  intros Hsome Hnone Hm k e' He'.
  destruct (expenses st !! k) as [e |] eqn:He.
  - destruct (Hsome k e He) as (e'' & He'' & Ha & _ & Hc & Hr).
    assert (e'' = e') as -> by congruence.
    unfold money_wf. rewrite Ha, Hc, Hr. by apply (Hm k).
  - rewrite (Hnone k He) in He'. done.
Qed.

Lemma money_edit ops env req st e e' :
  edit_of ops env req st e e' → money_wf e → money_wf e'.
Proof.
  intros (_ & _ & _ & _ & _ & _ & Ha & _ & Hconv) Hm.
  case_decide as Hgiven.
  - destruct Hconv as (company & _ & Hcc). by apply convertCurrency_wf in Hcc.
  - destruct Hconv as [Hc Hr]. unfold money_wf. rewrite Hc, Hr, Ha.
    destruct (up_amount req) as [x |]; [| done].
    destruct Hgiven. left. by eexists.
Qed.

(** X17: in every store reached by submissions, edits and approve or reject
    decisions, the amounts of an expense agree with its rate: either the
    converted amount is the amount and the rate is 1, or the converted
    amount is the amount times a rate that is neither zero nor NaN. *)
Theorem amounts_agree_with_rate ops st :
  reachable_with_edits ops st →
  ∀ k e, expenses st !! k = Some e → money_wf e.
Proof.
  induction 1 as [st [_ He] | st env act _ IH Hfresh | st env req _ IH].
  - intros k e Hk. rewrite He in Hk. by rewrite lookup_empty in Hk.
  - destruct act as [req | req | req]; cbn [run].
    + by apply money_submit.
    + destruct (approve_effect_expenses env req st _ (approve_outcomes env req st))
        as (Hsome & Hnone & _).
      eapply (money_decision st); [| done | done].
      intros k e Hk. destruct (Hsome k e Hk) as (e' & ? & _ & ? & _). by exists e'.
    + destruct (reject_effect env req st _ (reject_outcomes env req st))
        as (_ & _ & Hsome & Hnone & _).
      eapply (money_decision st); [| done | done].
      intros k e Hk. destruct (Hsome k e Hk) as (e' & ? & _ & ? & _). by exists e'.
  - destruct (update_cases ops env req st) as [-> | (e & e' & Hedit & ->)]; [done |].
    cbn [snd set_expenses expenses]. intros k x Hx.
    apply lookup_insert_Some in Hx as [[<- <-] | [Hne Hx]]; [| by eapply IH].
    eapply money_edit; [done |]. eapply IH. by destruct Hedit as (? & _).
Qed.

Example revised_amounts :
  e_amount (Scenario.expense_of 201 Revision.revised) = 84%float
  ∧ e_currency (Scenario.expense_of 201 Revision.revised) = "USD"%string
  ∧ e_convertedAmount (Scenario.expense_of 201 Revision.revised) = 42%float
  ∧ e_exchangeRate (Scenario.expense_of 201 Revision.revised) = 0.5%float.
Proof. repeat split; vm_compute; reflexivity. Qed.

Lemma amounts_agree_with_rate_witness :
  money_wf (Scenario.expense_of 201 Revision.revised).
Proof.
  refine (amounts_agree_with_rate Revision.ops Revision.revised _ 201%nat
            (Scenario.expense_of 201 Revision.revised) _).
  - apply reach_e_edit. apply reach_e_step; [by apply reach_e_init | by split].
  - vm_compute; reflexivity.
Defined.

(** ** What is stored passes the schema *)





(** A negative amount passes the validator of the route and fails the
    schema: the submission is answered 500 and nothing is stored; a
    description of blanks fares the same, trimmed to nothing. *)
Example negative_amount_not_stored :
  submit Scenario.env1
    (mkSubmitReq (Scenario.person 5) (-5)%float "EUR" "travel" "Train" 0 None)
    Scenario.opening
  = (server_error, Scenario.opening)
  ∧ submit Scenario.env1
      (mkSubmitReq (Scenario.person 5) 5%float "EUR" "travel" "   " 0 None)
      Scenario.opening
    = (server_error, Scenario.opening).
Proof. split; vm_compute; reflexivity. Qed.

(** ** Decided once *)

(** X18: a task is decided once: after an accepted approve or reject
    decision on a task, every further approve or reject request on that
    task, by anybody, leaves the store as it is. *)
Theorem decided_task_is_closed env st :
  approvals st !! new_approval_id env = None →
  (∀ req a e c, approve_accepts req st a e c →
     ∀ env' u comments reason,
       (approve env' (mkApproveReq u (ap_id req) comments) (approve env req st).2).2
       = (approve env req st).2
       ∧ (reject env' (mkRejectReq u (ap_id req) reason comments)
            (approve env req st).2).2
         = (approve env req st).2)
  ∧ (∀ req a e, reject_accepts req st a e →
     ∀ env' u comments reason,
       (approve env' (mkApproveReq u (rj_id req) comments) (reject env req st).2).2
       = (reject env req st).2
       ∧ (reject env' (mkRejectReq u (rj_id req) reason comments)
            (reject env req st).2).2
         = (reject env req st).2).
Proof.
  intros Hfresh.
  assert (∀ st' id a', approvals st' !! id = Some a' → a_status a' ≠ t_pending →
            ∀ env' u comments reason,
              (approve env' (mkApproveReq u id comments) st').2 = st'
              ∧ (reject env' (mkRejectReq u id reason comments) st').2 = st') as Hclosed.
  { intros st' id a' Ha' Hs env' u comments reason. split.
    - unfold approve; cbn [ap_id ap_user]. rewrite Ha'.
      case_decide; [done |]. by rewrite decide_True.
    - unfold reject; cbn [rj_id rj_user rj_reason]. case_decide; [done |].
      rewrite Ha'. case_decide; [done |]. by rewrite decide_True. }
  split.
  - intros req a e c Hacc.
    apply (Hclosed _ _
             (decide_approval t_approved None (or_null (ap_comments req)) (date1 env) a));
      [| done].
    assert (ap_id req ≠ new_approval_id env) as Hne.
    { destruct Hacc as (Ha & _). congruence. }
    rewrite (approve_accepted _ _ _ _ _ _ Hacc).
    repeat case_match; cbn [snd]; store_simpl;
      rewrite ?(lookup_insert_ne _ (new_approval_id env)) by done;
      apply lookup_insert_eq.
  - intros req a e Hacc. rewrite (reject_accepted _ _ _ _ _ Hacc). cbn [snd].
    apply (Hclosed _ _
             (decide_approval t_rejected (Some (rj_reason req))
                (or_null (rj_comments req)) (date1 env) a)); [| done].
    store_simpl. apply lookup_insert_eq.
Qed.

Lemma decided_task_is_closed_witness :
  (reject Scenario.env3 (mkRejectReq (Scenario.person 2) 301 "Too late" None)
     (approve Scenario.env2 (mkApproveReq (Scenario.person 2) 301 None)
        Scenario.filed).2).2
  = (approve Scenario.env2 (mkApproveReq (Scenario.person 2) 301 None)
       Scenario.filed).2.
Proof.
  refine (proj2 (proj1 (decided_task_is_closed Scenario.env2 Scenario.filed _)
                   (mkApproveReq (Scenario.person 2) 301 None)
                   (Scenario.task_of 301 Scenario.filed)
                   (Scenario.expense_of 201 Scenario.filed)
                   (mkCompany "USD" (mkSettings percentage 60%float [])) _
                   Scenario.env3 (Scenario.person 2) None "Too late"%string)).
  - vm_compute; reflexivity.
  - repeat split; vm_compute; reflexivity.
Defined.

(** ** Stalled expenses *)

Lemma unassigned_reachable : reachable Scenario.unassigned.
Proof. apply reach_step; [apply opening_reachable | by split]. Qed.

(** X19: an expense submitted when no manager was found stays as it is: no
    later submission and no approve or reject request changes it or gives
    it a task, and an edit leaves it pending, without approver and without
    task. *)
Theorem stalled_expense_stays_stalled st k e :
  reachable st →
  expenses st !! k = Some e → stalled st k e →
  (∀ env act, fresh_ids env st →
     expenses (run env act st).2 !! k = Some e ∧ stalled (run env act st).2 k e)
  ∧ (∀ ops env req,
     ∃ e', expenses (update_expense ops env req st).2 !! k = Some e'
           ∧ stalled (update_expense ops env req st).2 k e').
Proof.
  intros Hr He (Hp & Hcur & Hno). pose proof (reachable_inv st Hr) as HI. split.
  - intros env act Hfresh.
    destruct (run_transition env act st HI Hfresh)
      as [| e0 Hk | e0 mgr Hk Hnew | req a e0 c0 Hacc _
          | req a e0 c0 next Hacc _ _ _ Hnew | req a e0 Hacc]; unfold stalled; store_simpl.
    + done.
    + split; [rewrite lookup_insert_ne by congruence; done | done].
    + assert (new_expense_id env ≠ k) as Hne by congruence.
      split; [by rewrite lookup_insert_ne |]. repeat split; try done.
      intros i t Ht. apply lookup_insert_Some in Ht as [[<- <-] | [_ Ht]]; [done |].
      by eapply Hno.
    + destruct Hacc as (Ha & _). pose proof (Hno _ _ Ha) as Hne.
      split; [by rewrite lookup_insert_ne |]. repeat split; try done.
      intros i t Ht. apply lookup_insert_Some in Ht as [[<- <-] | [_ Ht]]; [done |].
      by eapply Hno.
    + destruct Hacc as (Ha & _). pose proof (Hno _ _ Ha) as Hne.
      split; [by rewrite lookup_insert_ne |]. repeat split; try done.
      intros i t Ht. apply lookup_insert_Some in Ht as [[<- <-] | [_ Ht]]; [done |].
      apply lookup_insert_Some in Ht as [[<- <-] | [_ Ht]]; [done |].
      by eapply Hno.
    + destruct Hacc as (_ & Ha & _). pose proof (Hno _ _ Ha) as Hne.
      split; [by rewrite lookup_insert_ne |]. repeat split; try done.
      intros i t Ht. apply lookup_insert_Some in Ht as [[<- <-] | [_ Ht]]; [done |].
      by eapply Hno.
  - intros ops env req.
    destruct (update_cases ops env req st) as [-> | (e0 & e' & Hedit & ->)].
    + by exists e.
    + cbn [snd]. unfold stalled; store_simpl.
      destruct (edit_of_same_workflow _ _ _ _ _ _ Hedit) as [Hk Hsw].
      destruct (decide (up_id req = k)) as [<- | Hne].
      * exists e'. rewrite lookup_insert_eq. assert (e0 = e) as -> by congruence.
        destruct Hsw as (_ & _ & -> & -> & _). done.
      * exists e. by rewrite lookup_insert_ne.
Qed.

Lemma stalled_expense_stays_stalled_witness :
  expenses
    (run Scenario.env2 (Approve (mkApproveReq (Scenario.person 4) 301 None))
       Scenario.unassigned).2 !! 201%nat
  = Some (Scenario.expense_of 201 Scenario.unassigned)
  ∧ stalled
      (run Scenario.env2 (Approve (mkApproveReq (Scenario.person 4) 301 None))
         Scenario.unassigned).2 201
      (Scenario.expense_of 201 Scenario.unassigned).
Proof.
  refine (proj1 (stalled_expense_stays_stalled Scenario.unassigned 201%nat
                   (Scenario.expense_of 201 Scenario.unassigned) _ _ _)
            Scenario.env2 (Approve (mkApproveReq (Scenario.person 4) 301 None)) _).
  - apply unassigned_reachable.
  - vm_compute; reflexivity.
  - split; [vm_compute; reflexivity |]. split; [vm_compute; reflexivity |].
    intros i a Ha. vm_compute in Ha. discriminate.
  - split; vm_compute; reflexivity.
Defined.
